(** * Piso print: page selection, image cache, ink scan and cost quote

    A shallow embedding of the kiosk's conversion and cost pipeline:
    - [public/app.js]: [parsePageSelection], [getSelectedPages],
      [renderPreview], [updatePreview], the submit handler of the upload
      form and the proceed button;
    - [server.js]: [resizePDF], the two rasterization adapters,
      [clearCache], the naming of uploads, the [/delete-last], [/upload],
      [/calculate-cost], [/transaction/create] and [/transaction/update]
      handlers, [convertToBWIfNeeded] and [scanUsedSections];
    - [public/cost.js]: the cost request, the print and the cancel
      button.

    [server.js] exists in two revisions.  The first one rasterizes with
    pdf2pic and looks cached pages up as [<basename>-<n>.png]; the second
    one rasterizes with Ghostscript, names cached pages
    [<basename>_<n>.png] and carries the comments FIX 1 .. FIX 3.  Where
    the two differ the definitions below branch on a value of type
    [revision].

    External libraries are taken as they are used: the greyscale
    conversion of sharp is a parameter, a run of the rasterization
    engine is given by the way it settled and by the files found
    afterwards, a PDF by the sizes of its pages.  A file that is listed
    can be read, and [unlink] removes a file that is there. *)

From Stdlib Require Import List String Ascii ZArith QArith Qround Lia Lqa Bool Arith.
From Stdlib Require Import Sorting.Sorted Permutation DecimalString DecimalPos Strings.Byte.
Import ListNotations.

Close Scope Q_scope.
Open Scope string_scope.
Open Scope list_scope.

(* ================================================================== *)
(** * JavaScript strings *)
(* ================================================================== *)

(** A JavaScript string is modelled as a [string] of code units below
    256 (Latin-1).  Request fields that are [null] or [undefined] are
    represented by the empty string: every use the handlers make of such
    a field ([!x], [x || d], [x === 'lit']) treats them alike. *)

Module JsString.

(** [\d] *)
Definition is_digit (c : ascii) : bool :=
  let n := nat_of_ascii c in (48 <=? n)%nat && (n <=? 57)%nat.

(** WhiteSpace and LineTerminator code units, as removed by
    [String.prototype.trim] and skipped by [Number]. *)
Definition is_whitespace (c : ascii) : bool :=
  let n := nat_of_ascii c in
  ((9 <=? n)%nat && (n <=? 13)%nat) || (n =? 32)%nat || (n =? 160)%nat.

Fixpoint trimStart (s : string) : string :=
  match s with
  | String c r => if is_whitespace c then trimStart r else s
  | EmptyString => EmptyString
  end.

Fixpoint trimEnd (s : string) : string :=
  match s with
  | String c r =>
      match trimEnd r with
      | EmptyString => if is_whitespace c then EmptyString else String c EmptyString
      | r' => String c r'
      end
  | EmptyString => EmptyString
  end.

Definition trim (s : string) : string := trimEnd (trimStart s).

(** [s.split(sep)] for a one-character separator. *)
Fixpoint split (sep : ascii) (s : string) : list string :=
  match s with
  | EmptyString => [EmptyString]
  | String c r =>
      if Ascii.eqb c sep then EmptyString :: split sep r
      else match split sep r with
           | h :: t => String c h :: t
           | [] => [String c EmptyString]
           end
  end.

(** [parts.join(sep)] *)
Definition join (sep : string) (parts : list string) : string :=
  String.concat sep parts.

Fixpoint startsWith (s p : string) : bool :=
  match p with
  | EmptyString => true
  | String a p' =>
      match s with
      | String b s' => Ascii.eqb a b && startsWith s' p'
      | EmptyString => false
      end
  end.

Definition endsWith (s p : string) : bool :=
  let ls := String.length s in
  let lp := String.length p in
  (lp <=? ls)%nat && String.eqb (substring (ls - lp) lp s) p.

(** [s.includes(p)] *)
Fixpoint includes (s p : string) : bool :=
  startsWith s p ||
  match s with
  | String _ r => includes r p
  | EmptyString => false
  end.

(** [s.replace(p, '')] with a string pattern: the first occurrence of
    [p] is removed, a string without occurrence is returned as it is. *)
Fixpoint remove_first (s p : string) : string :=
  if startsWith s p then substring (String.length p) (String.length s - String.length p) s
  else match s with
       | String c r => String c (remove_first r p)
       | EmptyString => EmptyString
       end.

(** The longest prefix of digits, and what follows it. *)
Fixpoint span_digits (s : string) : string * string :=
  match s with
  | String c r =>
      if is_digit c then let '(d, rest) := span_digits r in (String c d, rest)
      else (EmptyString, s)
  | EmptyString => (EmptyString, EmptyString)
  end.

Fixpoint all_digits (s : string) : bool :=
  match s with
  | String c r => is_digit c && all_digits r
  | EmptyString => true
  end.

Definition nonempty (s : string) : bool :=
  match s with EmptyString => false | _ => true end.

(** The value of a string of decimal digits, most significant first. *)
Fixpoint digits_value_acc (acc : Z) (s : string) : Z :=
  match s with
  | String c r => digits_value_acc (10 * acc + (Z.of_nat (nat_of_ascii c) - 48)) r
  | EmptyString => acc
  end.

Definition digits_value (s : string) : Z := digits_value_acc 0 s.

(** [String(n)] for an integer [n]. *)
Definition of_int (n : Z) : string := NilZero.string_of_int (Z.to_int n).

End JsString.

(* ================================================================== *)
(** * JavaScript numbers *)
(* ================================================================== *)

(** A JavaScript number is [NaN], an infinity or a finite value.  Finite
    values are kept as exact rationals.  On integers and halves below
    2^53 the arithmetic of IEEE doubles is exact and the two agree: page
    indices, band counts, prices and whole copy counts are of that kind,
    and the statements about amounts below are made for such values
    ([whole_copies], [exact_amounts]).  On other values, a copy count of
    2.05 for one, a double is a rounded rational and only what does not
    depend on the rounding is stated: whether a value is [NaN], and the
    order of page indices.  The sign of zero is not tracked. *)

Module JsNumber.
Import JsString.

Inductive number : Type :=
| NaN
| Fin (q : Q)
| PosInf
| NegInf.

(** Finite results are kept in lowest terms, so that equal numbers
    are equal terms. *)
Definition fin (q : Q) : number := Fin (Qred q).

Definition of_Z (z : Z) : number := fin (inject_Z z).
Definition of_nat (n : nat) : number := of_Z (Z.of_nat n).

Definition isNaN (n : number) : bool :=
  match n with NaN => true | _ => false end.

Definition Qlt_bool (a b : Q) : bool := negb (Qle_bool b a).

Definition neg (n : number) : number :=
  match n with
  | NaN => NaN
  | Fin q => fin (- q)%Q
  | PosInf => NegInf
  | NegInf => PosInf
  end.

Definition add (a b : number) : number :=
  match a, b with
  | NaN, _ | _, NaN => NaN
  | Fin x, Fin y => fin (x + y)%Q
  | PosInf, NegInf | NegInf, PosInf => NaN
  | PosInf, _ | _, PosInf => PosInf
  | NegInf, _ | _, NegInf => NegInf
  end.

Definition sub (a b : number) : number := add a (neg b).

(** An infinity with the sign of [q], [NaN] at zero. *)
Definition signed_inf (positive : bool) (q : Q) : number :=
  if Qeq_bool q 0 then NaN
  else if Bool.eqb positive (Qlt_bool 0 q) then PosInf else NegInf.

Definition mul (a b : number) : number :=
  match a, b with
  | NaN, _ | _, NaN => NaN
  | Fin x, Fin y => fin (x * y)%Q
  | PosInf, Fin q | Fin q, PosInf => signed_inf true q
  | NegInf, Fin q | Fin q, NegInf => signed_inf false q
  | PosInf, PosInf | NegInf, NegInf => PosInf
  | PosInf, NegInf | NegInf, PosInf => NegInf
  end.

Definition div (a b : number) : number :=
  match a, b with
  | NaN, _ | _, NaN => NaN
  | Fin x, Fin y => if Qeq_bool y 0 then signed_inf true x else fin (x / y)%Q
  | Fin _, _ => of_Z 0
  | PosInf, Fin q => if Qlt_bool q 0 then NegInf else PosInf
  | NegInf, Fin q => if Qlt_bool q 0 then PosInf else NegInf
  | _, _ => NaN
  end.

(** [a < b]; false as soon as one side is [NaN]. *)
Definition ltb (a b : number) : bool :=
  match a, b with
  | NaN, _ | _, NaN => false
  | Fin x, Fin y => Qlt_bool x y
  | NegInf, NegInf | PosInf, _ | _, NegInf => false
  | NegInf, _ | _, PosInf => true
  end.

(** [Math.max(a, b)] *)
Definition Math_max (a b : number) : number :=
  match a, b with
  | NaN, _ | _, NaN => NaN
  | _, _ => if ltb a b then b else a
  end.

(** [Math.round(n)]: the nearest integer, halves upwards. *)
Definition Math_round (n : number) : number :=
  match n with
  | Fin q => of_Z (Qfloor (q + (1 # 2))%Q)
  | _ => n
  end.

(** SameValueZero, the equality of [Array.prototype.includes]. *)
Definition same_value_zero (a b : number) : bool :=
  match a, b with
  | NaN, NaN | PosInf, PosInf | NegInf, NegInf => true
  | Fin x, Fin y => Qeq_bool x y
  | _, _ => false
  end.

Definition array_includes (l : list number) (n : number) : bool :=
  existsb (fun m => same_value_zero m n) l.

(** ** [Number(string)] *)

Definition radix_digit (radix : Z) (c : ascii) : option Z :=
  let n := Z.of_nat (nat_of_ascii c) in
  let v := (if (48 <=? n) && (n <=? 57) then n - 48
            else if (97 <=? n) && (n <=? 102) then n - 87
            else if (65 <=? n) && (n <=? 70) then n - 55
            else radix)%Z in
  if (v <? radix)%Z then Some v else None.

Fixpoint radix_value (radix acc : Z) (s : string) : option Z :=
  match s with
  | String c r =>
      match radix_digit radix c with
      | Some v => radix_value radix (radix * acc + v) r
      | None => None
      end
  | EmptyString => Some acc
  end.

(** NonDecimalIntegerLiteral: [0x], [0o] and [0b] literals. *)
Definition radix_of_prefix (s : string) : option (Z * string) :=
  match s with
  | String z (String c r) =>
      if negb (Ascii.eqb z "0") then None
      else if Ascii.eqb c "x" || Ascii.eqb c "X" then Some (16%Z, r)
      else if Ascii.eqb c "o" || Ascii.eqb c "O" then Some (8%Z, r)
      else if Ascii.eqb c "b" || Ascii.eqb c "B" then Some (2%Z, r)
      else None
  | _ => None
  end.

Definition pow10 (e : Z) : Q :=
  if (0 <=? e)%Z then inject_Z (10 ^ e) else (/ inject_Z (10 ^ (- e)))%Q.

(** ExponentPart, optional: [None] when what follows the mantissa is
    not an exponent. *)
Definition parse_exponent (s : string) : option Z :=
  match s with
  | EmptyString => Some 0%Z
  | String c r =>
      if Ascii.eqb c "e" || Ascii.eqb c "E" then
        let '(sign, ds) :=
          match r with
          | String c' d =>
              if Ascii.eqb c' "+" then (1%Z, d)
              else if Ascii.eqb c' "-" then ((-1)%Z, d)
              else (1%Z, r)
          | EmptyString => (1%Z, r)
          end in
        if nonempty ds && all_digits ds then Some (sign * digits_value ds)%Z else None
      else None
  end.

(** StrUnsignedDecimalLiteral *)
Definition parse_unsigned (s : string) : number :=
  if String.eqb s "Infinity" then PosInf
  else
    let '(ip, r1) := span_digits s in
    let '(fp, r2) :=
      match r1 with
      | String c r => if Ascii.eqb c "." then span_digits r else (EmptyString, r1)
      | EmptyString => (EmptyString, r1)
      end in
    if nonempty ip || nonempty fp then
      match parse_exponent r2 with
      | Some e =>
          fin (inject_Z (digits_value (ip ++ fp)%string)
               * pow10 (e - Z.of_nat (String.length fp)))%Q
      | None => NaN
      end
    else NaN.

(** StrDecimalLiteral *)
Definition parse_decimal (s : string) : number :=
  match s with
  | String c r =>
      if Ascii.eqb c "+" then parse_unsigned r
      else if Ascii.eqb c "-" then neg (parse_unsigned r)
      else parse_unsigned s
  | EmptyString => parse_unsigned s
  end.

(** [Number(s)] on a string: StringToNumber. *)
Definition Number (s : string) : number :=
  let t := trim s in
  if negb (nonempty t) then of_Z 0
  else
    match radix_of_prefix t with
    | Some (radix, ds) =>
        if nonempty ds then
          match radix_value radix 0 ds with
          | Some v => of_Z v
          | None => NaN
          end
        else NaN
    | None => parse_decimal t
    end.

(** ** [Array.prototype.sort(compare)] *)

(** The sort is stable and [compare] is only looked at through its
    sign, [NaN] counting as zero.  On a comparator that orders its
    arguments consistently, as [(a, b) => key(a) - key(b)] does on keys
    that are not [NaN], the result is the one of a stable insertion
    sort. *)
Definition positive (n : number) : bool := ltb (of_Z 0) n.

Section Sort.
Context {A : Type} (compare : A -> A -> number).

Fixpoint insert (x : A) (l : list A) : list A :=
  match l with
  | y :: l' => if positive (compare x y) then y :: insert x l' else x :: l
  | [] => [x]
  end.

Definition sort (l : list A) : list A := fold_right insert [] l.
End Sort.

End JsNumber.

(* ================================================================== *)
(** * public/app.js *)
(* ================================================================== *)

Module App.
Import JsString.

(** [/^\d+$/.test(part)] *)
Definition is_single (part : string) : bool :=
  nonempty part && all_digits part.

(** [/^\d+-\d+$/.test(part)] *)
Definition is_range (part : string) : bool :=
  let '(a, rest) := span_digits part in
  nonempty a &&
  match rest with
  | String c b => Ascii.eqb c "-" && nonempty b && all_digits b
  | EmptyString => false
  end.

(** [Math.max(1, Math.min(n, totalPages))] *)
Definition clamp (n totalPages : Z) : Z := Z.max 1 (Z.min n totalPages).

(** [pages.add(i)] on a [Set]: insertion order, no second copy. *)
Definition set_add (i : Z) (pages : list Z) : list Z :=
  if existsb (Z.eqb i) pages then pages else pages ++ [i].

(** [for (let i = start; i <= end; i++) pages.add(i)], with
    [count] the number of iterations left. *)
Fixpoint add_from (i : Z) (count : nat) (pages : list Z) : list Z :=
  match count with
  | O => pages
  | S k => add_from (i + 1) k (set_add i pages)
  end.

Definition add_range (start end_ : Z) (pages : list Z) : list Z :=
  add_from start (Z.to_nat (end_ - start + 1)) pages.

(** The loop state: the [Set] of pages and [correctedParts]. *)
Definition loop_state : Type := list Z * list string.

(** One iteration of [for (let part of ranges)].  On a part that
    matches the range pattern, [part.split("-").map(Number)] has two
    entries, both digit strings, whose [Number] is their decimal
    value. *)
Definition step (totalPages : Z) (st : loop_state) (part : string) : loop_state :=
  let '(pages, correctedParts) := st in
  if is_range part then
    match map digits_value (split "-" part) with
    | start :: end_ :: _ =>
        let start := clamp start totalPages in
        let end_ := clamp end_ totalPages in
        let '(start, end_) := if (start >? end_)%Z then (end_, start) else (start, end_) in
        (add_range start end_ pages,
         correctedParts ++ [(of_int start ++ "-" ++ of_int end_)%string])
    | _ => st
    end
  else if is_single part then
    let num := clamp (digits_value part) totalPages in
    (set_add num pages, correctedParts ++ [of_int num])
  else st.

(** [parsePageSelection(input, totalPages)].  The second argument of
    the model is the current [pagesInput.value]; the result is the
    returned array and the new [pagesInput.value]. *)
Definition parsePageSelection (input : string) (totalPages : Z)
    (pagesInput_value : string) : list Z * string :=
  if negb (nonempty input) then ([], pagesInput_value)
  else
    let ranges := map trim (split "," input) in
    let '(pages, correctedParts) := fold_left (step totalPages) ranges ([], []) in
    (pages, join ", " correctedParts).

(** ** Mode shortcuts and the preview *)

(** [Array.from({ length: totalPages }, (_, i) => i + 1)] *)
Definition page_numbers (totalPages : Z) : list Z :=
  map (fun i => Z.of_nat i + 1)%Z (seq 0 (Z.to_nat totalPages)).

(** [getSelectedPages()], from [pageMode.value], [pagesInput.value] and
    the global [totalPages]; the second component is [pagesInput.value]
    afterwards, which only the custom mode rewrites. *)
Definition getSelectedPages (pageMode pagesInput_value : string) (totalPages : Z)
    : list Z * string :=
  if (totalPages =? 0)%Z then ([], pagesInput_value)
  else
    let pages := page_numbers totalPages in
    if String.eqb pageMode "all" then (pages, pagesInput_value)
    else if String.eqb pageMode "odd" then
      (filter (fun n => negb (Z.rem n 2 =? 0)%Z) pages, pagesInput_value)
    else if String.eqb pageMode "even" then
      (filter (fun n => (Z.rem n 2 =? 0)%Z) pages, pagesInput_value)
    else if String.eqb pageMode "custom" then
      parsePageSelection pagesInput_value totalPages pagesInput_value
    else ([], pagesInput_value).

(** An [img] element appended to the preview: its [src] and whether it
    carries the class [bw]. *)
Record preview_image : Type := {
  img_src : string;
  img_bw : bool
}.

(** The content of the preview element: the waiting message, or the
    images appended so far. *)
Inductive preview_content : Type :=
| WaitingMessage
| PreviewImages (images : list preview_image).

(** [pages[num - 1]]: [None] for [undefined]. *)
Definition page_src (pages : list string) (num : Z) : option string :=
  if (num - 1 <? 0)%Z then None else nth_error pages (Z.to_nat (num - 1)).

(** The body of [selectedPages.forEach] in [renderPreview]. *)
Definition render_one (pages : list string) (colorMode : string)
    (shown : list preview_image) (num : Z) : list preview_image :=
  match page_src pages num with
  | Some src =>
      if nonempty src then
        shown ++ [{| img_src := src; img_bw := String.eqb colorMode "bw" |}]
      else shown
  | None => shown
  end.

(** [renderPreview(pages, selectedPages, colorMode)], with [None] for a
    [pages] that is [null] or [undefined]. *)
Definition renderPreview (pages : option (list string)) (selectedPages : list Z)
    (colorMode : string) : preview_content :=
  match pages with
  | Some (src :: rest) =>
      PreviewImages (fold_left (render_one (src :: rest) colorMode) selectedPages [])
  | _ => WaitingMessage
  end.

(** The controls and globals [updatePreview] reads. *)
Record ui_state : Type := {
  ui_pageMode : string;
  ui_pagesInput : string;
  ui_color : string;
  ui_paper : string;
  ui_totalPages : Z;
  ui_letter : list string;
  ui_legal : list string
}.

(** [allPagesImages[paperSelect.value]] *)
Definition images_for (ui : ui_state) : option (list string) :=
  if String.eqb (ui_paper ui) "letter" then Some (ui_letter ui)
  else if String.eqb (ui_paper ui) "legal" then Some (ui_legal ui)
  else None.

(** [updatePreview()]: the new content of the preview and the new
    [pagesInput.value]. *)
Definition updatePreview (ui : ui_state) (shown : preview_content)
    : preview_content * string :=
  if (ui_totalPages ui =? 0)%Z then (shown, ui_pagesInput ui)
  else
    let '(selectedPages, value) :=
      getSelectedPages (ui_pageMode ui) (ui_pagesInput ui) (ui_totalPages ui) in
    let no_images := match images_for ui with Some [] => true | _ => false end in
    match selectedPages with
    | [] => (renderPreview None selectedPages (ui_color ui), value)
    | _ :: _ =>
        if no_images then (renderPreview None selectedPages (ui_color ui), value)
        else (renderPreview (images_for ui) selectedPages (ui_color ui), value)
    end.

(** [selectedPages.join(",")], the [Pages] field the proceed button
    sends and the [pages] parameter of the cost page. *)
Definition pages_field (selectedPages : list Z) : string :=
  join "," (map of_int selectedPages).


End App.

(* ================================================================== *)
(** * server.js *)
(* ================================================================== *)

Module Server.
Import JsString JsNumber.

(** The two revisions of [server.js]. *)
Inductive revision : Type :=
| Pdf2Pic       (* first revision, lines 1-412 *)
| Ghostscript.  (* second revision, lines 414-846 *)

(** A value returned, or an [Error] thrown with its message. *)
Inductive result (A : Type) : Type :=
| Ok (a : A)
| Throw (message : string).
Arguments Ok {A} a.
Arguments Throw {A} message.

Definition bind {A B : Type} (r : result A) (k : A -> result B) : result B :=
  match r with
  | Ok a => k a
  | Throw m => Throw m
  end.

Notation "x <- r ;; k" := (bind r (fun x => k))
  (at level 61, r at next level, right associativity).

(** ** The image cache on disk *)

(** A decoded page image: what [sharp(file).ensureAlpha().removeAlpha()]
    gives as [metadata()] and as [raw().toBuffer()].  sharp removes an
    alpha channel before it ensures one, whatever the order of the two
    calls, so that the buffer of a page holds four bytes for each
    pixel, row after row: red, green, blue and an alpha byte of 255. *)
Record image : Type := {
  width : nat;
  height : nat;
  rawBuffer : list byte
}.

(** A directory: its entries in [readdir] order, with their content. *)
Definition directory : Type := list (string * image).

Record store : Type := {
  letterCache : directory;
  legalCache : directory;
  uploadsDir : list string
}.

Definition names (d : directory) : list string := map fst d.

Definition read_file (d : directory) (f : string) : option image :=
  match find (fun e => String.eqb (fst e) f) d with
  | Some e => Some (snd e)
  | None => None
  end.

Definition write_file (d : directory) (f : string) (img : image) : directory :=
  map (fun e => if String.eqb (fst e) f then (f, img) else e) d.

(** [fsPromise.readdir(path.join(cacheDir, String(paper)))]: the
    cache directory has the two partitions created at start-up, and
    the client sends their names, "letter" and "legal".  Every other
    [paper] is taken for a directory that cannot be listed; other
    spellings of the two partitions, "letter/" or "./legal", which
    [path.join] would resolve, are not modelled, and what is stated
    about the files a request leaves is stated for the two names. *)
Definition readdir (st : store) (paper : string) : result directory :=
  if String.eqb paper "letter" then Ok (letterCache st)
  else if String.eqb paper "legal" then Ok (legalCache st)
  else Throw "ENOENT: no such file or directory".

Definition write_dir (st : store) (paper : string) (d : directory) : store :=
  if String.eqb paper "letter" then
    {| letterCache := d; legalCache := legalCache st; uploadsDir := uploadsDir st |}
  else if String.eqb paper "legal" then
    {| letterCache := letterCache st; legalCache := d; uploadsDir := uploadsDir st |}
  else st.

(** ** [scanUsedSections] *)

(** [a === b] on buffer reads; a read past the end is [undefined]. *)
Definition strict_eq (a b : option byte) : bool :=
  match a, b with
  | Some x, Some y => Byte.eqb x y
  | None, None => true
  | _, _ => false
  end.

(** [r === g && g === b] for the pixel at [idx]. *)
Definition grey_at (buf : list byte) (idx : nat) : bool :=
  let r := nth_error buf idx in
  let g := nth_error buf (idx + 1) in
  let b := nth_error buf (idx + 2) in
  strict_eq r g && strict_eq g b.

(** [for (let x = 0; x < width; x++)], from [x] on with [todo]
    columns left; [true] when the loop leaves through
    [used = true; break]. *)
Fixpoint scan_row (buf : list byte) (rowStartIdx x todo : nat) : bool :=
  match todo with
  | O => false
  | S k =>
      let idx := rowStartIdx + x * 3 in
      if negb (grey_at buf idx) then true
      else scan_row buf rowStartIdx (x + 1) k
  end.

(** [for (let y = yStart; y < yEnd && !used; y++)], from [y] on with
    [todo] rows left; the result is the final [used]. *)
Fixpoint scan_rows (img : image) (y todo : nat) (used : bool) : bool :=
  match todo with
  | O => used
  | S k =>
      if used then used
      else
        let rowStartIdx := y * width img * 3 in
        scan_rows img (y + 1) k (scan_row (rawBuffer img) rowStartIdx 0 (width img))
  end.

Definition yStart (sectionHeight i : nat) : nat := i * sectionHeight.

Definition yEnd (img : image) (sectionHeight i : nat) : nat :=
  if (i =? 11)%nat then height img else (i + 1) * sectionHeight.

Definition band_used (img : image) (sectionHeight i : nat) : bool :=
  scan_rows img (yStart sectionHeight i)
    (yEnd img sectionHeight i - yStart sectionHeight i) false.

(** [for (let i = 0; i < 12; i++)], from [i] on with [todo] bands
    left. *)
Fixpoint scan_bands (img : image) (sectionHeight i todo totalUsedSections : nat) : nat :=
  match todo with
  | O => totalUsedSections
  | S k =>
      scan_bands img sectionHeight (i + 1) k
        (if band_used img sectionHeight i then totalUsedSections + 1
         else totalUsedSections)
  end.

Definition sectionHeight (img : image) : nat := Nat.max 1 (height img / 12).

Definition scanUsedSections (img : image) : nat :=
  scan_bands img (sectionHeight img) 0 12 0.

(** ** [/calculate-cost] *)

Record cost_request : Type := {
  paper : string;
  baseName : string;
  color : string;
  pages : string;
  copies : string
}.

Inductive cost_response : Type :=
| CostFailure (message : string)
| CostSuccess (totalCost : number) (usedSections totalPages : nat).

(** [String(pages || '').split(',').map(s => Number(s.trim()))
     .filter(n => !isNaN(n))] *)
Definition selectedPages (pages : string) : list number :=
  filter (fun n => negb (isNaN n))
         (map (fun s => Number (trim s)) (split "," pages)).

(** The character between basename and page number in a cached file
    name. *)
Definition separator (rv : revision) : string :=
  match rv with
  | Pdf2Pic => "-"
  | Ghostscript => "_"
  end.

(** [Number(f.replace(baseName + sep, '').replace('.png', ''))] *)
Definition page_index (rv : revision) (baseName f : string) : number :=
  Number (remove_first (remove_first f (baseName ++ separator rv)) ".png").

(** The filter-filter-sort chain that computes [matched]. *)
Definition lookup (rv : revision) (baseName : string) (selected : list number)
    (files : list string) : list string :=
  sort (fun a b => sub (page_index rv baseName a) (page_index rv baseName b))
    (filter (fun f => array_includes selected (page_index rv baseName f))
      (filter (fun f => startsWith f (baseName ++ separator rv)) files)).

Section Sharp.

(** [sharp(file).greyscale().toFile(tmp)], an external library: the
    image written, or the error raised. *)
Variable greyscale : image -> result image.

(** [convertToBWIfNeeded(filePath, color)].  The first revision lets
    a failure of the conversion escape; the second one logs it and
    goes on with the file as it is.  The two steps of the source,
    [toFile(tmp)] and [rename(tmp, filePath)], are taken as one: either
    both succeed and the file holds the greyscale image, or the
    conversion fails and the directory is as it was.  A failure
    between the two steps, which leaves the temporary file
    [filePath + '.tmp.png'] or [filePath + '.bw.png'] behind, is not
    modelled, and what is stated about the files a "bw" request leaves
    is stated for conversions that succeed. *)
Definition convertToBWIfNeeded (rv : revision) (d : directory) (f color : string)
    : directory * result unit :=
  if negb (String.eqb color "bw") then (d, Ok tt)
  else
    let converted :=
      match read_file d f with
      | Some img => greyscale img
      | None => Throw "Input file is missing"
      end in
    match converted with
    | Ok grey => (write_file d f grey, Ok tt)
    | Throw m =>
        match rv with
        | Pdf2Pic => (d, Throw m)
        | Ghostscript => (d, Ok tt)
        end
    end.

Definition scan_file (d : directory) (f : string) : result nat :=
  match read_file d f with
  | Some img => Ok (scanUsedSections img)
  | None => Throw "Input file is missing"
  end.

(** [for (const f of matched)]: the directory as the loop leaves
    it, and the band total or the error that ended the loop. *)
Fixpoint process (rv : revision) (color : string) (d : directory)
    (matched : list string) (totalUsedSections : nat) : directory * result nat :=
  match matched with
  | [] => (d, Ok totalUsedSections)
  | f :: rest =>
      match convertToBWIfNeeded rv d f color with
      | (d', Throw m) => (d', Throw m)
      | (d', Ok _) =>
          match scan_file d' f with
          | Throw m => (d', Throw m)
          | Ok used => process rv color d' rest (totalUsedSections + used)
          end
      end
  end.

(** [totalUsedSections * 0.5], charged in every mode by the first
    revision and in color mode only by the second. *)
Definition sectionCharge (rv : revision) (color : string) (totalUsedSections : nat)
    : number :=
  let charge := mul (of_nat totalUsedSections) (Fin (1 # 2)) in
  match rv with
  | Pdf2Pic => charge
  | Ghostscript => if String.eqb color "color" then charge else of_Z 0
  end.

(** [Number(copies || 1)] *)
Definition copies_number (copies : string) : number :=
  if nonempty copies then Number copies else of_Z 1.

Definition totalCost_of (rv : revision) (color : string)
    (totalPages totalUsedSections : nat) (copies : string) : number :=
  let baseCost := if String.eqb color "color" then of_Z 10 else of_Z 5 in
  Math_round
    (mul (add (mul baseCost (of_nat totalPages))
              (sectionCharge rv color totalUsedSections))
         (copies_number copies)).

(** The handler of [POST /calculate-cost]: the store it leaves and
    the JSON it answers. *)
Definition calculate_cost (rv : revision) (st : store) (req : cost_request)
    : store * cost_response :=
  if negb (nonempty (paper req)) || negb (nonempty (baseName req)) then
    (st, CostFailure "Missing params")
  else
    let selected := selectedPages (pages req) in
    match selected with
    | [] => (st, CostFailure "No pages selected")
    | _ :: _ =>
        match readdir st (paper req) with
        | Throw m => (st, CostFailure m)
        | Ok d =>
            let matched := lookup rv (baseName req) selected (names d) in
            match matched with
            | [] => (st, CostFailure "No cached images found.")
            | _ :: _ =>
                let '(d', scanned) := process rv (color req) d matched 0 in
                let st' := write_dir st (paper req) d' in
                match scanned with
                | Throw m => (st', CostFailure m)
                | Ok totalUsedSections =>
                    let totalPages := List.length matched in
                    (st', CostSuccess
                            (totalCost_of rv (color req) totalPages
                               totalUsedSections (copies req))
                            totalUsedSections totalPages)
                end
            end
        end
    end.

End Sharp.

(** ** [DELETE /delete-last/:baseName] *)

Inductive delete_response : Type :=
| DeleteFailure (message : string)
| DeleteSuccess.

(** A character that [[^a-zA-Z0-9_\-]] does not match. *)
Definition basename_char (c : ascii) : bool :=
  let n := nat_of_ascii c in
  ((97 <=? n)%nat && (n <=? 122)%nat) || ((65 <=? n)%nat && (n <=? 90)%nat)
  || is_digit c || Ascii.eqb c "_" || Ascii.eqb c "-".

(** [String(param || '').replace(/[^a-zA-Z0-9_\-]/g, '')] *)
Fixpoint sanitize (s : string) : string :=
  match s with
  | String c r => if basename_char c then String c (sanitize r) else sanitize r
  | EmptyString => EmptyString
  end.

(** The predicate of [files.filter(...)] in the handler. *)
Definition doomed (rv : revision) (baseName f : string) : bool :=
  match rv with
  | Pdf2Pic => startsWith f (baseName ++ "-")
  | Ghostscript => startsWith f (baseName ++ "_") || startsWith f (baseName ++ "-")
  end.

(** [unlink] of every doomed entry of a folder; an entry that is
    there is removed. *)
Definition unlink_doomed (rv : revision) (baseName : string) (d : directory) : directory :=
  filter (fun e => negb (doomed rv baseName (fst e))) d.

Definition unlink_name (f : string) (l : list string) : list string :=
  filter (fun g => negb (String.eqb g f)) l.

Definition delete_last (rv : revision) (st : store) (param : string)
    : store * delete_response :=
  let baseName := sanitize param in
  if negb (nonempty baseName) then (st, DeleteFailure "Invalid basename")
  else
    let letterPDF := (baseName ++ "_letter.pdf")%string in
    let legalPDF := (baseName ++ "_legal.pdf")%string in
    ({| letterCache := unlink_doomed rv baseName (letterCache st);
        legalCache := unlink_doomed rv baseName (legalCache st);
        uploadsDir := unlink_name legalPDF (unlink_name letterPDF (uploadsDir st)) |},
     DeleteSuccess).

(** ** The rasterization adapters *)

(** [path.join(dir, f)] and [path.basename(p)] on plain names. *)
Definition path_join (dir f : string) : string := (dir ++ "/" ++ f)%string.

Definition path_basename (p : string) : string := last (split "/" p) EmptyString.

(** What [execPromise(gsCommand)] settles to. *)
Inductive exec_outcome : Type :=
| ExecRejected (message : string)
| ExecResolved (stdout stderr : string).

(** A run of the external engine: how the command settled and what
    [readdir(outDir)] lists afterwards. *)
Record gs_run : Type := {
  gs_exec : exec_outcome;
  gs_listing : result (list string)
}.

Definition gs_output (baseName f : string) : bool :=
  startsWith f (baseName ++ "_") && endsWith f ".png".

Definition convertPdfToPngsWithGhostscript (run : gs_run) (outDir baseName : string)
    : result (list string) :=
  let attempt : result (list string) :=
    match gs_exec run with
    | ExecRejected m => Throw m
    | ExecResolved _ stderr =>
        if nonempty stderr && negb (includes stderr "Warning") then
          Throw ("Ghostscript Error: " ++ stderr)
        else
          files <- gs_listing run ;;
          let pngPaths := map (path_join outDir) (filter (gs_output baseName) files) in
          match pngPaths with
          | [] => Throw "Ghostscript finished, but no PNG files found. The PDF may be corrupted or missing content."
          | _ :: _ => Ok pngPaths
          end
    end in
  match attempt with
  | Ok paths => Ok paths
  | Throw m => Throw ("Ghostscript conversion failed: " ++ m)
  end.

(** One entry of what [convert.bulk(-1)] resolves to. *)
Record bulk_entry : Type := {
  entry_name : string;
  entry_success : bool
}.

Definition convertPdfToPngsWithPdf2Pic (bulk : result (list bulk_entry))
    (outDir baseName : string) : result (list string) :=
  match bulk with
  | Throw m => Throw ("PDF2PIC conversion failed: " ++ m)
  | Ok result =>
      let matched := map (fun r => path_join outDir (entry_name r))
                         (filter entry_success result) in
      Ok matched
  end.

(** ** [POST /upload], from the conversion to PNG on *)

Inductive upload_response : Type :=
| UploadFailure (message : string)
| UploadSuccess (letter legal : list string) (totalPages : nat)
                (originalSize baseName : string).

(** What the engine did for the letter and for the legal PDF. *)
Inductive engine_runs : revision -> Type :=
| Pdf2PicRuns (letter legal : result (list bulk_entry)) : engine_runs Pdf2Pic
| GhostscriptRuns (letter legal : gs_run) : engine_runs Ghostscript.

Definition convert_both {rv : revision} (runs : engine_runs rv) (baseName : string)
    : result (list string * list string) :=
  match runs with
  | Pdf2PicRuns letter legal =>
      letterPngPaths <- convertPdfToPngsWithPdf2Pic letter "cache/letter" baseName ;;
      legalPngPaths <- convertPdfToPngsWithPdf2Pic legal "cache/legal" baseName ;;
      Ok (letterPngPaths, legalPngPaths)
  | GhostscriptRuns letter legal =>
      letterPngPaths <- convertPdfToPngsWithGhostscript letter "cache/letter" baseName ;;
      legalPngPaths <- convertPdfToPngsWithGhostscript legal "cache/legal" baseName ;;
      Ok (letterPngPaths, legalPngPaths)
  end.

(** The handler once the two normalized PDFs are written: the
    conversions, then the answer; the [catch] turns an error into a
    failure answer. *)
Definition upload_convert {rv : revision} (runs : engine_runs rv)
    (baseName : string) (totalPages : nat) (originalSize : string) : upload_response :=
  match convert_both runs baseName with
  | Ok (letterPngPaths, legalPngPaths) =>
      UploadSuccess
        (map (fun p => "/cache/letter/" ++ path_basename p)%string letterPngPaths)
        (map (fun p => "/cache/legal/" ++ path_basename p)%string legalPngPaths)
        totalPages originalSize baseName
  | Throw m => UploadFailure (if nonempty m then m else "Conversion failed")
  end.

(** ** [resizePDF] *)

(** A source page, by the width and height the code reads for it:
    those of [oldPage.getSize()] in the first revision, and the fields
    [width] and [height] of [embeddedPage.size] in the second, which
    are [NaN] here when pdf-lib defines none. *)
Record page_size : Type := {
  size_width : number;
  size_height : number
}.

(** The options of [newPage.drawPage(embeddedPage, options)]. *)
Record draw_options : Type := {
  draw_x : number;
  draw_y : number;
  draw_width : number;
  draw_height : number
}.

(** A page of the new document: the size given to [addPage] and the
    one [drawPage] call made on it, with the index of the source page
    drawn. *)
Record new_page : Type := {
  new_width : number;
  new_height : number;
  drawn_source : nat;
  drawn_options : draw_options
}.

(** [isNaN(v) ? 1 : v], then [Math.max(1, .)] *)
Definition safe_dimension (v : number) : number :=
  let sanitized := if isNaN v then of_Z 1 else v in
  Math_max (of_Z 1) sanitized.

Definition resize_page (rv : revision) (targetWidth targetHeight : number)
    (index : nat) (page : page_size) : new_page :=
  match rv with
  | Pdf2Pic =>
      let oldW := size_width page in
      let oldH := size_height page in
      let x := div (sub targetWidth oldW) (of_Z 2) in
      let y := sub targetHeight oldH in
      {| new_width := targetWidth; new_height := targetHeight;
         drawn_source := index;
         drawn_options := {| draw_x := x; draw_y := y;
                             draw_width := oldW; draw_height := oldH |} |}
  | Ghostscript =>
      let safeWidth := safe_dimension (size_width page) in
      let safeHeight := safe_dimension (size_height page) in
      let scaleX := div targetWidth safeWidth in
      let scaleY := div targetHeight safeHeight in
      {| new_width := targetWidth; new_height := targetHeight;
         drawn_source := index;
         drawn_options := {| draw_x := of_Z 0; draw_y := of_Z 0;
                             draw_width := mul safeWidth scaleX;
                             draw_height := mul safeHeight scaleY |} |}
  end.

(** [for (const page of pages)], with [index] the position of the
    next source page. *)
Fixpoint resize_pages (rv : revision) (targetWidth targetHeight : number)
    (index : nat) (pages : list page_size) : list new_page :=
  match pages with
  | [] => []
  | page :: rest =>
      resize_page rv targetWidth targetHeight index page
      :: resize_pages rv targetWidth targetHeight (index + 1) rest
  end.

(** [resizePDF(inputPath, outputPath, targetWidth, targetHeight)]:
    the pages of the document saved at [outputPath], from the pages of
    the document loaded from [inputPath]. *)
Definition resizePDF (rv : revision) (pages : list page_size)
    (targetWidth targetHeight : number) : list new_page :=
  resize_pages rv targetWidth targetHeight 0 pages.

(** The two normalizations of an upload. *)
Definition letter_size : number * number := (of_Z 612, of_Z 792).
Definition legal_size : number * number := (of_Z 612, of_Z 1008).

(** ** [clearCache] *)

(** [unlink] of every entry whose name ends with [.png]. *)
Definition clearCache (d : directory) : directory :=
  filter (fun e => negb (endsWith (fst e) ".png")) d.

(** ** The name of an upload *)

(** [s.replace(/\s+/g, '_')]; [in_run] tells that the previous
    character was white space. *)
Fixpoint underscore_whitespace (in_run : bool) (s : string) : string :=
  match s with
  | String c r =>
      if is_whitespace c then
        if in_run then underscore_whitespace true r
        else String "_" (underscore_whitespace true r)
      else String c (underscore_whitespace false r)
  | EmptyString => EmptyString
  end.

(** A character that [[^a-zA-Z0-9_\-\.]] does not match. *)
Definition filename_char (c : ascii) : bool :=
  basename_char c || Ascii.eqb c ".".

(** [s.replace(/[^a-zA-Z0-9_\-\.]/g, '')] *)
Fixpoint keep_filename_chars (s : string) : string :=
  match s with
  | String c r =>
      if filename_char c then String c (keep_filename_chars r) else keep_filename_chars r
  | EmptyString => EmptyString
  end.

(** A path without its trailing slashes. *)
Fixpoint drop_trailing_slashes (s : string) : string :=
  match s with
  | String c r =>
      match drop_trailing_slashes r with
      | EmptyString => if Ascii.eqb c "/" then EmptyString else String c EmptyString
      | r' => String c r'
      end
  | EmptyString => EmptyString
  end.

(** [path.basename(p)] (POSIX): the last segment, trailing slashes
    apart. *)
Definition posix_basename (p : string) : string :=
  last (split "/" (drop_trailing_slashes p)) EmptyString.

(** The multer [filename] callback, with [now] for [Date.now()]. *)
Definition upload_filename (now : Z) (originalname : string) : string :=
  (of_int now ++ "-"
   ++ keep_filename_chars (underscore_whitespace false (posix_basename originalname)))%string.

(** What precedes the last dot of a string, if it has a dot. *)
Fixpoint before_last_dot (s : string) : option string :=
  match s with
  | String c r =>
      match before_last_dot r with
      | Some p => Some (String c p)
      | None => if Ascii.eqb c "." then Some EmptyString else None
      end
  | EmptyString => None
  end.

(** [path.parse(filename).name] on a file name without slash that
    starts with a character other than a dot, as the names of uploads
    do: the name up to its last dot. *)
Definition parse_name (filename : string) : string :=
  match before_last_dot filename with
  | Some name => name
  | None => filename
  end.

(** ** [POST /upload], from the start *)

(** [a === b] on numbers. *)
Definition strict_equal (a b : number) : bool :=
  match a, b with
  | Fin x, Fin y => Qeq_bool x y
  | PosInf, PosInf | NegInf, NegInf => true
  | _, _ => false
  end.

(** The heuristic for [originalSize]. *)
Definition originalSize_of (origW origH : number) : string :=
  if strict_equal (Math_round origW) (of_Z 612) && strict_equal (Math_round origH) (of_Z 792)
  then "letter"
  else if strict_equal (Math_round origW) (of_Z 612)
          && strict_equal (Math_round origH) (of_Z 1008)
  then "legal"
  else if ltb (of_Z 900) origH then "legal" else "letter".

(** The file of a multipart request, as multer sees it. *)
Record uploaded_file : Type := {
  originalname : string;
  mimetype : string
}.

Section Upload.

(** The message of the error [pdfDoc.getPage(0)] throws on a document
    without page. *)
Variable no_page_message : string.

(** The handler of [POST /upload]: [file] is the [pdfFile] part of the
    request if there is one, [pdf] what reading and loading the stored
    file gives, by the sizes of its pages, [resized] how the two calls
    of [resizePDF] settled, and [runs] what the rasterization engine
    does. *)
Definition upload {rv : revision} (now : Z) (file : option uploaded_file)
    (pdf : result (list page_size)) (resized : result unit) (runs : engine_runs rv)
    : upload_response :=
  match file with
  | None => UploadFailure "No file uploaded"
  | Some f =>
      if negb (String.eqb (mimetype f) "application/pdf") then
        UploadFailure "Only PDF files are allowed"
      else
        let baseName := parse_name (upload_filename now (originalname f)) in
        let failure m := UploadFailure (if nonempty m then m else "Conversion failed") in
        match pdf with
        | Throw m => failure m
        | Ok [] => failure no_page_message
        | Ok (firstPage :: rest) =>
            let totalPages := List.length (firstPage :: rest) in
            let originalSize :=
              originalSize_of (size_width firstPage) (size_height firstPage) in
            match resized with
            | Throw m => failure m
            | Ok _ => upload_convert runs baseName totalPages originalSize
            end
        end
  end.

End Upload.

(** ** The ledger endpoints *)

(** A field of a JSON request body. *)
Inductive value : Type :=
| Undefined
| Null
| Bool (b : bool)
| Str (s : string)
| Num (n : number).

(** [!v] is false. *)
Definition truthy (v : value) : bool :=
  match v with
  | Undefined | Null => false
  | Bool b => b
  | Str s => nonempty s
  | Num NaN => false
  | Num (Fin q) => negb (Qeq_bool q 0)
  | Num _ => true
  end.

(** [Number(v)] *)
Definition to_number (v : value) : number :=
  match v with
  | Undefined => NaN
  | Null => of_Z 0
  | Bool b => if b then of_Z 1 else of_Z 0
  | Str s => Number s
  | Num n => n
  end.

(** [list.includes(v)] on a list of string literals. *)
Definition among (allowed : list string) (v : value) : bool :=
  match v with
  | Str s => existsb (String.eqb s) allowed
  | _ => false
  end.

Definition allowedColors : list string := ["bw"; "color"].
Definition allowedSizes : list string := ["letter"; "legal"].
Definition allowedStatuses : list string := ["pending"; "printing"; "completed"; "cancelled"].

(** A character of the class [[0-9,\-\s]]. *)
Definition pages_char (c : ascii) : bool :=
  is_digit c || Ascii.eqb c "," || Ascii.eqb c "-" || is_whitespace c.

Fixpoint all_pages_chars (s : string) : bool :=
  match s with
  | String c r => pages_char c && all_pages_chars r
  | EmptyString => true
  end.

(** [Pages.match(/^[0-9,\-\s]+$/)] is not [null]. *)
Definition pages_pattern (s : string) : bool := nonempty s && all_pages_chars s.

(** The body of [POST /transaction/create]. *)
Record transaction_draft : Type := {
  draft_Date : value;
  draft_Amount : value;
  draft_Color : value;
  draft_Pages : value;
  draft_Copies : value;
  draft_Paper_Size : value;
  draft_File_Path : value;
  draft_File_Size : value;
  draft_Status : value
}.

(** The parameters of the [INSERT] statement. *)
Record transaction_row : Type := {
  row_Date : value;
  row_Amount : number;
  row_Color : string;
  row_Pages : string;
  row_Copies : number;
  row_Paper_Size : string;
  row_File_Path : string;
  row_File_Size : value;
  row_Status : string
}.

Inductive ledger_response : Type :=
| LedgerFailure (message : string)
| LedgerCreated (id : Z)
| LedgerUpdated.

Section Ledger.

(** [!isNaN(new Date(v))]: the date parser of the runtime. *)
Variable date_parses : value -> bool.

(** The validation of [POST /transaction/create]: the row handed to
    the [INSERT] statement, or the message of the refusal. *)
Definition validate_transaction (body : transaction_draft) : result transaction_row :=
  if negb (truthy (draft_Date body)) || negb (date_parses (draft_Date body)) then
    Throw "Invalid date."
  else
    let Amount := to_number (draft_Amount body) in
    let Copies := to_number (draft_Copies body) in
    let Amount := if isNaN Amount || ltb Amount (of_Z 0) then of_Z 0 else Amount in
    if isNaN Copies || ltb Copies (of_Z 1) then Throw "Invalid number of copies."
    else
      match draft_Color body with
      | Str Color =>
          if negb (among allowedColors (Str Color)) then Throw "Invalid color selection."
          else
            match draft_Pages body with
            | Str Pages =>
                if negb (pages_pattern Pages) then Throw "Invalid page selection."
                else
                  match draft_Paper_Size body with
                  | Str Paper_Size =>
                      if negb (among allowedSizes (Str Paper_Size)) then
                        Throw "Invalid paper size."
                      else
                        match draft_File_Path body with
                        | Str File_Path =>
                            if (200 <? String.length File_Path)%nat then
                              Throw "Invalid file path."
                            else
                              let Status :=
                                match draft_Status body with
                                | Str s =>
                                    if among allowedStatuses (Str s) then s else "pending"
                                | _ => "pending"
                                end in
                              Ok {| row_Date := draft_Date body; row_Amount := Amount;
                                    row_Color := Color; row_Pages := Pages;
                                    row_Copies := Copies; row_Paper_Size := Paper_Size;
                                    row_File_Path := File_Path;
                                    row_File_Size := draft_File_Size body;
                                    row_Status := Status |}
                        | _ => Throw "Invalid file path."
                        end
                  | _ => Throw "Invalid paper size."
                  end
            | _ => Throw "Invalid page selection."
            end
      | _ => Throw "Invalid color selection."
      end.

(** [createTx()]: the rowid of the inserted row, or the error of the
    database. *)
Variable insert_row : transaction_row -> result Z.

(** The handler of [POST /transaction/create]. *)
Definition transaction_create (body : transaction_draft) : ledger_response :=
  match validate_transaction body with
  | Throw m => LedgerFailure m
  | Ok row =>
      match insert_row row with
      | Ok id => LedgerCreated id
      | Throw m => LedgerFailure m
      end
  end.

End Ledger.

(** The parameters of the [UPDATE] statement of
    [POST /transaction/update]: [safeAmount], [safeStatus] and [id]. *)
Definition update_parameters (id Amount Status : value) : number * string * value :=
  let safeStatus :=
    match Status with
    | Str s => if among allowedStatuses (Str s) then s else "pending"
    | _ => "pending"
    end in
  let safeAmount := if isNaN (to_number Amount) then of_Z 0 else to_number Amount in
  (safeAmount, safeStatus, id).


End Server.

(* ================================================================== *)
(** * public/cost.js *)
(* ================================================================== *)

Module CostPage.
Import JsString JsNumber Server.

(** A number as [JSON.stringify] and [JSON.parse] carry it: what is
    not finite arrives as [null]. *)
Definition json_number (n : number) : value :=
  match n with
  | Fin q => Num (Fin q)
  | _ => Null
  end.

(** [calculateCost()] once the answer is there: the new value of the
    global [totalCost]. *)
Definition receive_cost (totalCost : value) (answer : cost_response) : value :=
  match answer with
  | CostFailure _ => totalCost
  | CostSuccess total _ _ => json_number total
  end.

(** The global [totalCost] when the page is loaded. *)
Definition initial_totalCost : value := Num (of_Z 0).

(** [payment < totalCost] with [payment = Number(field.value)]. *)
Definition underpaid (payment_field : string) (totalCost : value) : bool :=
  ltb (Number payment_field) (to_number totalCost).

(** The click on the print button: the body of the request sent to
    [/transaction/update], if one is sent. *)
Definition print_click (id : value) (payment_field : string) (totalCost : value)
    : option (value * value * value) :=
  if underpaid payment_field totalCost then None
  else Some (id, totalCost, Str "printing").

(** The click on the cancel button: the body sent to
    [/transaction/update] and the parameter of [/delete-last]. *)
Definition cancel_click (id : value) (baseName : string)
    : (value * value * value) * string :=
  ((id, Num (of_Z 0), Str "cancelled"), baseName).

End CostPage.

(* ================================================================== *)
(** * public/app.js: the proceed button *)
(* ================================================================== *)

Module Checkout.
Import JsString JsNumber App Server.

(** The click on the proceed button up to the request: the body sent
    to [/transaction/create], or the text of the alert.  [now_iso] is
    [new Date().toISOString()] and [copies] the value of the copies
    field. *)
Definition proceed_click (lastUploadedBaseName : string) (ui : ui_state)
    (now_iso copies : string) : result transaction_draft :=
  if negb (nonempty lastUploadedBaseName) then Throw "Upload a PDF first."
  else
    let selectedPages :=
      fst (getSelectedPages (ui_pageMode ui) (ui_pagesInput ui) (ui_totalPages ui)) in
    match selectedPages with
    | [] => Throw "Select pages first."
    | _ :: _ =>
        Ok {| draft_Date := Str now_iso;
              draft_Amount := Num (of_Z 0);
              draft_Color := Str (ui_color ui);
              draft_Pages := Str (pages_field selectedPages);
              draft_Copies := Str copies;
              draft_Paper_Size := Str (ui_paper ui);
              draft_File_Path := Str lastUploadedBaseName;
              draft_File_Size := Str "0";
              draft_Status := Str "pending" |}
    end.

End Checkout.

(* ================================================================== *)
(** * public/app.js: the answer to an upload *)
(* ================================================================== *)

Module UploadForm.
Import JsString JsNumber App Server.

(** The submit handler once the answer of [/upload] is there: the new
    [lastUploadedBaseName] and the controls as [updatePreview] then
    reads them; a failure leaves everything as it was. *)
Definition receive_upload (ui : ui_state) (answer : upload_response)
    : option (string * ui_state) :=
  match answer with
  | UploadFailure _ => None
  | UploadSuccess letter legal totalPages originalSize baseName =>
      Some (baseName,
            {| ui_pageMode := ui_pageMode ui;
               ui_pagesInput := ui_pagesInput ui;
               ui_color := ui_color ui;
               ui_paper := if among ["letter"; "legal"] (Str originalSize)
                           then originalSize else ui_paper ui;
               ui_totalPages := Z.of_nat totalPages;
               ui_letter := letter;
               ui_legal := legal |})
  end.

End UploadForm.

(* ================================================================== *)
(** * Vocabulary of the specification *)
(* ================================================================== *)

(** A non-empty string of decimal digits. *)
Definition numeral (s : string) : Prop :=
  JsString.nonempty s = true /\ JsString.all_digits s = true.

(** The pages a token of a page selection stands for, in the words of
    the specification: a range [a-b] gives every page between its two
    clamped endpoints, whichever is the larger; a single number gives
    that number, clamped; any other token gives nothing. *)
Definition token_covers (totalPages : Z) (part : string) (x : Z) : Prop :=
  (exists a b : string,
      part = (a ++ "-" ++ b)%string /\ numeral a /\ numeral b /\
      let s := App.clamp (JsString.digits_value a) totalPages in
      let e := App.clamp (JsString.digits_value b) totalPages in
      (Z.min s e <= x <= Z.max s e)%Z)
  \/ (numeral part /\ x = App.clamp (JsString.digits_value part) totalPages).

(** The band a row of an image belongs to: bands are [sectionHeight]
    rows high and the twelfth takes every row from its start on. *)
Definition band_of (img : Server.image) (y : nat) : nat :=
  Nat.min (y / Server.sectionHeight img) 11.

(** The three bytes the scanner reads for column [x] of row [y], those
    from [(y * width + x) * 3] on, are not all equal. *)
Definition unequal_at (img : Server.image) (x y : nat) : bool :=
  negb (Server.grey_at (Server.rawBuffer img) ((y * Server.width img + x) * 3)).

(** The scanner reads three unequal bytes for some column of a row of
    band [i]. *)
Definition band_reads_unequal (img : Server.image) (i : nat) : bool :=
  existsb (fun y => (band_of img y =? i)%nat
                    && existsb (fun x => unequal_at img x y) (seq 0 (Server.width img)))
          (seq 0 (Server.height img)).

(** A page of one shade of grey as sharp decodes it: every pixel is
    [v, v, v, 255]; white for [xff], black for [x00]. *)
Definition uniform_page (w h : nat) (v : byte) : Server.image :=
  {| Server.width := w; Server.height := h;
     Server.rawBuffer := List.concat (repeat [v; v; v; "255"%byte] (w * h)) |}.

(** The order of JavaScript numbers other than [NaN]. *)
Definition number_lt (a b : JsNumber.number) : Prop := JsNumber.ltb a b = true.

Definition number_le (a b : JsNumber.number) : Prop :=
  JsNumber.isNaN a = false /\ JsNumber.isNaN b = false /\ JsNumber.ltb b a = false.

(** [a] comes no later than [b] when both are ordered by [key]. *)
Definition key_le {A : Type} (key : A -> JsNumber.number) (a b : A) : Prop :=
  number_le (key a) (key b).

(** The cached names a lookup is about: the listed names that carry
    the basename prefix and whose page index is among the selected
    pages, in listing order. *)
Definition candidates (rv : Server.revision) (baseName : string)
    (selected : list JsNumber.number) (files : list string) : list string :=
  filter (fun f => JsString.startsWith f (baseName ++ Server.separator rv)
                   && JsNumber.array_includes selected (Server.page_index rv baseName f))
         files.

(** The cached files a cost request resolves to. *)
Definition matched_files (rv : Server.revision) (st : Server.store)
    (req : Server.cost_request) : list string :=
  match Server.readdir st (Server.paper req) with
  | Server.Ok d =>
      Server.lookup rv (Server.baseName req)
        (Server.selectedPages (Server.pages req)) (Server.names d)
  | Server.Throw _ => []
  end.

(** The cached images of the partition a cost request names. *)
Definition partition_of (st : Server.store) (req : Server.cost_request)
    : Server.directory :=
  match Server.readdir st (Server.paper req) with
  | Server.Ok d => d
  | Server.Throw _ => []
  end.

(** The used bands of the given files of a directory, added up. *)
Definition scanned_bands (d : Server.directory) (files : list string) : nat :=
  list_sum (map (fun f => match Server.read_file d f with
                          | Some img => Server.scanUsedSections img
                          | None => 0
                          end) files).

(** [round(q)]: the nearest integer, halves upwards. *)
Definition round_half_up (q : Q) : Z := Qfloor (q + (1 # 2))%Q.

(** The quote of the specification: [round((base * pageCount +
    0.5 * usedBands) * copies)]. *)
Definition quote (base : Z) (pageCount usedBands : nat) (copies : Q) : JsNumber.number :=
  JsNumber.of_Z
    (round_half_up ((inject_Z base * inject_Z (Z.of_nat pageCount)
                     + (1 # 2) * inject_Z (Z.of_nat usedBands)) * copies)%Q).

(** The greyscale conversion cannot make the handler of this revision
    fail on this color mode. *)
Definition conversion_safe (greyscale : Server.image -> Server.result Server.image)
    (rv : Server.revision) (color : string) : Prop :=
  rv = Server.Ghostscript \/ color <> "bw"
  \/ forall img, exists grey, greyscale img = Server.Ok grey.

(** A basename as uploads produce it: not empty, and made of letters,
    digits, [_] and [-] only, so that the sanitizer leaves it as it
    is. *)
Definition valid_basename (b : string) : Prop :=
  JsString.nonempty b = true /\ Server.sanitize b = b.

(** A cost request for basename [b]. *)
Definition request_for (b paper color pages copies : string) : Server.cost_request :=
  {| Server.paper := paper; Server.baseName := b; Server.color := color;
     Server.pages := pages; Server.copies := copies |}.

(** The name of the cached image of page [n] of upload [b], as the
    lookup of revision [rv] expects it and as the Ghostscript output
    pattern [<b>_%d.png] writes it. *)
Definition page_file (rv : Server.revision) (b : string) (n : Z) : string :=
  (b ++ Server.separator rv ++ JsString.of_int n ++ ".png")%string.


(** The copies field reads as the whole number [c]. *)
Definition whole_copies (copies : string) (c : Z) : Prop :=
  Server.copies_number copies = JsNumber.of_Z c /\ (0 <= c)%Z.

(** The amounts of a quote for [pageCount] pages and [c] copies are
    whole numbers or halves of at most 2^52: on these the arithmetic of
    doubles is exact, and the quote of the program is the quote in
    exact arithmetic. *)
Definition exact_amounts (pageCount : nat) (c : Z) : Prop :=
  (Z.of_nat pageCount * c <= 2 ^ 48)%Z.

(** The price of a page: 10 in "color" mode, 5 in every other. *)
Definition base_price (color : string) : Z :=
  if String.eqb color "color" then 10%Z else 5%Z.

(** The bands a revision charges for: the first one charges the
    scanned bands in every mode, the second one in "color" mode only. *)
Definition charged_bands (rv : Server.revision) (color : string) (used : nat) : nat :=
  match rv with
  | Server.Pdf2Pic => used
  | Server.Ghostscript => if String.eqb color "color" then used else 0
  end.

(** The engine settled without a fatal error: the command resolved and
    wrote nothing to stderr, or only warnings. *)
Definition non_fatal (run : Server.gs_run) : Prop :=
  exists stdout stderr,
    Server.gs_exec run = Server.ExecResolved stdout stderr
    /\ (JsString.nonempty stderr = false \/ JsString.includes stderr "Warning" = true).

(** The files of the output directory that carry the name of a page of
    [baseName], after the run. *)
Definition outputs (run : Server.gs_run) (baseName : string) : list string :=
  match Server.gs_listing run with
  | Server.Ok files => filter (Server.gs_output baseName) files
  | Server.Throw _ => []
  end.

(** The embedded page is drawn over the whole new page. *)
Definition fills_page (p : Server.new_page) : Prop :=
  Server.drawn_options p
  = {| Server.draw_x := JsNumber.of_Z 0; Server.draw_y := JsNumber.of_Z 0;
       Server.draw_width := Server.new_width p;
       Server.draw_height := Server.new_height p |}.

(** A dimension is usable as a divisor: finite and at least 1. *)
Definition at_least_one (n : JsNumber.number) : Prop :=
  exists q, n = JsNumber.Fin q /\ (1 <= q)%Q.

(** A run of Ghostscript that wrote nothing and complained of nothing. *)
Definition silent_run : Server.gs_run :=
  {| Server.gs_exec := Server.ExecResolved "" "";
     Server.gs_listing := Server.Ok ["other_1.png"; "b_letter.pdf"] |}.

(** ** Sample data *)

(** A page of one column and thirteen rows: a red pixel on top of
    twelve white ones. *)
Definition red_topped_page : Server.image :=
  {| Server.width := 1; Server.height := 13;
     Server.rawBuffer :=
       ["255"; "000"; "000"; "255"]%byte
       ++ List.concat (repeat ["255"; "255"; "255"; "255"]%byte 12) |}.

(** A white page of two columns and twenty-four rows. *)
Definition white_page : Server.image := uniform_page 2 24 "255".

(** That page with its last row in red. *)
Definition red_footed_page : Server.image :=
  {| Server.width := 2; Server.height := 24;
     Server.rawBuffer :=
       List.concat (repeat ["255"; "255"; "255"; "255"]%byte 46)
       ++ List.concat (repeat ["255"; "000"; "000"; "255"]%byte 2) |}.

(** The pages of a letter and of a legal sheet at 72 dots per inch, all
    black. *)
Definition black_letter_page : Server.image := uniform_page 612 792 "000".
Definition black_legal_page : Server.image := uniform_page 612 1008 "000".

(** The white page of a letter sheet at 72 dots per inch. *)
Definition white_letter_page : Server.image := uniform_page 612 792 "255".

(** A cache whose letter partition holds one page of upload [b]. *)
Definition one_page_store (rv : Server.revision) (page : Server.image) : Server.store :=
  {| Server.letterCache := [(page_file rv "b" 1, page)];
     Server.legalCache := []; Server.uploadsDir := [] |}.

(** A cache whose letter partition holds the pages 1, 2 and 5 of upload
    [b] and a page of upload [c], in an order of its own; page 1 of [b]
    is [first], the others are [other]. *)
Definition mixed_store (rv : Server.revision) (first other : Server.image)
    : Server.store :=
  {| Server.letterCache :=
       [(page_file rv "b" 5, other); (page_file rv "c" 1, other);
        (page_file rv "b" 1, first); (page_file rv "b" 2, other)];
     Server.legalCache := []; Server.uploadsDir := [] |}.

(** A cache whose letter partition holds the two pages of upload [b],
    under the names of the given revision. *)
Definition sample_store (rv : Server.revision) : Server.store :=
  {| Server.letterCache :=
       [(("b" ++ Server.separator rv ++ "1.png")%string, red_topped_page);
        (("b" ++ Server.separator rv ++ "2.png")%string, white_page)];
     Server.legalCache := [];
     Server.uploadsDir := ["b_letter.pdf"; "b_legal.pdf"] |}.

Definition sample_request (color pages copies : string) : Server.cost_request :=
  {| Server.paper := "letter"; Server.baseName := "b"; Server.color := color;
     Server.pages := pages; Server.copies := copies |}.

(** A greyscale conversion that always fails. *)
Definition failing_greyscale (img : Server.image) : Server.result Server.image :=
  Server.Throw "Input file contains unsupported image format".

(** ** Vocabulary of the client and the upload *)

(** A string made of digits and dashes only, as the tokens the client
    writes are. *)
Fixpoint digits_or_dashes (s : string) : bool :=
  match s with
  | String c r => (JsString.is_digit c || Ascii.eqb c "-") && digits_or_dashes r
  | EmptyString => true
  end.

(** The image the preview shows for page [num]. *)
Definition image_of_page (images : list string) (colorMode : string) (num : Z)
    : App.preview_image :=
  {| App.img_src := nth (Z.to_nat (num - 1)) images EmptyString;
     App.img_bw := String.eqb colorMode "bw" |}.

(** Every character of [s] satisfies [p]. *)
Fixpoint every_char (p : ascii -> bool) (s : string) : bool :=
  match s with
  | String c r => p c && every_char p r
  | EmptyString => true
  end.

(** A run of Ghostscript that settles silently and leaves the two
    pages of upload [17-a] in the folder. *)
Definition two_page_run : Server.gs_run :=
  {| Server.gs_exec := Server.ExecResolved "" "";
     Server.gs_listing := Server.Ok ["17-a_1.png"; "17-a_2.png"; "notes.txt"] |}.

Definition letter_page : Server.page_size :=
  {| Server.size_width := JsNumber.of_Z 612; Server.size_height := JsNumber.of_Z 792 |}.

(** A request body as the proceed button writes it. *)
Definition sample_draft : Server.transaction_draft :=
  {| Server.draft_Date := Server.Str "2024-05-01T10:00:00.000Z";
     Server.draft_Amount := Server.Num (JsNumber.of_Z 0);
     Server.draft_Color := Server.Str "bw";
     Server.draft_Pages := Server.Str "2,3";
     Server.draft_Copies := Server.Str "2";
     Server.draft_Paper_Size := Server.Str "legal";
     Server.draft_File_Path := Server.Str "17-a";
     Server.draft_File_Size := Server.Str "0";
     Server.draft_Status := Server.Str "pending" |}.

(** The controls after an upload of three pages, with a custom
    selection. *)
Definition sample_ui : App.ui_state :=
  {| App.ui_pageMode := "custom"; App.ui_pagesInput := "3-2, 9";
     App.ui_color := "bw"; App.ui_paper := "legal"; App.ui_totalPages := 3;
     App.ui_letter := ["/cache/letter/17-a_1.png"; "/cache/letter/17-a_2.png";
                       "/cache/letter/17-a_3.png"];
     App.ui_legal := ["/cache/legal/17-a_1.png"; "/cache/legal/17-a_2.png";
                      "/cache/legal/17-a_3.png"] |}.

(** A drawn page is centred between the left and the right edge of its
    new page, and its top edge lies on the top edge of the new page. *)
Definition centred_at_top (p : Server.new_page) : Prop :=
  let o := Server.drawn_options p in
  JsNumber.add (JsNumber.add (Server.draw_x o) (Server.draw_width o)) (Server.draw_x o)
  = Server.new_width p
  /\ JsNumber.add (Server.draw_y o) (Server.draw_height o) = Server.new_height p.

(** The store after an upload of two pages under basename [b], the
    first page with a red pixel on top. *)
Definition two_page_store : Server.store :=
  {| Server.letterCache := [("b_2.png", white_page); ("b_1.png", red_topped_page)];
     Server.legalCache := []; Server.uploadsDir := [] |}.

(** A run whose folder lists the second page before the first. *)
Definition unordered_run : Server.gs_run :=
  {| Server.gs_exec := Server.ExecResolved "" "";
     Server.gs_listing := Server.Ok ["17-a_2.png"; "17-a_1.png"] |}.

(** The controls before any upload. *)
Definition initial_ui : App.ui_state :=
  {| App.ui_pageMode := "all"; App.ui_pagesInput := ""; App.ui_color := "color";
     App.ui_paper := "letter"; App.ui_totalPages := 0;
     App.ui_letter := []; App.ui_legal := [] |}.

(* ================================================================== *)
(** * Facts about the string helpers *)
(* ================================================================== *)

Section StringFacts.
Import JsString.

Lemma digit_not_dash (c : ascii) : is_digit c = true -> Ascii.eqb c "-" = false.
Proof.
  intros Hd. destruct (Ascii.eqb_spec c "-") as [-> | _]; [discriminate Hd | reflexivity].
Qed.

Lemma span_digits_app (a rest : string) :
  all_digits a = true ->
  (match rest with String c _ => is_digit c | EmptyString => false end) = false ->
  span_digits (a ++ rest) = (a, rest).
Proof.
  intros Ha Hrest. induction a as [| c a IH]; simpl in *.
  - destruct rest as [| c r]; simpl in *; [reflexivity | now rewrite Hrest].
  - apply andb_prop in Ha as [Hc Ha]. now rewrite Hc, (IH Ha).
Qed.

Lemma span_digits_spec (s : string) :
  let '(d, rest) := span_digits s in
  s = (d ++ rest)%string /\ all_digits d = true
  /\ (match rest with String c _ => is_digit c | EmptyString => false end) = false.
Proof.
  induction s as [| c s IH]; simpl; [easy |].
  destruct (is_digit c) eqn:Hc.
  - destruct (span_digits s) as [d rest]. destruct IH as (-> & Hd & Hr).
    simpl. now rewrite Hc, Hd.
  - simpl. now rewrite Hc.
Qed.

Lemma split_dash_digits (b : string) :
  all_digits b = true -> split "-" b = [b].
Proof.
  induction b as [| c b IH]; simpl; [reflexivity |].
  intros H. apply andb_prop in H as [Hc Hb].
  now rewrite (digit_not_dash _ Hc), (IH Hb).
Qed.

Lemma split_dash_range (a b : string) :
  all_digits a = true -> all_digits b = true ->
  split "-" (a ++ String "-" b) = [a; b].
Proof.
  intros Ha Hb. induction a as [| c a IH]; simpl.
  - now rewrite (split_dash_digits _ Hb).
  - simpl in Ha. apply andb_prop in Ha as [Hc Ha].
    now rewrite (digit_not_dash _ Hc), (IH Ha).
Qed.

End StringFacts.

(* ================================================================== *)
(** * The page selection parser *)
(* ================================================================== *)

Section PageSelection.
Import JsString App.

Lemma is_range_inv (part : string) :
  is_range part = true ->
  exists a b, part = (a ++ "-" ++ b)%string /\ numeral a /\ numeral b.
Proof.
  unfold is_range. pose proof (span_digits_spec part) as H.
  destruct (span_digits part) as [a rest]. destruct H as (-> & Ha & _).
  intros H. apply andb_prop in H as [Hne H].
  destruct rest as [| c b]; [discriminate |].
  apply andb_prop in H as [H Hb]. apply andb_prop in H as [Hc Hbne].
  apply Ascii.eqb_eq in Hc. subst c.
  exists a, b. repeat split; assumption.
Qed.

Lemma is_range_intro (a b : string) :
  numeral a -> numeral b -> is_range (a ++ "-" ++ b) = true.
Proof.
  intros [Hane Ha] [Hbne Hb]. unfold is_range.
  rewrite (span_digits_app a ("-" ++ b) Ha eq_refl). simpl.
  now rewrite Hane, Hbne, Hb.
Qed.

Lemma range_not_single (a b : string) :
  all_digits (a ++ String "-" b) = false.
Proof.
  induction a as [| c a IH]; simpl; [reflexivity |].
  rewrite IH. apply andb_false_r.
Qed.

Lemma single_not_range (part : string) :
  is_single part = true -> is_range part = false.
Proof.
  intros H. destruct (is_range part) eqn:Hr; [| reflexivity].
  apply is_range_inv in Hr as (a & b & -> & _).
  unfold is_single in H. change (a ++ "-" ++ b)%string with (a ++ String "-" b)%string in H.
  rewrite range_not_single in H.
  now rewrite andb_false_r in H.
Qed.

Lemma range_parts_unique (a b a' b' : string) :
  all_digits a = true -> all_digits a' = true ->
  (a ++ "-" ++ b)%string = (a' ++ "-" ++ b')%string -> a = a' /\ b = b'.
Proof.
  intros Ha Ha' E.
  pose proof (span_digits_app a ("-" ++ b) Ha eq_refl) as H1.
  pose proof (span_digits_app a' ("-" ++ b') Ha' eq_refl) as H2.
  rewrite E in H1. rewrite H1 in H2. now inversion H2.
Qed.

(** ** The [Set] of pages *)

Lemma set_add_In (i x : Z) (pages : list Z) :
  In x (set_add i pages) <-> In x pages \/ x = i.
Proof.
  unfold set_add. destruct (existsb (Z.eqb i) pages) eqn:E.
  - apply existsb_exists in E as (y & Hy & Heq). apply Z.eqb_eq in Heq. subst y.
    split; [auto | intros [H | ->]; assumption].
  - rewrite in_app_iff. simpl. intuition.
Qed.

Lemma set_add_NoDup (i : Z) (pages : list Z) :
  NoDup pages -> NoDup (set_add i pages).
Proof.
  intros H. unfold set_add. destruct (existsb (Z.eqb i) pages) eqn:E; [assumption |].
  apply NoDup_rev in H. rewrite <- (rev_involutive (pages ++ [i])).
  apply NoDup_rev. rewrite rev_app_distr. simpl. constructor; [| assumption].
  rewrite <- in_rev. intros Hin.
  assert (existsb (Z.eqb i) pages = true) as E'
    by (apply existsb_exists; exists i; split; [assumption | apply Z.eqb_refl]).
  congruence.
Qed.

Lemma add_from_In (count : nat) (i x : Z) (pages : list Z) :
  In x (add_from i count pages) <-> In x pages \/ (i <= x < i + Z.of_nat count)%Z.
Proof.
  revert i pages. induction count as [| k IH]; intros i pages; simpl add_from.
  - split; [auto | intros [H | H]; [assumption | lia]].
  - rewrite IH, set_add_In. split; intros H.
    + destruct H as [[H | ->] | H]; [auto | right; lia | right; lia].
    + destruct H as [H | H]; [auto |].
      destruct (Z.eq_dec x i) as [-> | Hne]; [auto | right; lia].
Qed.

Lemma add_from_NoDup (count : nat) (i : Z) (pages : list Z) :
  NoDup pages -> NoDup (add_from i count pages).
Proof.
  revert i pages. induction count as [| k IH]; intros i pages H; simpl; [assumption |].
  apply IH, set_add_NoDup, H.
Qed.

Lemma add_range_In (s e x : Z) (pages : list Z) :
  In x (add_range s e pages) <-> In x pages \/ (s <= x <= e)%Z.
Proof.
  unfold add_range. rewrite add_from_In. split; (intros [H | H]; [auto | right; lia]).
Qed.

(** ** One token *)

Lemma step_In (N : Z) (pages : list Z) (parts : list string) (part : string) (x : Z) :
  In x (fst (step N (pages, parts) part)) <-> In x pages \/ token_covers N part x.
Proof.
  unfold step. destruct (is_range part) eqn:Hr.
  - destruct (is_range_inv _ Hr) as (a & b & -> & Ha & Hb).
    change (a ++ "-" ++ b)%string with (a ++ String "-" b)%string.
    rewrite (split_dash_range a b (proj2 Ha) (proj2 Hb)). simpl map. cbv iota.
    set (s := clamp (digits_value a) N). set (e := clamp (digits_value b) N).
    assert (In x (add_range (Z.min s e) (Z.max s e) pages)
            <-> In x pages \/ token_covers N (a ++ String "-" b) x) as Hgoal.
    { rewrite add_range_In. split; (intros [H | H]; [now left | right]).
      - left. exists a, b. repeat split; try apply Ha; try apply Hb; apply H.
      - destruct H as [(a' & b' & E & Ha' & Hb' & H) | [[_ Hd] _]].
        + apply (range_parts_unique a b a' b' (proj2 Ha) (proj2 Ha')) in E as [<- <-].
          exact H.
        + now rewrite range_not_single in Hd. }
    destruct (Z.gtb_spec s e) as [Hgt | Hle]; simpl fst.
    + rewrite Z.min_r, Z.max_l in Hgoal by lia. exact Hgoal.
    + rewrite Z.min_l, Z.max_r in Hgoal by lia. exact Hgoal.
  - destruct (is_single part) eqn:Hs; simpl fst.
    + rewrite set_add_In. split; (intros [H | H]; [now left | right]).
      * right. split; [| assumption]. unfold is_single in Hs.
        apply andb_prop in Hs. exact Hs.
      * destruct H as [(a & b & -> & Ha & Hb & _) | [_ H]]; [| assumption].
        rewrite (is_range_intro a b Ha Hb) in Hr. discriminate.
    + split; [now left |]. intros [H | H]; [assumption |].
      destruct H as [(a & b & -> & Ha & Hb & _) | [[Hne Hd] _]].
      * rewrite (is_range_intro a b Ha Hb) in Hr. discriminate.
      * unfold is_single in Hs. rewrite Hne, Hd in Hs. discriminate.
Qed.

Lemma step_NoDup (N : Z) (st : loop_state) (part : string) :
  NoDup (fst st) -> NoDup (fst (step N st part)).
Proof.
  destruct st as [pages parts]. intros H. unfold step.
  destruct (is_range part).
  - destruct (map digits_value (split "-" part)) as [| s [| e l]]; try exact H.
    destruct (clamp s N >? clamp e N)%Z; simpl; apply add_from_NoDup, H.
  - destruct (is_single part); simpl; [apply set_add_NoDup |]; exact H.
Qed.

(** ** The loop over the tokens *)

Lemma loop_In (N : Z) (ranges : list string) (st : loop_state) (x : Z) :
  In x (fst (fold_left (step N) ranges st))
  <-> In x (fst st) \/ exists part, In part ranges /\ token_covers N part x.
Proof.
  revert st. induction ranges as [| part ranges IH]; intros st; simpl.
  - split; [auto | intros [H | (p & [] & _)]; assumption].
  - rewrite IH. destruct st as [pages parts]. rewrite step_In. simpl fst.
    split; intros H.
    + destruct H as [[H | H] | (p & Hp & H)]; [auto | right | right].
      * exists part. auto.
      * exists p. auto.
    + destruct H as [H | (p & [<- | Hp] & H)]; [auto | auto |].
      right. exists p. auto.
Qed.

Lemma loop_NoDup (N : Z) (ranges : list string) (st : loop_state) :
  NoDup (fst st) -> NoDup (fst (fold_left (step N) ranges st)).
Proof.
  revert st. induction ranges as [| part ranges IH]; intros st H; simpl; [assumption |].
  apply IH, step_NoDup, H.
Qed.

Lemma token_covers_bounds (N : Z) (part : string) (x : Z) :
  (1 <= N)%Z -> token_covers N part x -> (1 <= x <= N)%Z.
Proof.
  unfold token_covers, clamp. intros HN [(a & b & _ & _ & _ & H) | [_ ->]]; lia.
Qed.

Lemma parse_fst (input : string) (N : Z) (v : string) :
  fst (parsePageSelection input N v)
  = fst (fold_left (step N) (map trim (split "," input)) ([], [])).
Proof.
  unfold parsePageSelection. destruct input as [| c r]; simpl negb; cbv iota.
  - reflexivity.
  - destruct (fold_left (step N) (map trim (split "," (String c r))) ([], [])).
    reflexivity.
Qed.

End PageSelection.

Example parse_5_2 : App.parsePageSelection "5-2" 10 "5-2" = ([2; 3; 4; 5]%Z, "2-5").
Proof. reflexivity. Qed.

Example parse_0_99 : App.parsePageSelection "0,99" 10 "" = ([1; 10]%Z, "1, 10").
Proof. reflexivity. Qed.

Example parse_mixed :
  App.parsePageSelection "1-3, 5, 9-7, x, 2" 8 "" = ([1; 2; 3; 5; 7; 8]%Z, "1-3, 5, 7-8, 2").
Proof. reflexivity. Qed.

(** C2.  For every total page count N >= 1 and every spec string, the
    page-selection parser returns a duplicate-free list of integers that
    all lie in [1, N]; a page is in the result exactly when one of the
    comma-separated, trimmed tokens covers it, where a range token a-b
    covers the pages between its two clamped endpoints (swapped when
    they come out in decreasing order), a single-number token covers its
    clamped value and any other token covers nothing.  "5-2" with N = 10
    gives 2,3,4,5 and writes "2-5" back; "0,99" with N = 10 gives
    1 and 10. *)
Theorem parsePageSelection_set (input : string) (N : Z) (shown : string) :
  (1 <= N)%Z ->
  let pages := fst (App.parsePageSelection input N shown) in
  NoDup pages
  /\ (forall x, In x pages -> (1 <= x <= N)%Z)
  /\ (forall x, In x pages <->
        exists part, In part (map JsString.trim (JsString.split "," input))
                     /\ token_covers N part x)
  /\ App.parsePageSelection "5-2" 10 shown = ([2; 3; 4; 5]%Z, "2-5")
  /\ fst (App.parsePageSelection "0,99" 10 shown) = [1; 10]%Z.
Proof.
  intros HN pages. subst pages. rewrite parse_fst.
  assert (forall x, In x (fst (fold_left (App.step N)
            (map JsString.trim (JsString.split "," input)) ([], []))) <->
        exists part, In part (map JsString.trim (JsString.split "," input))
                     /\ token_covers N part x) as Hin.
  { intros x. rewrite loop_In. simpl. tauto. }
  split; [apply loop_NoDup; constructor |].
  split; [| split; [exact Hin | split; reflexivity]].
  intros x Hx. apply Hin in Hx as (part & _ & Hc).
  exact (token_covers_bounds N part x HN Hc).
Qed.

Lemma parsePageSelection_set_witness :
  (1 <= 8)%Z /\
  NoDup (fst (App.parsePageSelection "1-3, 5, 9-7, x, 2" 8 "")).
Proof.
  split; [lia |].
  exact (proj1 (parsePageSelection_set "1-3, 5, 9-7, x, 2" 8 "" ltac:(lia))).
Defined.

(* ================================================================== *)
(** * The ink-usage scanner *)
(* ================================================================== *)

Section Scanner.
Import Server.

Lemma scan_row_true (buf : list byte) (row x todo : nat) :
  scan_row buf row x todo = true
  <-> exists x', x <= x' < x + todo /\ grey_at buf (row + x' * 3) = false.
Proof.
  revert x. induction todo as [| k IH]; intros x; simpl.
  - split; [discriminate | intros (x' & H & _); lia].
  - destruct (grey_at buf (row + x * 3)) eqn:G; simpl.
    + rewrite IH. split; intros (x' & H & Hx).
      * exists x'. split; [lia | assumption].
      * exists x'. split; [| assumption].
        destruct (Nat.eq_dec x' x) as [-> | Hne]; [congruence | lia].
    + split; [intros _ | reflexivity]. exists x. split; [lia | assumption].
Qed.

Lemma scan_rows_used (img : image) (y todo : nat) :
  scan_rows img y todo true = true.
Proof. destruct todo; reflexivity. Qed.

Lemma scan_rows_true (img : image) (y todo : nat) :
  scan_rows img y todo false = true
  <-> exists y' x, y <= y' < y + todo /\ x < width img /\ unequal_at img x y' = true.
Proof.
  revert y. induction todo as [| k IH]; intros y; simpl.
  - split; [discriminate | intros (y' & x & H & _); lia].
  - destruct (scan_row (rawBuffer img) (y * width img * 3) 0 (width img)) eqn:R.
    + rewrite scan_rows_used. split; [intros _ | reflexivity].
      apply scan_row_true in R as (x & Hx & G).
      exists y, x. split; [lia |]. split; [lia |].
      unfold unequal_at. replace ((y * width img + x) * 3) with (y * width img * 3 + x * 3) by lia.
      now rewrite G.
    + rewrite IH. split; intros (y' & x & Hy & Hx & C).
      * exists y', x. split; [lia | auto].
      * exists y', x. split; [| auto].
        destruct (Nat.eq_dec y' y) as [-> | Hne]; [| lia].
        exfalso. assert (scan_row (rawBuffer img) (y * width img * 3) 0 (width img) = true) as R'.
        { apply scan_row_true. exists x. split; [lia |].
          unfold unequal_at in C. apply negb_true_iff in C.
          now replace ((y * width img + x) * 3) with (y * width img * 3 + x * 3) in C by lia. }
        congruence.
Qed.

Lemma scan_bands_count (img : image) (sh i todo total : nat) :
  scan_bands img sh i todo total
  = total + List.length (filter (band_used img sh) (seq i todo)).
Proof.
  revert i total. induction todo as [| k IH]; intros i total; simpl; [lia |].
  rewrite IH. replace (i + 1) with (S i) by lia.
  destruct (band_used img sh i); simpl; lia.
Qed.

Lemma sectionHeight_pos (img : image) : 1 <= sectionHeight img.
Proof. unfold sectionHeight. lia. Qed.

Lemma sectionHeight_fits (img : image) :
  12 <= height img -> 12 * sectionHeight img <= height img.
Proof.
  intros H. unfold sectionHeight.
  pose proof (Nat.div_mod_eq (height img) 12).
  assert (1 <= height img / 12) by (apply Nat.div_le_lower_bound; lia).
  lia.
Qed.

Lemma band_rows (img : image) (i y : nat) :
  i < 12 -> y < height img ->
  (yStart (sectionHeight img) i <= y < yEnd img (sectionHeight img) i
   <-> band_of img y = i).
Proof.
  intros Hi Hy. pose proof (sectionHeight_pos img) as Hpos.
  unfold yStart, yEnd, band_of. set (sh := sectionHeight img) in *.
  pose proof (Nat.div_mod_eq y sh) as Hdm.
  pose proof (Nat.mod_upper_bound y sh ltac:(lia)) as Hmod.
  destruct (Nat.eqb_spec i 11) as [-> | Hne].
  - split; intros H.
    + assert (11 <= y / sh) by (apply Nat.div_le_lower_bound; lia). lia.
    + assert (11 <= y / sh) as Hq by lia. split; [nia | assumption].
  - split; intros H.
    + assert (y / sh = i) as ->; [| lia].
      symmetry. apply Nat.div_unique with (r := y - i * sh); lia.
    + assert (y / sh = i) as Hq by lia. nia.
Qed.

(** On a page of at least 12 rows the rows of the bands are rows of
    the page. *)
Lemma band_inside (img : image) (i y : nat) :
  12 <= height img -> i < 12 ->
  yStart (sectionHeight img) i <= y < yEnd img (sectionHeight img) i ->
  y < height img.
Proof.
  intros H12 Hi Hy. pose proof (sectionHeight_fits img H12) as Hfit.
  unfold yStart, yEnd in Hy.
  destruct (Nat.eqb_spec i 11) as [-> | Hne]; [lia | nia].
Qed.

Lemma band_reads_unequal_true (img : image) (i : nat) :
  band_reads_unequal img i = true
  <-> exists x y, x < width img /\ y < height img
                  /\ unequal_at img x y = true /\ band_of img y = i.
Proof.
  unfold band_reads_unequal. rewrite existsb_exists. split.
  - intros (y & Hy & H). apply in_seq in Hy. apply andb_true_iff in H as [Hb Hx].
    apply Nat.eqb_eq in Hb. apply existsb_exists in Hx as (x & Hx & C).
    apply in_seq in Hx. exists x, y. repeat split; [lia | lia | assumption | assumption].
  - intros (x & y & Hx & Hy & C & Hb). exists y. split; [apply in_seq; lia |].
    apply andb_true_iff. split; [now apply Nat.eqb_eq |].
    apply existsb_exists. exists x. split; [apply in_seq; lia | assumption].
Qed.

Lemma band_used_spec (img : image) (i : nat) :
  12 <= height img -> i < 12 ->
  band_used img (sectionHeight img) i = band_reads_unequal img i.
Proof.
  intros H12 Hi. apply eq_true_iff_eq. unfold band_used.
  rewrite scan_rows_true, band_reads_unequal_true. split.
  - intros (y & x & Hy & Hx & C).
    assert (yStart (sectionHeight img) i <= y < yEnd img (sectionHeight img) i)
      as Hrange by lia.
    pose proof (band_inside img i y H12 Hi Hrange) as Hin.
    exists x, y. repeat split; try assumption. now apply band_rows.
  - intros (x & y & Hx & Hy & C & Hb). exists y, x.
    apply (band_rows img i y Hi Hy) in Hb. split; [lia | now split].
Qed.

Lemma filter_ext_seq (f g : nat -> bool) (start len : nat) :
  (forall i, start <= i < start + len -> f i = g i) ->
  filter f (seq start len) = filter g (seq start len).
Proof.
  intros H. apply filter_ext_in. intros i Hi. apply in_seq in Hi. now apply H.
Qed.

Lemma scanUsedSections_count (img : image) :
  12 <= height img ->
  scanUsedSections img = List.length (filter (band_reads_unequal img) (seq 0 12)).
Proof.
  intros H12. unfold scanUsedSections. rewrite scan_bands_count.
  rewrite (filter_ext_seq _ (band_reads_unequal img)); [reflexivity |].
  intros i Hi. apply band_used_spec; [assumption | lia].
Qed.

Lemma scanUsedSections_le_12 (img : image) : scanUsedSections img <= 12.
Proof.
  unfold scanUsedSections. rewrite scan_bands_count.
  pose proof (filter_length_le (band_used img (sectionHeight img)) (seq 0 12)) as H.
  rewrite length_seq in H. lia.
Qed.

Lemma filter_none {A : Type} (f : A -> bool) (l : list A) :
  (forall a, In a l -> f a = false) -> filter f l = [].
Proof.
  induction l as [| a l IH]; intros H; simpl; [reflexivity |].
  rewrite (H a (or_introl eq_refl)). apply IH. intros b Hb. apply H. now right.
Qed.

Lemma filter_all {A : Type} (f : A -> bool) (l : list A) :
  (forall a, In a l -> f a = true) -> filter f l = l.
Proof.
  induction l as [| a l IH]; intros H; simpl; [reflexivity |].
  rewrite (H a (or_introl eq_refl)). f_equal. apply IH. intros b Hb. apply H. now right.
Qed.

Lemma scanUsedSections_zero (img : image) :
  12 <= height img ->
  (scanUsedSections img = 0
   <-> forall x y, x < width img -> y < height img -> unequal_at img x y = false).
Proof.
  intros H12. rewrite (scanUsedSections_count img H12). split.
  - intros Hzero x y Hx Hy. destruct (unequal_at img x y) eqn:C; [| reflexivity].
    exfalso. apply length_zero_iff_nil in Hzero.
    assert (In (band_of img y) (filter (band_reads_unequal img) (seq 0 12))) as Hin.
    { apply filter_In. split.
      - apply in_seq. unfold band_of. lia.
      - apply band_reads_unequal_true. exists x, y. tauto. }
    now rewrite Hzero in Hin.
  - intros Hgrey. rewrite filter_none; [reflexivity |].
    intros i _. destruct (band_reads_unequal img i) eqn:E; [| reflexivity].
    apply band_reads_unequal_true in E as (x & y & Hx & Hy & C & _).
    now rewrite Hgrey in C.
Qed.

(** ** Pages of one shade *)

Lemma byte_eqb_refl (v : byte) : Byte.eqb v v = true.
Proof. now apply Byte.byte_dec_lb. Qed.

Lemma byte_eqb_neq (u v : byte) : u <> v -> Byte.eqb u v = false.
Proof.
  intros H. destruct (Byte.eqb u v) eqn:E; [| reflexivity].
  apply Byte.byte_dec_bl in E. contradiction.
Qed.

(** Byte [r] of pixel [q]. *)
Lemma nth_error_uniform (v : byte) (n q r : nat) :
  q < n -> r < 4 ->
  nth_error (List.concat (repeat [v; v; v; "255"%byte] n)) (4 * q + r)
  = Some (if (r =? 3)%nat then "255"%byte else v).
Proof.
  revert q. induction n as [| n IH]; intros q Hq Hr; [lia |].
  cbn [repeat List.concat app]. destruct q as [| q].
  - change (4 * 0 + r) with r.
    destruct r as [| [| [| [| r]]]]; try reflexivity. lia.
  - replace (4 * S q + r) with (S (S (S (S (4 * q + r))))) by lia.
    cbn [nth_error]. apply IH; lia.
Qed.

(** What the scanner makes of the pixel it takes for number
    [4 * j + t]: its three bytes straddle two pixels unless [t] is 0. *)
Lemma unequal_at_uniform (w h : nat) (v : byte) (x y j t : nat) :
  y * w + x = 4 * j + t -> t < 4 -> y * w + x < w * h ->
  unequal_at (uniform_page w h v) x y
  = negb (Byte.eqb v "255") && negb (t =? 0)%nat.
Proof.
  intros Hk Ht Hin. unfold unequal_at, grey_at, uniform_page.
  cbn [rawBuffer width]. rewrite Hk.
  assert (Byte.eqb "255" v = Byte.eqb v "255") as Hsym.
  { destruct (Byte.byte_eq_dec v "255") as [-> | Hne]; [reflexivity |].
    rewrite !byte_eqb_neq; congruence. }
  destruct t as [| [| [| [| t]]]]; [| | | | lia].
  - replace ((4 * j + 0) * 3) with (4 * (3 * j) + 0) by lia.
    replace (4 * (3 * j) + 0 + 1) with (4 * (3 * j) + 1) by lia.
    replace (4 * (3 * j) + 0 + 2) with (4 * (3 * j) + 2) by lia.
    rewrite !nth_error_uniform by lia. cbn [Nat.eqb strict_eq negb].
    now rewrite byte_eqb_refl, andb_false_r.
  - replace ((4 * j + 1) * 3) with (4 * (3 * j) + 3) by lia.
    replace (4 * (3 * j) + 3 + 1) with (4 * (3 * j + 1) + 0) by lia.
    replace (4 * (3 * j) + 3 + 2) with (4 * (3 * j + 1) + 1) by lia.
    rewrite !nth_error_uniform by lia. cbn [Nat.eqb strict_eq negb].
    now rewrite byte_eqb_refl, Hsym, andb_true_r, andb_true_r.
  - replace ((4 * j + 2) * 3) with (4 * (3 * j + 1) + 2) by lia.
    replace (4 * (3 * j + 1) + 2 + 1) with (4 * (3 * j + 1) + 3) by lia.
    replace (4 * (3 * j + 1) + 2 + 2) with (4 * (3 * j + 2) + 0) by lia.
    rewrite !nth_error_uniform by lia. cbn [Nat.eqb strict_eq negb].
    rewrite Hsym, andb_true_r. now destruct (Byte.eqb v "255").
  - replace ((4 * j + 3) * 3) with (4 * (3 * j + 2) + 1) by lia.
    replace (4 * (3 * j + 2) + 1 + 1) with (4 * (3 * j + 2) + 2) by lia.
    replace (4 * (3 * j + 2) + 1 + 2) with (4 * (3 * j + 2) + 3) by lia.
    rewrite !nth_error_uniform by lia. cbn [Nat.eqb strict_eq negb].
    now rewrite byte_eqb_refl, andb_true_r.
Qed.

Lemma pixel_inside (w h x y : nat) : x < w -> y < h -> y * w + x < w * h.
Proof. intros Hx Hy. nia. Qed.

Lemma scan_white_page (w h : nat) :
  12 <= h -> scanUsedSections (uniform_page w h "255") = 0.
Proof.
  intros H12. apply scanUsedSections_zero; [exact H12 |].
  cbn [width height uniform_page]. intros x y Hx Hy.
  pose proof (Nat.div_mod_eq (y * w + x) 4) as Hk.
  pose proof (Nat.mod_upper_bound (y * w + x) 4 ltac:(lia)) as Ht.
  rewrite (unequal_at_uniform w h "255" x y _ _ Hk Ht (pixel_inside w h x y Hx Hy)).
  reflexivity.
Qed.

Lemma scan_dark_page (w h : nat) (v : byte) :
  2 <= w -> 12 <= h -> v <> "255"%byte -> scanUsedSections (uniform_page w h v) = 12.
Proof.
  intros Hw H12 Hv. rewrite scanUsedSections_count by exact H12.
  rewrite filter_all; [apply length_seq |].
  intros i Hi. apply in_seq in Hi. apply band_reads_unequal_true.
  cbn [width height uniform_page].
  set (img := uniform_page w h v).
  pose proof (sectionHeight_fits img H12) as Hfit.
  pose proof (sectionHeight_pos img) as Hpos.
  set (y := i * sectionHeight img).
  assert (y < h) as Hy by (unfold y; cbn [height img uniform_page] in Hfit; nia).
  assert (band_of img y = i) as Hband.
  { unfold band_of, y. rewrite Nat.div_mul by lia. lia. }
  pose proof (Nat.div_mod_eq (y * w) 4) as Hk.
  pose proof (Nat.mod_upper_bound (y * w) 4 ltac:(lia)) as Ht.
  destruct ((y * w) mod 4) as [| t] eqn:E.
  - exists 1, y. split; [lia |]. split; [exact Hy |]. split; [| exact Hband].
    unfold img at 1.
    rewrite (unequal_at_uniform w h v 1 y ((y * w) / 4) 1) by (try apply pixel_inside; lia).
    now rewrite (byte_eqb_neq v "255" Hv).
  - exists 0, y. split; [lia |]. split; [exact Hy |]. split; [| exact Hband].
    unfold img at 1.
    rewrite (unequal_at_uniform w h v 0 y ((y * w) / 4) (S t))
      by (try apply pixel_inside; lia).
    now rewrite (byte_eqb_neq v "255" Hv).
Qed.

(** ** What the scanner reads *)

Lemma nth_error_firstn_lt {A : Type} (l : list A) (n p : nat) :
  p < n -> nth_error (firstn n l) p = nth_error l p.
Proof.
  revert n p. induction l as [| a l IH]; intros [| n] [| p] H; simpl;
    try reflexivity; try lia.
  apply IH. lia.
Qed.

Lemma grey_at_firstn (buf : list byte) (n idx : nat) :
  idx + 2 < n -> grey_at (firstn n buf) idx = grey_at buf idx.
Proof.
  intros H. unfold grey_at. now rewrite !nth_error_firstn_lt by lia.
Qed.

End Scanner.

(** C7 on the code.  The scanner reads the raw buffer three bytes to
    the pixel, as its comments say of an RGB buffer, while the buffer it
    receives holds four: the red, green and blue bytes and an alpha byte
    of 255.  The three bytes it compares therefore straddle two pixels
    for three pixels out of four, and a pixel of any shade of grey other
    than white is taken for a colored one.  On every uniformly grey page
    of at least 2 columns and 12 rows that is not white, an all-black
    one included, the scanner counts 12 used bands, where the claim has
    0; only the white page gives 0.  Letter and legal pages at 72 dots
    per inch, 612 by 792 and 612 by 1008 pixels, are among them.  The
    count is at most 12 on every image. *)
Theorem scanUsedSections_counts_black_as_ink :
  (forall img, Server.scanUsedSections img <= 12)
  /\ (forall w h v, 2 <= w -> 12 <= h -> v <> "255"%byte ->
     Server.scanUsedSections (uniform_page w h v) = 12)
  /\ (forall w h, 12 <= h -> Server.scanUsedSections (uniform_page w h "255") = 0)
  /\ Server.scanUsedSections black_letter_page = 12
  /\ Server.scanUsedSections black_legal_page = 12.
Proof.
  split; [exact scanUsedSections_le_12 |].
  split; [exact scan_dark_page |]. split; [exact scan_white_page |].
  split; apply scan_dark_page; try lia; discriminate.
Qed.

(* ================================================================== *)
(** * Facts about numbers and sorting *)
(* ================================================================== *)

Section NumberFacts.
Import JsNumber.

Lemma Qlt_bool_iff (x y : Q) : Qlt_bool x y = true <-> (x < y)%Q.
Proof.
  unfold Qlt_bool. rewrite negb_true_iff. split; intros H.
  - apply Qnot_le_lt. intros Hle. apply Qle_bool_iff in Hle. congruence.
  - destruct (Qle_bool y x) eqn:E; [| reflexivity].
    apply Qle_bool_iff in E. exfalso. exact (Qlt_not_le _ _ H E).
Qed.

Lemma Qlt_bool_false_iff (x y : Q) : Qlt_bool x y = false <-> (y <= x)%Q.
Proof.
  unfold Qlt_bool. rewrite negb_false_iff. apply Qle_bool_iff.
Qed.

Lemma fin_eq (p q : Q) : (p == q)%Q -> fin p = fin q.
Proof. intros H. unfold fin. f_equal. now apply Qred_complete. Qed.

(** The sign test the sort makes on [a - b] is the comparison
    [b < a]. *)
Lemma positive_sub (a b : number) : positive (sub a b) = ltb b a.
Proof.
  destruct a as [| x | |], b as [| y | |]; try reflexivity.
  unfold positive, sub, neg, add, of_Z, fin, ltb.
  apply eq_true_iff_eq. rewrite !Qlt_bool_iff.
  rewrite !Qred_correct. unfold inject_Z. lra.
Qed.

Lemma ltb_asym (a b : number) : ltb a b = true -> ltb b a = false.
Proof.
  destruct a as [| x | |], b as [| y | |]; simpl; try reflexivity; try discriminate.
  rewrite Qlt_bool_iff, Qlt_bool_false_iff. apply Qlt_le_weak.
Qed.

Lemma number_le_trans (a b c : number) :
  number_le a b -> number_le b c -> number_le a c.
Proof.
  unfold number_le. intros (Ha & Hb & Hab) (_ & Hc & Hbc).
  repeat split; try assumption.
  destruct a as [| x | |], b as [| y | |], c as [| z | |];
    simpl in *; try reflexivity; try discriminate.
  rewrite Qlt_bool_false_iff in *. eapply Qle_trans; eassumption.
Qed.

Lemma number_le_total (a b : number) :
  isNaN a = false -> isNaN b = false -> ltb b a = true \/ number_le a b.
Proof.
  intros Ha Hb. unfold number_le.
  destruct (ltb b a) eqn:E; [now left | right; auto].
Qed.


Lemma number_lt_irrefl (a : number) : ~ number_lt a a.
Proof.
  unfold number_lt. intros H. pose proof (ltb_asym a a H). congruence.
Qed.

Section SortFacts.
Context {A : Type} (key : A -> number).

Let compare (a b : A) : number := sub (key a) (key b).

Lemma insert_perm (x : A) (l : list A) :
  Permutation (insert compare x l) (x :: l).
Proof.
  induction l as [| y l IH]; simpl; [reflexivity |].
  destruct (positive (compare x y)); [| reflexivity].
  rewrite IH. apply perm_swap.
Qed.

Lemma sort_perm (l : list A) : Permutation (sort compare l) l.
Proof.
  induction l as [| x l IH]; simpl; [reflexivity |].
  rewrite insert_perm. now constructor.
Qed.

Lemma insert_sorted (x : A) (l : list A) :
  isNaN (key x) = false -> Forall (fun y => isNaN (key y) = false) l ->
  StronglySorted (key_le key) l -> StronglySorted (key_le key) (insert compare x l).
Proof.
  intros Hx Hl Hs. induction Hs as [| y l Hs IH Hy]; simpl.
  - repeat constructor.
  - inversion Hl as [| ? ? Hyn Hl']; subst.
    unfold compare at 1. rewrite positive_sub.
    destruct (ltb (key y) (key x)) eqn:E.
    + constructor; [apply IH, Hl' |].
      apply (Permutation_Forall (Permutation_sym (insert_perm x l))).
      constructor; [| assumption].
      unfold key_le, number_le. auto using ltb_asym.
    + assert (key_le key x y) as Hxy by (unfold key_le, number_le; auto).
      constructor; [now constructor |].
      constructor; [assumption |].
      eapply Forall_impl; [| exact Hy]. intros z Hz.
      exact (number_le_trans _ _ _ Hxy Hz).
Qed.

Lemma sort_sorted (l : list A) :
  Forall (fun y => isNaN (key y) = false) l ->
  StronglySorted (key_le key) (sort compare l).
Proof.
  induction l as [| x l IH]; intros H; simpl; [constructor |].
  inversion H; subst. apply insert_sorted; auto.
  apply (Permutation_Forall (Permutation_sym (sort_perm l))). assumption.
Qed.

End SortFacts.

End NumberFacts.

(* ================================================================== *)
(** * The cache lookup of the cost endpoint *)
(* ================================================================== *)

Section Lookup.
Import JsString JsNumber Server.


Lemma array_includes_not_NaN (selected : list number) (n : number) :
  Forall (fun m => isNaN m = false) selected ->
  array_includes selected n = true -> isNaN n = false.
Proof.
  intros Hsel H. apply existsb_exists in H as (m & Hm & E).
  rewrite Forall_forall in Hsel. specialize (Hsel m Hm).
  destruct m, n; simpl in *; congruence.
Qed.

Lemma filter_filter {A : Type} (p q : A -> bool) (l : list A) :
  filter p (filter q l) = filter (fun a => q a && p a) l.
Proof.
  induction l as [| a l IH]; simpl; [reflexivity |].
  destruct (q a); simpl; [destruct (p a) |]; now rewrite IH.
Qed.

Lemma lookup_perm (rv : revision) (baseName : string) (selected : list number)
    (files : list string) :
  Permutation (lookup rv baseName selected files)
              (candidates rv baseName selected files).
Proof.
  unfold lookup, candidates. rewrite filter_filter.
  apply (sort_perm (page_index rv baseName)).
Qed.

Lemma lookup_In (rv : revision) (baseName : string) (selected : list number)
    (files : list string) (f : string) :
  In f (lookup rv baseName selected files)
  <-> In f files /\ startsWith f (baseName ++ separator rv) = true
      /\ array_includes selected (page_index rv baseName f) = true.
Proof.
  split.
  - intros H. apply (Permutation_in _ (lookup_perm _ _ _ _)) in H.
    apply filter_In in H as [H1 H2]. apply andb_true_iff in H2. tauto.
  - intros (H1 & H2 & H3).
    apply (Permutation_in _ (Permutation_sym (lookup_perm _ _ _ _))).
    apply filter_In. split; [assumption | now rewrite H2, H3].
Qed.

Lemma lookup_sorted_le (rv : revision) (baseName : string) (selected : list number)
    (files : list string) :
  Forall (fun m => isNaN m = false) selected ->
  StronglySorted (key_le (page_index rv baseName))
                 (lookup rv baseName selected files).
Proof.
  intros Hsel. unfold lookup. apply sort_sorted.
  apply Forall_forall. intros f Hf. apply filter_In in Hf as [_ Hf].
  exact (array_includes_not_NaN selected _ Hsel Hf).
Qed.


Lemma lookup_NoDup (rv : revision) (baseName : string) (selected : list number)
    (files : list string) :
  NoDup files -> NoDup (lookup rv baseName selected files).
Proof.
  intros H. apply (Permutation_NoDup (Permutation_sym (lookup_perm _ _ _ _))).
  now apply NoDup_filter.
Qed.

End Lookup.

(* ================================================================== *)
(** * [Number] on page tokens *)
(* ================================================================== *)

Section NumberOfTokens.
Import JsString JsNumber.

Lemma digit_differs (c d : ascii) :
  is_digit c = true -> is_digit d = false -> Ascii.eqb c d = false.
Proof.
  intros Hc Hd. destruct (Ascii.eqb_spec c d) as [-> | _]; congruence.
Qed.

Lemma digit_not_whitespace (c : ascii) :
  is_digit c = true -> is_whitespace c = false.
Proof.
  unfold is_digit, is_whitespace. set (n := nat_of_ascii c). intros H.
  apply andb_prop in H as [H1 H2]. apply Nat.leb_le in H1, H2.
  rewrite !orb_false_iff, andb_false_iff, !Nat.leb_gt, !Nat.eqb_neq. lia.
Qed.

Lemma trimEnd_digits (b : string) : all_digits b = true -> trimEnd b = b.
Proof.
  induction b as [| c b IH]; simpl; [reflexivity |].
  intros H. apply andb_prop in H as [Hc Hb]. rewrite (IH Hb).
  destruct b; [now rewrite (digit_not_whitespace c Hc) | reflexivity].
Qed.

Lemma trimEnd_range (a b : string) :
  all_digits a = true -> all_digits b = true ->
  trimEnd (a ++ String "-" b) = (a ++ String "-" b)%string.
Proof.
  intros Ha Hb. induction a as [| c a IH]; simpl.
  - rewrite (trimEnd_digits b Hb). now destruct b.
  - simpl in Ha. apply andb_prop in Ha as [_ Ha]. rewrite (IH Ha).
    now destruct a.
Qed.

Lemma trimStart_digit (c : ascii) (r : string) :
  is_digit c = true -> trimStart (String c r) = String c r.
Proof. intros H. simpl. now rewrite (digit_not_whitespace c H). Qed.

Lemma trim_numeral (s : string) : numeral s -> trim s = s.
Proof.
  intros [Hne Hd]. destruct s as [| c r]; [discriminate |].
  unfold trim. simpl in Hd. apply andb_prop in Hd as [Hc Hr].
  rewrite (trimStart_digit c r Hc). apply trimEnd_digits. simpl. now rewrite Hc.
Qed.

Lemma trim_range (a b : string) :
  numeral a -> numeral b -> trim (a ++ "-" ++ b) = (a ++ "-" ++ b)%string.
Proof.
  intros [Hane Ha] [_ Hb]. unfold trim.
  change (a ++ "-" ++ b)%string with (a ++ String "-" b)%string.
  destruct a as [| c a]; [discriminate |].
  pose proof Ha as Ha'. simpl in Ha'. apply andb_prop in Ha' as [Hc _].
  change (String c a ++ String "-" b)%string with (String c (a ++ String "-" b)).
  rewrite (trimStart_digit c _ Hc).
  exact (trimEnd_range (String c a) b Ha Hb).
Qed.

(** A string that starts with a digit is read as an unsigned decimal
    literal, unless it is a [0x], [0o] or [0b] literal. *)
Lemma parse_decimal_digit (c : ascii) (r : string) :
  is_digit c = true -> parse_decimal (String c r) = parse_unsigned (String c r).
Proof.
  intros Hc. unfold parse_decimal.
  now rewrite (digit_differs c "+" Hc eq_refl), (digit_differs c "-" Hc eq_refl).
Qed.

Lemma not_Infinity_digit (c : ascii) (r : string) :
  is_digit c = true -> String.eqb (String c r) "Infinity" = false.
Proof.
  intros Hc. simpl. now rewrite (digit_differs c "I" Hc eq_refl).
Qed.

Lemma digits_value_acc_app (a b : string) (acc : Z) :
  digits_value_acc acc (a ++ b) = digits_value_acc (digits_value_acc acc a) b.
Proof.
  revert acc. induction a as [| c a IH]; intros acc; simpl; [reflexivity | apply IH].
Qed.

(** A numeral is read as its decimal value. *)
Lemma Number_numeral (s : string) :
  numeral s -> Number s = of_Z (digits_value s).
Proof.
  intros Hs. pose proof Hs as [Hne Hd].
  unfold Number. rewrite (trim_numeral s Hs), Hne. simpl negb. cbv iota.
  destruct s as [| c r]; [discriminate |].
  simpl in Hd. apply andb_prop in Hd as [Hc Hr].
  assert (radix_of_prefix (String c r) = None) as ->.
  { unfold radix_of_prefix. destruct r as [| d r']; [reflexivity |].
    simpl in Hr. apply andb_prop in Hr as [Hdg _].
    destruct (Ascii.eqb c "0"); simpl; [| reflexivity].
    now rewrite (digit_differs d "x" Hdg eq_refl), (digit_differs d "X" Hdg eq_refl),
      (digit_differs d "o" Hdg eq_refl), (digit_differs d "O" Hdg eq_refl),
      (digit_differs d "b" Hdg eq_refl), (digit_differs d "B" Hdg eq_refl). }
  rewrite (parse_decimal_digit c r Hc). unfold parse_unsigned.
  rewrite (not_Infinity_digit c r Hc).
  assert (all_digits (String c r) = true) as Hall by (simpl; now rewrite Hc).
  pose proof (span_digits_app (String c r) EmptyString Hall eq_refl) as Hspan.
  assert ((String c r ++ "")%string = String c r) as Happ.
  { clear. generalize (String c r). intros s. induction s; simpl; congruence. }
  rewrite Happ in Hspan. rewrite Hspan. simpl nonempty. simpl orb. cbv iota.
  unfold parse_exponent. rewrite Happ. unfold of_Z. apply fin_eq.
  simpl. unfold pow10. simpl. apply Qmult_1_r.
Qed.

(** A range [a-b] is not a numeric literal. *)
Lemma Number_range (a b : string) :
  numeral a -> numeral b -> Number (a ++ "-" ++ b) = NaN.
Proof.
  intros Ha Hb. pose proof Ha as [Hane Had]. pose proof Hb as [Hbne Hbd].
  unfold Number. rewrite (trim_range a b Ha Hb).
  change (a ++ "-" ++ b)%string with (a ++ String "-" b)%string.
  destruct a as [| c a]; [discriminate |].
  simpl in Had. apply andb_prop in Had as [Hc Hr].
  change (String c a ++ String "-" b)%string with (String c (a ++ String "-" b)).
  simpl nonempty. simpl negb. cbv iota.
  assert (radix_of_prefix (String c (a ++ String "-" b)) = None) as ->.
  { unfold radix_of_prefix. destruct (Ascii.eqb c "0"); simpl negb; cbv iota.
    - destruct a as [| d a']; simpl; [reflexivity |].
      simpl in Hr. apply andb_prop in Hr as [Hdg _].
      now rewrite (digit_differs d "x" Hdg eq_refl), (digit_differs d "X" Hdg eq_refl),
      (digit_differs d "o" Hdg eq_refl), (digit_differs d "O" Hdg eq_refl),
      (digit_differs d "b" Hdg eq_refl), (digit_differs d "B" Hdg eq_refl).
    - now destruct (a ++ String "-" b)%string. }
  rewrite (parse_decimal_digit c _ Hc). unfold parse_unsigned.
  rewrite (not_Infinity_digit c _ Hc).
  assert (all_digits (String c a) = true) as Hall by (simpl; now rewrite Hc).
  pose proof (span_digits_app (String c a) (String "-" b) Hall eq_refl) as Hspan.
  change (String c a ++ String "-" b)%string with (String c (a ++ String "-" b)) in Hspan.
  rewrite Hspan. reflexivity.
Qed.

Lemma Number_range_token (token : string) :
  App.is_range (trim token) = true -> Number (trim token) = NaN.
Proof.
  intros H. apply is_range_inv in H as (a & b & -> & Ha & Hb).
  now apply Number_range.
Qed.

End NumberOfTokens.

(* ================================================================== *)
(** * The cost endpoint *)
(* ================================================================== *)

Section CostEndpoint.
Import JsString JsNumber Server.

Variable greyscale : image -> result image.

(** ** Files of a directory *)

Lemma names_write_file (d : directory) (f : string) (img : image) :
  names (write_file d f img) = names d.
Proof.
  unfold names, write_file. rewrite map_map. apply map_ext.
  intros [g i]. simpl. destruct (String.eqb_spec g f); simpl; congruence.
Qed.

Lemma read_file_In (d : directory) (f : string) :
  In f (names d) -> exists img, read_file d f = Some img.
Proof.
  unfold read_file, names. induction d as [| [g i] d IH]; simpl; [easy |].
  intros [-> | H].
  - rewrite String.eqb_refl. eauto.
  - destruct (String.eqb g f); eauto.
Qed.

Lemma read_file_write_same (d : directory) (f : string) (img : image) :
  In f (names d) -> read_file (write_file d f img) f = Some img.
Proof.
  unfold read_file, write_file, names. induction d as [| [g i] d IH]; simpl; [easy |].
  intros H. destruct (String.eqb_spec g f) as [-> | Hne]; simpl.
  - now rewrite String.eqb_refl.
  - destruct (String.eqb_spec g f); [contradiction |].
    apply IH. destruct H; [contradiction | assumption].
Qed.

Lemma write_dir_readdir (st : store) (p : string) (d : directory) :
  readdir st p = Ok d -> write_dir st p d = st.
Proof.
  unfold readdir, write_dir. destruct st as [l g u]. simpl.
  destruct (String.eqb p "letter"); [intros [= ->]; reflexivity |].
  destruct (String.eqb p "legal"); [intros [= ->]; reflexivity | discriminate].
Qed.

(** ** The loop over the matched files *)

Lemma process_unconverted (rv : revision) (color : string) (d : directory)
    (matched : list string) (total : nat) :
  String.eqb color "bw" = false -> incl matched (names d) ->
  process greyscale rv color d matched total
  = (d, Ok (total + scanned_bands d matched)).
Proof.
  intros Hc. revert total. induction matched as [| f rest IH]; intros total Hin; simpl.
  - unfold scanned_bands. simpl. now rewrite Nat.add_0_r.
  - unfold convertToBWIfNeeded. rewrite Hc. simpl. unfold scan_file.
    destruct (read_file_In d f (Hin f (or_introl eq_refl))) as (img & Himg).
    rewrite Himg, IH by (intros g Hg; apply Hin; now right).
    unfold scanned_bands. simpl. rewrite Himg. f_equal. f_equal. lia.
Qed.

Lemma process_succeeds (rv : revision) (color : string) (d : directory)
    (matched : list string) (total : nat) :
  conversion_safe greyscale rv color -> incl matched (names d) ->
  exists d' total',
    process greyscale rv color d matched total = (d', Ok total')
    /\ names d' = names d.
Proof.
  intros Hsafe. revert d total.
  induction matched as [| f rest IH]; intros d total Hin; simpl; [eauto |].
  destruct (read_file_In d f (Hin f (or_introl eq_refl))) as (img & Himg).
  assert (exists d1, convertToBWIfNeeded greyscale rv d f color = (d1, Ok tt)
                     /\ names d1 = names d) as (d1 & -> & Hnames).
  { unfold convertToBWIfNeeded. destruct (String.eqb_spec color "bw") as [-> | Hne];
      simpl; [| eauto]. rewrite Himg.
    destruct (greyscale img) as [grey | m] eqn:G; [eauto using names_write_file |].
    destruct Hsafe as [-> | [Hne | Htotal]]; [eauto | congruence |].
    destruct (Htotal img) as (grey & Hg). congruence. }
  unfold scan_file.
  destruct (read_file_In d1 f) as (img1 & ->);
    [rewrite Hnames; apply Hin; now left |].
  destruct (IH d1 (total + scanUsedSections img1)) as (d' & total' & -> & Hn).
  { rewrite Hnames. intros g Hg. apply Hin. now right. }
  exists d', total'. split; [reflexivity | congruence].
Qed.

(** ** The handler *)

Lemma lookup_none_selected (rv : revision) (b : string) (files : list string) :
  lookup rv b [] files = [].
Proof.
  unfold lookup. simpl. rewrite filter_filter.
  rewrite filter_none; [reflexivity |]. intros f _. apply andb_false_r.
Qed.

Lemma matched_files_incl (rv : revision) (st : store) (req : cost_request)
    (d : directory) :
  readdir st (paper req) = Ok d -> incl (matched_files rv st req) (names d).
Proof.
  intros Hd f Hf. unfold matched_files in Hf. rewrite Hd in Hf.
  now apply lookup_In in Hf.
Qed.

(** The handler on a request that resolves to cached files. *)
Lemma calculate_cost_matched (rv : revision) (st : store) (req : cost_request) :
  nonempty (paper req) = true -> nonempty (baseName req) = true ->
  matched_files rv st req <> [] ->
  exists d,
    readdir st (paper req) = Ok d
    /\ calculate_cost greyscale rv st req
       = let '(d', scanned) :=
           process greyscale rv (color req) d (matched_files rv st req) 0 in
         (write_dir st (paper req) d',
          match scanned with
          | Throw m => CostFailure m
          | Ok totalUsedSections =>
              CostSuccess
                (totalCost_of rv (color req) (List.length (matched_files rv st req))
                   totalUsedSections (copies req))
                totalUsedSections (List.length (matched_files rv st req))
          end).
Proof.
  intros Hp Hb Hm. unfold calculate_cost, matched_files in *.
  rewrite Hp, Hb. simpl negb. simpl orb. cbv iota.
  destruct (readdir st (paper req)) as [d | m] eqn:Hd; [| contradiction].
  exists d. split; [reflexivity |].
  destruct (selectedPages (pages req)) as [| n sel] eqn:Hsel.
  - now rewrite lookup_none_selected in Hm.
  - destruct (lookup rv (baseName req) (n :: sel) (names d)) as [| f fs] eqn:Hl;
      [contradiction |].
    destruct (process greyscale rv (color req) d (f :: fs) 0) as [d' [used | msg]];
      reflexivity.
Qed.

(** ** The total *)

Lemma of_nat_fin (n : nat) : of_nat n = fin (inject_Z (Z.of_nat n)).
Proof. reflexivity. Qed.

Lemma totalCost_color (rv : revision) (n used : nat) (copies : string) (c : Q) :
  copies_number copies = Fin c ->
  totalCost_of rv "color" n used copies = quote 10 n used c.
Proof.
  intros Hc. unfold totalCost_of, sectionCharge, quote, round_half_up. rewrite Hc.
  assert (String.eqb "color" "color" = true) as -> by reflexivity.
  assert (mul (of_nat used) (Fin (1 # 2))
          = fin (Qred (inject_Z (Z.of_nat used)) * (1 # 2))%Q) as Hcharge by reflexivity.
  destruct rv; rewrite Hcharge; unfold of_nat, of_Z, fin, mul, add, Math_round, of_Z, fin;
    do 3 f_equal; apply Qfloor_comp; rewrite !Qred_correct;
    change (inject_Z 10) with 10%Q; ring.
Qed.

Lemma totalCost_uncharged (rv : revision) (color : string) (n : nat)
    (copies : string) (c : Q) :
  String.eqb color "color" = false ->
  copies_number copies = Fin c ->
  sectionCharge rv color 0 = of_Z 0 ->
  totalCost_of rv color n 0 copies = quote 5 n 0 c.
Proof.
  intros Hcol Hc Hcharge. unfold totalCost_of, quote, round_half_up.
  rewrite Hcol, Hc, Hcharge.
  unfold of_nat, of_Z, fin, mul, add, Math_round, of_Z, fin.
  do 3 f_equal. apply Qfloor_comp. rewrite !Qred_correct.
  change (inject_Z 5) with 5%Q. change (inject_Z 0) with 0%Q.
  change (inject_Z (Z.of_nat 0)) with 0%Q. ring.
Qed.

Lemma totalCost_gated (color : string) (n used : nat) (copies : string) (c : Q) :
  String.eqb color "color" = false ->
  copies_number copies = Fin c ->
  totalCost_of Ghostscript color n used copies = quote 5 n 0 c.
Proof.
  intros Hcol Hc.
  rewrite <- (totalCost_uncharged Ghostscript color n copies c Hcol Hc)
    by (simpl; now rewrite Hcol).
  unfold totalCost_of, sectionCharge. now rewrite Hcol.
Qed.

Lemma totalCost_charged (color : string) (n used : nat) (copies : string) (c : Q) :
  String.eqb color "color" = false ->
  copies_number copies = Fin c ->
  totalCost_of Pdf2Pic color n used copies = quote 5 n used c.
Proof.
  intros Hcol Hc. unfold totalCost_of, sectionCharge, quote, round_half_up.
  rewrite Hcol, Hc.
  assert (mul (of_nat used) (Fin (1 # 2))
          = fin (Qred (inject_Z (Z.of_nat used)) * (1 # 2))%Q) as Hcharge by reflexivity.
  rewrite Hcharge. unfold of_nat, of_Z, fin, mul, add, Math_round, of_Z, fin.
  do 3 f_equal. apply Qfloor_comp. rewrite !Qred_correct.
  change (inject_Z 5) with 5%Q. ring.
Qed.

Lemma quote_Qred (base : Z) (n used : nat) (c : Q) :
  quote base n used (Qred c) = quote base n used c.
Proof.
  unfold quote, round_half_up. f_equal. apply Qfloor_comp.
  now rewrite Qred_correct.
Qed.

(** The total on a whole number of copies. *)
Lemma totalCost_quote (rv : revision) (color copies : string) (n used : nat) (c : Z) :
  copies_number copies = of_Z c ->
  totalCost_of rv color n used copies
  = quote (base_price color) n (charged_bands rv color used) (inject_Z c).
Proof.
  intros Hc. unfold of_Z, fin in Hc. rewrite <- quote_Qred.
  unfold base_price, charged_bands.
  destruct (String.eqb_spec color "color") as [-> | Hne].
  - rewrite (totalCost_color rv n used copies _ Hc). now destruct rv.
  - apply String.eqb_neq in Hne. destruct rv.
    + exact (totalCost_charged color n used copies _ Hne Hc).
    + exact (totalCost_gated color n used copies _ Hne Hc).
Qed.

(** What a success of the handler tells. *)
Lemma calculate_cost_success (rv : revision) (st st' : store) (req : cost_request)
    (total : number) (used n : nat) :
  calculate_cost greyscale rv st req = (st', CostSuccess total used n) ->
  nonempty (paper req) = true /\ nonempty (baseName req) = true
  /\ matched_files rv st req <> []
  /\ n = List.length (matched_files rv st req)
  /\ total = totalCost_of rv (color req) n used (copies req)
  /\ exists d d',
       readdir st (paper req) = Ok d
       /\ process greyscale rv (color req) d (matched_files rv st req) 0 = (d', Ok used)
       /\ st' = write_dir st (paper req) d'.
Proof.
  intros H.
  destruct (nonempty (paper req)) eqn:Hp;
    [| unfold calculate_cost in H; rewrite Hp in H; discriminate].
  destruct (nonempty (baseName req)) eqn:Hb;
    [| unfold calculate_cost in H; rewrite Hp, Hb in H; discriminate].
  assert (matched_files rv st req <> []) as Hm.
  { intros E. revert H. unfold calculate_cost, matched_files in *. rewrite Hp, Hb.
    cbn [negb orb].
    destruct (selectedPages (pages req)); [discriminate |].
    destruct (readdir st (paper req)); [| discriminate]. now rewrite E. }
  destruct (calculate_cost_matched rv st req Hp Hb Hm) as (d & Hd & E).
  rewrite E in H.
  destruct (process greyscale rv (color req) d (matched_files rv st req) 0)
    as [d' [u | m]] eqn:Hprocess; [| discriminate].
  injection H as <- <- <- <-.
  repeat split; try assumption. now exists d, d'.
Qed.

End CostEndpoint.

(** The handler in "color" mode, on a request that resolves to cached
    files. *)
Lemma calculate_cost_in_color (greyscale : Server.image -> Server.result Server.image)
    (rv : Server.revision) (st : Server.store) (req : Server.cost_request) (c : Q) :
  JsString.nonempty (Server.paper req) = true ->
  JsString.nonempty (Server.baseName req) = true ->
  matched_files rv st req <> [] ->
  Server.copies_number (Server.copies req) = JsNumber.Fin c ->
  Server.color req = "color" ->
  Server.calculate_cost greyscale rv st req
  = (st, Server.CostSuccess
           (quote 10 (List.length (matched_files rv st req))
              (scanned_bands (partition_of st req) (matched_files rv st req)) c)
           (scanned_bands (partition_of st req) (matched_files rv st req))
           (List.length (matched_files rv st req))).
Proof.
  intros Hp Hb Hm Hc Hcol.
  destruct (calculate_cost_matched greyscale rv st req Hp Hb Hm) as (d & Hd & ->).
  pose proof (matched_files_incl rv st req d Hd) as Hincl.
  rewrite Hcol.
  rewrite (process_unconverted greyscale rv "color" d _ 0 eq_refl Hincl).
  rewrite (write_dir_readdir st _ d Hd). simpl Nat.add.
  unfold partition_of. rewrite Hd.
  now rewrite (totalCost_color rv _ _ _ c Hc).
Qed.

(** The second revision on a whole number of copies: the "color" total
    is round((10 * pageCount + 0.5 * usedBands) * copies), and the "bw"
    total is round(5 * pageCount * copies) whatever the scan reports,
    because the bands are charged in "color" mode only. *)
Lemma cost_by_color_mode_Ghostscript
    (greyscale : Server.image -> Server.result Server.image)
    (st : Server.store) (req : Server.cost_request) (c : Z) :
  JsString.nonempty (Server.paper req) = true ->
  JsString.nonempty (Server.baseName req) = true ->
  matched_files Server.Ghostscript st req <> [] ->
  whole_copies (Server.copies req) c ->
  let pageCount := List.length (matched_files Server.Ghostscript st req) in
  (Server.color req = "color" ->
   let usedBands :=
     scanned_bands (partition_of st req) (matched_files Server.Ghostscript st req) in
   Server.calculate_cost greyscale Server.Ghostscript st req
   = (st, Server.CostSuccess (quote 10 pageCount usedBands (inject_Z c))
            usedBands pageCount))
  /\ (Server.color req = "bw" ->
      exists st' scanned,
        Server.calculate_cost greyscale Server.Ghostscript st req
        = (st', Server.CostSuccess (quote 5 pageCount 0 (inject_Z c)) scanned pageCount)).
Proof.
  intros Hp Hb Hm [Hc _] pageCount. split.
  - intros Hcol usedBands. rewrite <- quote_Qred. now apply calculate_cost_in_color.
  - destruct (calculate_cost_matched greyscale Server.Ghostscript st req Hp Hb Hm)
      as (d & Hd & ->).
    pose proof (matched_files_incl Server.Ghostscript st req d Hd) as Hincl.
    intros Hcol. rewrite Hcol.
    destruct (process_succeeds greyscale Server.Ghostscript "bw" d
                (matched_files Server.Ghostscript st req) 0 (or_introl eq_refl) Hincl)
      as (d' & used & -> & _).
    rewrite (totalCost_quote Server.Ghostscript "bw" _ _ used c Hc). eauto.
Qed.

(** A "bw" request for the one page of [one_page_store], when the
    greyscale version of the page is the page itself, as it is for a
    page that is grey already. *)
Lemma bw_quote_one_page (rv : Server.revision) (page : Server.image)
    (used : nat) (total : JsNumber.number) :
  Server.scanUsedSections page = used ->
  Server.totalCost_of rv "bw" 1 used "1" = total ->
  Server.calculate_cost (fun img => Server.Ok img) rv (one_page_store rv page)
    (request_for "b" "letter" "bw" "1" "1")
  = (one_page_store rv page, Server.CostSuccess total used 1).
Proof.
  intros Hscan Htotal.
  assert (matched_files rv (one_page_store rv page) (request_for "b" "letter" "bw" "1" "1")
          = [page_file rv "b" 1]) as Hm by (now destruct rv).
  destruct (calculate_cost_matched (fun img => Server.Ok img) rv (one_page_store rv page)
              (request_for "b" "letter" "bw" "1" "1") eq_refl eq_refl
              ltac:(rewrite Hm; discriminate)) as (d & Hd & ->).
  injection Hd as <-. rewrite Hm.
  assert (Server.process (fun img => Server.Ok img) rv "bw"
            [(page_file rv "b" 1, page)] [page_file rv "b" 1] 0
          = ([(page_file rv "b" 1, page)], Server.Ok (Server.scanUsedSections page)))
    as Hprocess by (now destruct rv).
  cbn [Server.color request_for Server.letterCache one_page_store Server.paper
       Server.copies].
  rewrite Hprocess, Hscan. cbn [List.length]. rewrite Htotal.
  reflexivity.
Qed.

(** C1 on the first revision.  Its handler adds 0.5 per scanned band in
    every color mode: whenever it answers a "bw" request for a whole
    number of copies, the total is
    round((5 * pageCount + 0.5 * usedBands) * copies).  The scan runs on
    the greyscale version of each page and counts the bands of every
    page that is not white (C7), so that the surcharge is there: for one
    black letter page and one copy the total is 11, where the claim and
    the second revision have 5. *)
Theorem bw_quote_Pdf2Pic_charges_bands :
  (forall greyscale st st' req total used pageCount c,
      Server.color req = "bw" ->
      whole_copies (Server.copies req) c ->
      exact_amounts pageCount c ->
      Server.calculate_cost greyscale Server.Pdf2Pic st req
      = (st', Server.CostSuccess total used pageCount) ->
      total = quote 5 pageCount used (inject_Z c))
  /\ (let greyscale := fun img : Server.image => Server.Ok img in
      let req := request_for "b" "letter" "bw" "1" "1" in
      Server.calculate_cost greyscale Server.Pdf2Pic
        (one_page_store Server.Pdf2Pic black_letter_page) req
      = (one_page_store Server.Pdf2Pic black_letter_page,
         Server.CostSuccess (JsNumber.of_Z 11) 12 1)
      /\ quote 5 1 0 1 = JsNumber.of_Z 5
      /\ Server.calculate_cost greyscale Server.Ghostscript
           (one_page_store Server.Ghostscript black_letter_page) req
         = (one_page_store Server.Ghostscript black_letter_page,
            Server.CostSuccess (JsNumber.of_Z 5) 12 1)).
Proof.
  assert (Server.scanUsedSections black_letter_page = 12) as Hscan
    by (apply scan_dark_page; try lia; discriminate).
  split.
  - intros greyscale st st' req total used pageCount c Hcol [Hc _] _ H.
    apply calculate_cost_success in H as (_ & _ & _ & _ & -> & _).
    rewrite Hcol. exact (totalCost_quote Server.Pdf2Pic "bw" _ pageCount used c Hc).
  - intros greyscale req. split; [| split].
    + exact (bw_quote_one_page Server.Pdf2Pic black_letter_page 12 _ Hscan eq_refl).
    + reflexivity.
    + exact (bw_quote_one_page Server.Ghostscript black_letter_page 12 _ Hscan eq_refl).
Qed.

(** C8.  A cost request for which no cached file matches the basename,
    the paper size and the selected pages is answered with a failure,
    never with a success; when the request names both paper and
    basename, selects at least one page and names a cache partition,
    the failure carries the cache-miss message. *)
Theorem cache_miss_is_failure (greyscale : Server.image -> Server.result Server.image)
    (rv : Server.revision) (st : Server.store) (req : Server.cost_request) :
  matched_files rv st req = [] ->
  exists message,
    Server.calculate_cost greyscale rv st req = (st, Server.CostFailure message)
    /\ (JsString.nonempty (Server.paper req) = true ->
        JsString.nonempty (Server.baseName req) = true ->
        Server.selectedPages (Server.pages req) <> [] ->
        (exists d, Server.readdir st (Server.paper req) = Server.Ok d) ->
        message = "No cached images found.").
Proof.
  intros Hm. unfold Server.calculate_cost, matched_files in *.
  destruct (negb (JsString.nonempty (Server.paper req))
            || negb (JsString.nonempty (Server.baseName req))) eqn:Hparams.
  - eexists. split; [reflexivity |]. intros Hp Hb. rewrite Hp, Hb in Hparams. discriminate.
  - destruct (Server.selectedPages (Server.pages req)) as [| n sel].
    + eexists. split; [reflexivity |]. intros _ _ H. contradiction.
    + destruct (Server.readdir st (Server.paper req)) as [d | msg].
      * rewrite Hm. eexists. split; reflexivity.
      * eexists. split; [reflexivity |]. intros _ _ _ (d & H). discriminate.
Qed.

Lemma cache_miss_is_failure_witness :
  exists message,
    Server.calculate_cost failing_greyscale Server.Ghostscript
      (sample_store Server.Ghostscript) (sample_request "color" "7" "1")
    = (sample_store Server.Ghostscript, Server.CostFailure message)
    /\ message = "No cached images found.".
Proof.
  destruct (cache_miss_is_failure failing_greyscale Server.Ghostscript
              (sample_store Server.Ghostscript) (sample_request "color" "7" "1") eq_refl)
    as (message & Hcall & Hmsg).
  exists message. split; [exact Hcall |].
  apply Hmsg; [reflexivity | reflexivity | discriminate | eexists; reflexivity].
Defined.

(** A "color" request for the pages 1, 2 and 3 of upload [b] on
    [mixed_store]. *)
Lemma color_quote_mixed_store (greyscale : Server.image -> Server.result Server.image)
    (rv : Server.revision) (first other : Server.image) (used : nat)
    (total : JsNumber.number) :
  Server.scanUsedSections first + (Server.scanUsedSections other + 0) = used ->
  quote 10 2 used 1 = total ->
  Server.calculate_cost greyscale rv (mixed_store rv first other)
    (request_for "b" "letter" "color" "1,2,3" "1")
  = (mixed_store rv first other, Server.CostSuccess total used 2).
Proof.
  intros Hscan Htotal.
  assert (matched_files rv (mixed_store rv first other)
            (request_for "b" "letter" "color" "1,2,3" "1")
          = [page_file rv "b" 1; page_file rv "b" 2]) as Hm by (now destruct rv).
  rewrite (calculate_cost_in_color greyscale rv (mixed_store rv first other)
             (request_for "b" "letter" "color" "1,2,3" "1") 1%Q eq_refl eq_refl
             ltac:(rewrite Hm; discriminate) eq_refl eq_refl).
  rewrite Hm.
  assert (scanned_bands
            (partition_of (mixed_store rv first other)
               (request_for "b" "letter" "color" "1,2,3" "1"))
            [page_file rv "b" 1; page_file rv "b" 2]
          = Server.scanUsedSections first + (Server.scanUsedSections other + 0))
    as -> by (now destruct rv).
  rewrite Hscan. cbn [List.length]. now rewrite Htotal.
Qed.

(** C10.  The cost request is answered for the cached pages that are
    there.  When the partition holds at least one name that carries the
    basename prefix and whose page index is among the requested pages,
    the greyscale conversion cannot make the handler fail and the copy
    count is a whole number, the request succeeds: totalPages is the
    number of those names, and the total is computed from that number,
    round((price * totalPages + 0.5 * chargedBands) * copies) with price
    10 in "color" mode and 5 otherwise.  Requested pages without a
    cached file are left out without an error, and cached files that
    were not asked for are not counted: with the pages 1, 2 and 5 of the
    upload and a page of another upload in the cache, a request for the
    pages 1, 2 and 3 is answered for two pages. *)
Theorem cost_counts_matched_files
    (greyscale : Server.image -> Server.result Server.image)
    (rv : Server.revision) (st : Server.store) (req : Server.cost_request)
    (d : Server.directory) (c : Z) :
  JsString.nonempty (Server.baseName req) = true ->
  Server.readdir st (Server.paper req) = Server.Ok d ->
  conversion_safe greyscale rv (Server.color req) ->
  whole_copies (Server.copies req) c ->
  let cached :=
    candidates rv (Server.baseName req) (Server.selectedPages (Server.pages req))
      (Server.names d) in
  cached <> [] ->
  exact_amounts (List.length cached) c ->
  (exists st' used,
     Server.calculate_cost greyscale rv st req
     = (st', Server.CostSuccess
               (quote (base_price (Server.color req)) (List.length cached)
                  (charged_bands rv (Server.color req) used) (inject_Z c))
               used (List.length cached)))
  /\ (let st0 := mixed_store rv black_letter_page white_letter_page in
      let req0 := request_for "b" "letter" "color" "1,2,3" "1" in
      List.length (Server.selectedPages (Server.pages req0)) = 3
      /\ List.length (Server.names (Server.letterCache st0)) = 4
      /\ candidates rv "b" (Server.selectedPages (Server.pages req0))
           (Server.names (Server.letterCache st0))
         = [page_file rv "b" 1; page_file rv "b" 2]
      /\ Server.calculate_cost greyscale rv st0 req0
         = (st0, Server.CostSuccess (JsNumber.of_Z 26) 12 2)).
Proof.
  intros Hb Hd Hsafe [Hc _] cached Hne _. split.
  - assert (JsString.nonempty (Server.paper req) = true) as Hp.
    { unfold Server.readdir in Hd.
      destruct (String.eqb_spec (Server.paper req) "letter") as [-> | _]; [reflexivity |].
      destruct (String.eqb_spec (Server.paper req) "legal") as [-> | _];
        [reflexivity | discriminate]. }
    assert (Permutation (matched_files rv st req) cached) as Hperm
      by (unfold matched_files; rewrite Hd; apply lookup_perm).
    assert (matched_files rv st req <> []) as Hm.
    { intros E. rewrite E in Hperm. apply Permutation_nil in Hperm. contradiction. }
    destruct (calculate_cost_matched greyscale rv st req Hp Hb Hm) as (d0 & Hd0 & ->).
    rewrite Hd in Hd0. injection Hd0 as <-.
    destruct (process_succeeds greyscale rv (Server.color req) d (matched_files rv st req) 0
                Hsafe (matched_files_incl rv st req d Hd)) as (d' & used & -> & _).
    rewrite (Permutation_length Hperm).
    rewrite (totalCost_quote rv (Server.color req) _ _ used c Hc). eauto.
  - intros st0 req0. split; [reflexivity |]. split; [reflexivity |].
    split; [now destruct rv |].
    apply color_quote_mixed_store; [| reflexivity].
    unfold black_letter_page, white_letter_page.
    rewrite (scan_dark_page 612 792 "000") by (try lia; discriminate).
    now rewrite (scan_white_page 612 792) by lia.
Qed.

Lemma cost_counts_matched_files_witness :
  let rv := Server.Ghostscript in
  let st := mixed_store rv red_topped_page white_page in
  let req := request_for "b" "letter" "bw" "2,3,5" "3" in
  exists st' used,
    Server.calculate_cost failing_greyscale rv st req
    = (st', Server.CostSuccess (JsNumber.of_Z 30) used 2).
Proof.
  intros rv st req.
  assert (candidates rv "b" (Server.selectedPages "2,3,5")
            (Server.names (Server.letterCache st)) <> []) as Hne by discriminate.
  assert (whole_copies (Server.copies req) 3) as Hc by (split; [reflexivity | lia]).
  assert (exact_amounts
            (List.length (candidates rv "b" (Server.selectedPages "2,3,5")
                            (Server.names (Server.letterCache st)))) 3) as Hexact
    by (unfold exact_amounts; simpl; lia).
  destruct (cost_counts_matched_files failing_greyscale rv st req (Server.letterCache st) 3
              eq_refl eq_refl (or_introl eq_refl) Hc Hne Hexact)
    as [(st' & used & H) _].
  exists st', used. exact H.
Defined.

(** C9, as the code has it.  The pages parameter is split on commas
    and each token is trimmed and converted with Number(): a token for
    which Number() gives NaN is silently dropped, and every range token
    such as "1-3" is one of them, so that the selected pages are the
    same with and without the range tokens; a digit string is kept with
    its decimal value; other forms that Number() can read, such as
    "0x10", "1e2" and "Infinity", are kept as numbers too.  When every
    token gives NaN, a request that names paper and basename fails with
    'No pages selected'. *)
Theorem pages_read_by_Number (greyscale : Server.image -> Server.result Server.image)
    (rv : Server.revision) (st : Server.store) (req : Server.cost_request) :
  let tokens := JsString.split "," (Server.pages req) in
  let read token := JsNumber.Number (JsString.trim token) in
  (forall token, App.is_range (JsString.trim token) = true -> read token = JsNumber.NaN)
  /\ (forall token, numeral (JsString.trim token) ->
        read token = JsNumber.of_Z (JsString.digits_value (JsString.trim token)))
  /\ (forall n, In n (Server.selectedPages (Server.pages req)) <->
        JsNumber.isNaN n = false /\ exists token, In token tokens /\ n = read token)
  /\ Server.selectedPages (Server.pages req)
     = filter (fun n => negb (JsNumber.isNaN n))
         (map read
            (filter (fun token => negb (App.is_range (JsString.trim token))) tokens))
  /\ (JsString.nonempty (Server.paper req) = true ->
      JsString.nonempty (Server.baseName req) = true ->
      (forall token, In token tokens -> read token = JsNumber.NaN) ->
      Server.calculate_cost greyscale rv st req = (st, Server.CostFailure "No pages selected"))
  /\ Server.selectedPages "1-3, 5-7" = []
  /\ Server.selectedPages "1,2,3" = [JsNumber.of_Z 1; JsNumber.of_Z 2; JsNumber.of_Z 3]
  /\ Server.selectedPages "0x10,1e2,Infinity"
     = [JsNumber.of_Z 16; JsNumber.of_Z 100; JsNumber.PosInf].
Proof.
  intros tokens read.
  assert (forall token, App.is_range (JsString.trim token) = true -> read token = JsNumber.NaN)
    as Hrange by (intros token; apply Number_range_token).
  split; [exact Hrange |].
  split; [intros token H; now apply Number_numeral |].
  split.
  { intros n. unfold Server.selectedPages. rewrite filter_In, in_map_iff, negb_true_iff.
    split.
    - intros [(token & <- & Hin) Hn]. split; [exact Hn | now exists token].
    - intros [Hn (token & Hin & ->)]. split; [now exists token | exact Hn]. }
  split.
  { unfold Server.selectedPages. fold tokens. fold read.
    induction tokens as [| token rest IH]; simpl; [reflexivity |].
    destruct (App.is_range (JsString.trim token)) eqn:E; simpl.
    - now rewrite (Hrange token E).
    - destruct (negb (JsNumber.isNaN (read token))); now rewrite IH. }
  split; [| repeat split].
  intros Hp Hb Hall. unfold Server.calculate_cost. rewrite Hp, Hb. simpl.
  assert (Server.selectedPages (Server.pages req) = []) as ->; [| reflexivity].
  unfold Server.selectedPages. fold tokens. fold read.
  apply filter_none. intros n Hn. apply in_map_iff in Hn as (token & <- & Hin).
  now rewrite (Hall token Hin).
Qed.

Lemma pages_read_by_Number_witness :
  Server.calculate_cost failing_greyscale Server.Ghostscript
    (sample_store Server.Ghostscript) (sample_request "color" "1-3, 5-7" "1")
  = (sample_store Server.Ghostscript, Server.CostFailure "No pages selected").
Proof.
  apply (pages_read_by_Number failing_greyscale Server.Ghostscript
           (sample_store Server.Ghostscript) (sample_request "color" "1-3, 5-7" "1"));
    [reflexivity | reflexivity |].
  intros token Hin. simpl in Hin. destruct Hin as [<- | [<- | []]]; reflexivity.
Defined.

(** C9, as stated, fails: a token that is not a plain numeral need not
    become NaN.  "0x10" and "Infinity" are read as 16 and as infinity,
    and they are kept among the selected pages. *)
Lemma non_numeral_tokens_survive :
  ~ (forall token, ~ numeral (JsString.trim token) ->
       JsNumber.Number (JsString.trim token) = JsNumber.NaN)
  /\ ~ numeral (JsString.trim "0x10") /\ ~ numeral (JsString.trim "Infinity")
  /\ Server.selectedPages "0x10,Infinity" = [JsNumber.of_Z 16; JsNumber.PosInf].
Proof.
  assert (~ numeral (JsString.trim "0x10")) as Hhex by (intros [_ H]; discriminate H).
  split; [| split; [exact Hhex | split; [intros [_ H]; discriminate H | reflexivity]]].
  intros H. specialize (H "0x10" Hhex). discriminate H.
Qed.

(* ================================================================== *)
(** * Invalidation of the cache *)
(* ================================================================== *)

Section Invalidate.
Import JsString JsNumber Server.

Lemma names_unlink_doomed (rv : revision) (b : string) (d : directory) :
  names (unlink_doomed rv b d) = filter (fun f => negb (doomed rv b f)) (names d).
Proof.
  unfold names, unlink_doomed. induction d as [| [f img] d IH]; simpl; [reflexivity |].
  destruct (doomed rv b f); simpl; now rewrite IH.
Qed.

Lemma lookup_without_prefix (rv : revision) (b : string) (selected : list number)
    (files : list string) :
  (forall f, In f files -> startsWith f (b ++ separator rv) = false) ->
  lookup rv b selected files = [].
Proof.
  intros H. unfold lookup. rewrite (filter_none _ files H). reflexivity.
Qed.


Lemma delete_last_valid (rv : revision) (st : store) (b : string) :
  valid_basename b ->
  delete_last rv st b
  = ({| letterCache := unlink_doomed rv b (letterCache st);
        legalCache := unlink_doomed rv b (legalCache st);
        uploadsDir := unlink_name (b ++ "_legal.pdf")
                        (unlink_name (b ++ "_letter.pdf") (uploadsDir st)) |},
     DeleteSuccess).
Proof.
  intros [Hne Hs]. unfold delete_last. now rewrite Hs, Hne.
Qed.

Lemma unlink_name_gone (f : string) (l : list string) : ~ In f (unlink_name f l).
Proof.
  unfold unlink_name. intros H. apply filter_In in H as [_ H].
  now rewrite String.eqb_refl in H.
Qed.

Lemma unlink_name_In (f g : string) (l : list string) :
  In g (unlink_name f l) <-> In g l /\ g <> f.
Proof.
  unfold unlink_name. rewrite filter_In, negb_true_iff. split; intros [H1 H2].
  - split; [assumption |]. intros ->. now rewrite String.eqb_refl in H2.
  - split; [assumption |]. now apply String.eqb_neq.
Qed.


(** The second revision: both prefixes and both normalized PDFs are
    gone, everything else stays, and no lookup for [b] finds a file,
    whichever of the two name patterns it asks for. *)
Lemma delete_last_Ghostscript (st : store) (b : string) :
  valid_basename b ->
  let st' := fst (delete_last Ghostscript st b) in
  let gone f := startsWith f (b ++ "_") || startsWith f (b ++ "-") in
  snd (delete_last Ghostscript st b) = DeleteSuccess
  /\ names (letterCache st') = filter (fun f => negb (gone f)) (names (letterCache st))
  /\ names (legalCache st') = filter (fun f => negb (gone f)) (names (legalCache st))
  /\ (forall f, In f (uploadsDir st') <->
        In f (uploadsDir st) /\ f <> (b ++ "_letter.pdf")%string
        /\ f <> (b ++ "_legal.pdf")%string)
  /\ (forall rv paper color pages copies,
        matched_files rv st' (request_for b paper color pages copies) = []).
Proof.
  intros Hb st' gone. subst st'. rewrite (delete_last_valid Ghostscript st b Hb). simpl.
  split; [reflexivity |].
  split; [apply names_unlink_doomed |]. split; [apply names_unlink_doomed |].
  split.
  - intros f. rewrite !unlink_name_In. tauto.
  - intros rv paper color pages copies. unfold matched_files, readdir. simpl.
    destruct (String.eqb paper "letter"); [| destruct (String.eqb paper "legal")];
      try reflexivity;
      (apply lookup_without_prefix; intros f Hf; rewrite names_unlink_doomed in Hf;
       apply filter_In in Hf as [_ Hf]; apply negb_true_iff in Hf;
       simpl in Hf; apply orb_false_iff in Hf; now destruct rv).
Qed.

End Invalidate.



(* ================================================================== *)
(** * The rasterization adapters *)
(* ================================================================== *)

Section Adapters.
Import JsString JsNumber Server.

Lemma map_nil_inv {A B : Type} (f : A -> B) (l : list A) : map f l = [] -> l = [].
Proof. destruct l; [reflexivity | discriminate]. Qed.

(** The Ghostscript adapter returns exactly when the engine settled
    without a fatal error and left at least one page file; it returns
    the paths of the page files. *)
Lemma Ghostscript_adapter_returns (run : gs_run) (outDir b : string) (paths : list string) :
  convertPdfToPngsWithGhostscript run outDir b = Ok paths
  <-> non_fatal run /\ outputs run b <> []
      /\ paths = map (path_join outDir) (outputs run b).
Proof.
  unfold convertPdfToPngsWithGhostscript, non_fatal, outputs. split.
  - destruct (gs_exec run) as [m | out err]; [discriminate |].
    destruct (nonempty err && negb (includes err "Warning")) eqn:F; [discriminate |].
    destruct (gs_listing run) as [files | m]; simpl; [| discriminate].
    destruct (filter (gs_output b) files) as [| f fs] eqn:E; simpl; [discriminate |].
    intros [= <-]. split; [| split; [discriminate | reflexivity]].
    exists out, err. split; [reflexivity |].
    destruct (nonempty err); [right | now left].
    now destruct (includes err "Warning").
  - intros ((out & err & -> & Hcond) & Hout & ->).
    assert (nonempty err && negb (includes err "Warning") = false) as ->
      by (destruct Hcond as [-> | ->]; [reflexivity | apply andb_false_r]).
    destruct (gs_listing run) as [files | m]; simpl; [| contradiction].
    destruct (filter (gs_output b) files) as [| f fs]; [contradiction | reflexivity].
Qed.

(** It throws in every other case, in particular when the engine
    settled without a fatal error and left no page file. *)
Lemma Ghostscript_adapter_throws (run : gs_run) (outDir b : string) :
  outputs run b = [] ->
  exists m, convertPdfToPngsWithGhostscript run outDir b = Throw m.
Proof.
  intros H. destruct (convertPdfToPngsWithGhostscript run outDir b) as [paths | m] eqn:E;
    [| eauto].
  apply Ghostscript_adapter_returns in E as (_ & Hne & _). contradiction.
Qed.

(** An upload of the second revision is aborted as soon as one of the
    two conversions leaves no page file. *)
Lemma upload_Ghostscript_aborts (letter legal : gs_run) (b : string) (n : nat)
    (size : string) :
  outputs letter b = [] \/ outputs legal b = [] ->
  exists m, upload_convert (GhostscriptRuns letter legal) b n size = UploadFailure m.
Proof.
  intros H. unfold upload_convert, convert_both.
  destruct (convertPdfToPngsWithGhostscript letter "cache/letter" b) as [l | m] eqn:El;
    simpl; [| eauto].
  destruct (convertPdfToPngsWithGhostscript legal "cache/legal" b) as [g | m] eqn:Eg;
    simpl; [| eauto].
  apply Ghostscript_adapter_returns in El as (_ & Hl & _).
  apply Ghostscript_adapter_returns in Eg as (_ & Hg & _).
  destruct H; contradiction.
Qed.

End Adapters.

(** C3 on the first revision.  The pdf2pic adapter does not report a
    failure when the engine settles without an error and produces no
    page file: it logs a warning and returns the empty list, for a bulk
    result that is empty as for one without a successful entry, and the
    upload is answered as a success with no page image. *)
Theorem Pdf2Pic_adapter_accepts_no_output :
  Server.convertPdfToPngsWithPdf2Pic (Server.Ok []) "cache/letter" "b" = Server.Ok []
  /\ (forall entries, existsb Server.entry_success entries = false ->
        Server.convertPdfToPngsWithPdf2Pic (Server.Ok entries) "cache/letter" "b"
        = Server.Ok [])
  /\ Server.upload_convert (Server.Pdf2PicRuns (Server.Ok []) (Server.Ok [])) "b" 2 "letter"
     = Server.UploadSuccess [] [] 2 "letter" "b"
  /\ non_fatal silent_run
  /\ outputs silent_run "b" = []
  /\ Server.upload_convert (Server.GhostscriptRuns silent_run silent_run) "b" 2 "letter"
     = Server.UploadFailure
         "Ghostscript conversion failed: Ghostscript finished, but no PNG files found. The PDF may be corrupted or missing content.".
Proof.
  split; [reflexivity |]. split.
  - intros entries H. unfold Server.convertPdfToPngsWithPdf2Pic.
    rewrite filter_none; [reflexivity |].
    intros e He. destruct (Server.entry_success e) eqn:E; [| reflexivity].
    assert (existsb Server.entry_success entries = true) as H'
      by (apply existsb_exists; eauto).
    congruence.
  - split; [reflexivity |]. split; [| split; reflexivity].
    exists "", "". split; [reflexivity | now left].
Qed.

(* ================================================================== *)
(** * The PDF normalizer *)
(* ================================================================== *)

Section Normalizer.
Import JsNumber Server.

Lemma safe_dimension_at_least_one (v : number) :
  v <> PosInf -> at_least_one (safe_dimension v).
Proof.
  intros Hv. unfold at_least_one, safe_dimension.
  destruct v as [| q | |]; simpl isNaN; cbv iota.
  - exists (Qred (inject_Z 1)). split; [reflexivity | now compute].
  - unfold Math_max. change (of_Z 1) with (Fin (Qred (inject_Z 1))).
    cbv iota. destruct (ltb (Fin (Qred (inject_Z 1))) (Fin q)) eqn:E.
    + exists q. split; [reflexivity |]. simpl in E. apply Qlt_bool_iff in E.
      apply Qlt_le_weak. exact E.
    + exists (Qred (inject_Z 1)). split; [reflexivity | now compute].
  - contradiction.
  - exists (Qred (inject_Z 1)). split; [reflexivity | now compute].
Qed.

Lemma mul_div_cancel (s : number) (t : Q) :
  at_least_one s -> mul s (div (fin t) s) = fin t.
Proof.
  intros (q & -> & Hq). unfold div, fin at 1.
  assert (~ (q == 0)%Q) as Hq0 by (intros H; rewrite H in Hq; now compute in Hq).
  destruct (Qeq_bool q 0) eqn:E; [apply Qeq_bool_eq in E; contradiction |].
  unfold fin at 1, mul. apply fin_eq. rewrite !Qred_correct. now field.
Qed.

Lemma resize_page_Ghostscript (tw th : Q) (index : nat) (page : page_size) :
  size_width page <> PosInf -> size_height page <> PosInf ->
  resize_page Ghostscript (fin tw) (fin th) index page
  = {| new_width := fin tw; new_height := fin th; drawn_source := index;
       drawn_options := {| draw_x := of_Z 0; draw_y := of_Z 0;
                           draw_width := fin tw; draw_height := fin th |} |}.
Proof.
  intros Hw Hh. unfold resize_page.
  rewrite (mul_div_cancel _ tw (safe_dimension_at_least_one _ Hw)).
  rewrite (mul_div_cancel _ th (safe_dimension_at_least_one _ Hh)).
  reflexivity.
Qed.

(** The second revision: every page of the new document has the
    target size and is covered by the source page of the same
    position, whatever the size of that page, zero and [NaN]
    included; the divisors of the two scale factors are at least 1. *)
Lemma resizePDF_Ghostscript_fills (pages : list page_size) (tw th : Q) :
  Forall (fun p => size_width p <> PosInf /\ size_height p <> PosInf) pages ->
  let result := resizePDF Ghostscript pages (fin tw) (fin th) in
  List.length result = List.length pages
  /\ Forall fills_page result
  /\ Forall (fun p => new_width p = fin tw /\ new_height p = fin th) result
  /\ map drawn_source result = seq 0 (List.length pages)
  /\ Forall (fun p => at_least_one (safe_dimension (size_width p))
                      /\ at_least_one (safe_dimension (size_height p))) pages.
Proof.
  intros Hpages result. subst result. unfold resizePDF. generalize 0 as index.
  induction Hpages as [| page rest [Hw Hh] _ IH]; intros index; cbn [resize_pages].
  - repeat split; constructor.
  - rewrite (resize_page_Ghostscript tw th index page Hw Hh).
    destruct (IH (index + 1)) as (Hlen & Hfill & Hsize & Hsrc & Hsafe).
    split; [simpl; now rewrite Hlen |].
    split; [constructor; [reflexivity | exact Hfill] |].
    split; [constructor; [split; reflexivity | exact Hsize] |].
    split; [simpl; rewrite Hsrc; now replace (index + 1) with (S index) by lia |].
    constructor; [| exact Hsafe].
    split; now apply safe_dimension_at_least_one.
Qed.

End Normalizer.

(** C4 on the first revision.  Its [resizePDF] does not scale: a source
    page of 300 x 400 points is drawn at its own size, centred
    horizontally and aligned with the top of the 612 x 792 page, and so
    does not fill it.  The second revision draws the same page, and a
    page of size (0, 0) or (NaN, NaN), over the whole target page. *)
Theorem resizePDF_Pdf2Pic_does_not_scale :
  let page := {| Server.size_width := JsNumber.of_Z 300;
                 Server.size_height := JsNumber.of_Z 400 |} in
  let empty := {| Server.size_width := JsNumber.of_Z 0;
                  Server.size_height := JsNumber.of_Z 0 |} in
  let unknown := {| Server.size_width := JsNumber.NaN;
                    Server.size_height := JsNumber.NaN |} in
  let '(width, height) := Server.letter_size in
  Server.resizePDF Server.Pdf2Pic [page] width height
  = [{| Server.new_width := JsNumber.of_Z 612; Server.new_height := JsNumber.of_Z 792;
        Server.drawn_source := 0;
        Server.drawn_options :=
          {| Server.draw_x := JsNumber.of_Z 156; Server.draw_y := JsNumber.of_Z 392;
             Server.draw_width := JsNumber.of_Z 300;
             Server.draw_height := JsNumber.of_Z 400 |} |}]
  /\ ~ Forall fills_page (Server.resizePDF Server.Pdf2Pic [page] width height)
  /\ Forall fills_page
       (Server.resizePDF Server.Ghostscript [page; empty; unknown] width height).
Proof.
  simpl. split; [reflexivity |]. split.
  - intros H. inversion H as [| ? ? Hfill _]; subst. discriminate Hfill.
  - repeat constructor.
Qed.

(* ================================================================== *)
(** * Decimal strings *)
(* ================================================================== *)

Section DecimalStrings.
Import JsString.

Lemma uint_string_digits (d : Decimal.uint) :
  all_digits (NilEmpty.string_of_uint d) = true.
Proof.
  induction d; simpl; auto.
Qed.

Lemma uint_string_value (d : Decimal.uint) (acc : positive) :
  digits_value_acc (Z.pos acc) (NilEmpty.string_of_uint d)
  = Z.pos (Pos.of_uint_acc d acc).
Proof.
  revert acc. induction d; intros acc; cbn [NilEmpty.string_of_uint Pos.of_uint_acc];
    [reflexivity | ..];
    cbn [digits_value_acc]; rewrite <- IHd; f_equal;
    change (nat_of_ascii _) with 48 || change (nat_of_ascii _) with 49
    || change (nat_of_ascii _) with 50 || change (nat_of_ascii _) with 51
    || change (nat_of_ascii _) with 52 || change (nat_of_ascii _) with 53
    || change (nat_of_ascii _) with 54 || change (nat_of_ascii _) with 55
    || change (nat_of_ascii _) with 56 || change (nat_of_ascii _) with 57; lia.
Qed.

Lemma uint_string_value_0 (d : Decimal.uint) :
  digits_value_acc 0 (NilEmpty.string_of_uint d) = Z.of_N (Pos.of_uint d).
Proof.
  induction d; cbn [NilEmpty.string_of_uint Pos.of_uint]; [reflexivity | ..];
    cbn [digits_value_acc];
    [exact IHd | ..]; exact (uint_string_value d _).
Qed.

(** [String(n)] of a natural number is a numeral, and reading it back
    gives the number. *)
Lemma of_int_numeral (z : Z) :
  (0 <= z)%Z -> numeral (of_int z) /\ digits_value (of_int z) = z.
Proof.
  intros Hz. destruct z as [| p | p]; [repeat split | | lia].
  unfold of_int, numeral, digits_value. simpl Z.to_int.
  cbn [NilZero.string_of_int].
  assert (NilZero.string_of_uint (Pos.to_uint p) = NilEmpty.string_of_uint (Pos.to_uint p))
    as ->.
  { pose proof (DecimalPos.Unsigned.to_uint_nonnil p). now destruct (Pos.to_uint p). }
  split; [split |].
  - pose proof (DecimalPos.Unsigned.to_uint_nonnil p). now destruct (Pos.to_uint p).
  - apply uint_string_digits.
  - rewrite uint_string_value_0.
    pose proof (DecimalPos.Unsigned.of_to p) as H. unfold Pos.of_uint in *.
    now rewrite H.
Qed.

End DecimalStrings.

(* ================================================================== *)
(** * Mode shortcuts of the page selection *)
(* ================================================================== *)

Section SelectionModes.
Import JsString App.

Lemma page_numbers_In (N x : Z) : In x (page_numbers N) <-> (1 <= x <= N)%Z.
Proof.
  unfold page_numbers. rewrite in_map_iff. split.
  - intros (i & <- & Hi). apply in_seq in Hi. lia.
  - intros H. exists (Z.to_nat (x - 1)). split; [lia | apply in_seq; lia].
Qed.

Lemma NoDup_map_injective {A B : Type} (f : A -> B) (l : list A) :
  (forall a b, f a = f b -> a = b) -> NoDup l -> NoDup (map f l).
Proof.
  intros Hinj H. induction H as [| a l Hnotin _ IH]; simpl; constructor; [| exact IH].
  intros Hin. apply in_map_iff in Hin as (b & Hb & Hin). apply Hinj in Hb. now subst.
Qed.

Lemma page_numbers_NoDup (N : Z) : NoDup (page_numbers N).
Proof.
  unfold page_numbers. apply NoDup_map_injective; [| apply seq_NoDup].
  intros i j H. lia.
Qed.

Lemma page_numbers_ascending (N : Z) : StronglySorted Z.lt (page_numbers N).
Proof.
  unfold page_numbers. generalize 0 as start.
  induction (Z.to_nat N) as [| n IH]; intros start; simpl; constructor; [apply IH |].
  apply Forall_forall. intros x Hx. apply in_map_iff in Hx as (i & <- & Hi).
  apply in_seq in Hi. lia.
Qed.

Lemma rem_2_odd (x : Z) : (1 <= x)%Z -> negb (Z.rem x 2 =? 0)%Z = Z.odd x.
Proof.
  intros Hx. rewrite Z.rem_mod_nonneg by lia. rewrite Zodd_mod.
  destruct (Z.eqb_spec (x mod 2) 0) as [-> | Hne]; [reflexivity |].
  pose proof (Z.mod_pos_bound x 2 ltac:(lia)).
  assert (x mod 2 = 1)%Z as -> by lia. reflexivity.
Qed.

Lemma rem_2_even (x : Z) : (1 <= x)%Z -> (Z.rem x 2 =? 0)%Z = Z.even x.
Proof.
  intros Hx. rewrite <- (negb_involutive (Z.rem x 2 =? 0)%Z), (rem_2_odd x Hx).
  now rewrite Z.negb_odd.
Qed.

Lemma parsePageSelection_NoDup (input : string) (N : Z) (v : string) :
  NoDup (fst (parsePageSelection input N v)).
Proof. rewrite parse_fst. apply loop_NoDup. constructor. Qed.

Lemma parsePageSelection_bounds (input : string) (N : Z) (v : string) (x : Z) :
  (1 <= N)%Z -> In x (fst (parsePageSelection input N v)) -> (1 <= x <= N)%Z.
Proof.
  intros HN. rewrite parse_fst, loop_In. intros [[] | (part & _ & H)].
  exact (token_covers_bounds N part x HN H).
Qed.

Lemma getSelectedPages_sound (mode value : string) (N : Z) :
  (1 <= N)%Z ->
  NoDup (fst (getSelectedPages mode value N))
  /\ forall x, In x (fst (getSelectedPages mode value N)) -> (1 <= x <= N)%Z.
Proof.
  intros HN. unfold getSelectedPages.
  destruct (Z.eqb_spec N 0) as [-> | _]; [lia |].
  destruct (String.eqb mode "all"); [| destruct (String.eqb mode "odd");
    [| destruct (String.eqb mode "even"); [| destruct (String.eqb mode "custom")]]]; simpl.
  - split; [apply page_numbers_NoDup | intros x; apply page_numbers_In].
  - split; [apply NoDup_filter, page_numbers_NoDup |].
    intros x Hx. apply filter_In in Hx as [Hx _]. now apply page_numbers_In.
  - split; [apply NoDup_filter, page_numbers_NoDup |].
    intros x Hx. apply filter_In in Hx as [Hx _]. now apply page_numbers_In.
  - split; [apply parsePageSelection_NoDup |].
    intros x. now apply parsePageSelection_bounds.
  - split; [constructor | intros x []].
Qed.

End SelectionModes.

(** X1.  With N >= 1 pages, the mode "all" selects the pages 1..N in
    ascending order, "odd" the odd ones among them and "even" the even
    ones, so that the two split the document between them; "custom"
    selects what the parser reads from the input field; any other mode
    selects nothing.  Whatever the mode, no page is selected twice and
    every selected page lies in [1, N]. *)
Theorem getSelectedPages_modes (value : string) (N : Z) :
  (1 <= N)%Z ->
  let selected mode := fst (App.getSelectedPages mode value N) in
  (forall x, In x (selected "all") <-> (1 <= x <= N)%Z)
  /\ StronglySorted Z.lt (selected "all")
  /\ (forall x, In x (selected "odd") <-> (1 <= x <= N)%Z /\ Z.odd x = true)
  /\ (forall x, In x (selected "even") <-> (1 <= x <= N)%Z /\ Z.even x = true)
  /\ selected "custom" = fst (App.parsePageSelection value N value)
  /\ (forall mode, mode <> "all" -> mode <> "odd" -> mode <> "even" ->
        mode <> "custom" -> selected mode = [])
  /\ (forall mode, NoDup (selected mode)
                   /\ forall x, In x (selected mode) -> (1 <= x <= N)%Z).
Proof.
  intros HN selected. subst selected.
  pose proof (fun mode => getSelectedPages_sound mode value N HN) as Hsound.
  unfold App.getSelectedPages in *.
  destruct (Z.eqb_spec N 0) as [-> | _]; [lia |]. simpl.
  split; [apply page_numbers_In |]. split; [apply page_numbers_ascending |].
  split.
  { intros x. rewrite filter_In, page_numbers_In. split; intros [Hx H]; split; auto.
    - now rewrite <- rem_2_odd by lia.
    - now rewrite rem_2_odd by lia. }
  split.
  { intros x. rewrite filter_In, page_numbers_In. split; intros [Hx H]; split; auto.
    - now rewrite <- rem_2_even by lia.
    - now rewrite rem_2_even by lia. }
  split; [reflexivity |]. split.
  { intros mode H1 H2 H3 H4.
    apply String.eqb_neq in H1, H2, H3, H4. now rewrite H1, H2, H3, H4. }
  exact Hsound.
Qed.

Lemma getSelectedPages_modes_witness :
  (1 <= 5)%Z
  /\ fst (App.getSelectedPages "odd" "" 5) = [1; 3; 5]%Z
  /\ NoDup (fst (App.getSelectedPages "even" "" 5)).
Proof.
  pose proof (getSelectedPages_modes "" 5 ltac:(lia)) as (_ & _ & _ & _ & _ & _ & H).
  split; [lia |]. split; [reflexivity | exact (proj1 (H "even"))].
Defined.

(* ================================================================== *)
(** * From the page selection to the server *)
(* ================================================================== *)

Section PagesField.
Import JsString JsNumber App.

Lemma digits_are_plain (s : string) : all_digits s = true -> digits_or_dashes s = true.
Proof.
  induction s as [| c s IH]; simpl; [reflexivity |].
  intros H. apply andb_prop in H as [Hc Hs]. now rewrite Hc, IH.
Qed.

Lemma plain_app (a b : string) :
  digits_or_dashes a = true -> digits_or_dashes b = true ->
  digits_or_dashes (a ++ b) = true.
Proof.
  intros Ha Hb. induction a as [| c a IH]; simpl in *; [assumption |].
  apply andb_prop in Ha as [Hc Ha]. now rewrite Hc, IH.
Qed.

Lemma plain_char_not_comma (c : ascii) :
  is_digit c || Ascii.eqb c "-" = true -> Ascii.eqb c "," = false.
Proof.
  intros H. destruct (Ascii.eqb_spec c ",") as [-> | _]; [discriminate H | reflexivity].
Qed.

Lemma plain_char_not_whitespace (c : ascii) :
  is_digit c || Ascii.eqb c "-" = true -> is_whitespace c = false.
Proof.
  intros H. apply orb_prop in H as [H | H]; [now apply digit_not_whitespace |].
  apply Ascii.eqb_eq in H. now subst.
Qed.

Lemma split_comma_plain (s : string) :
  digits_or_dashes s = true -> split "," s = [s].
Proof.
  induction s as [| c s IH]; simpl; [reflexivity |].
  intros H. apply andb_prop in H as [Hc Hs].
  now rewrite (plain_char_not_comma c Hc), (IH Hs).
Qed.

Lemma split_comma_app (s rest : string) :
  digits_or_dashes s = true ->
  split "," (s ++ String "," rest) = s :: split "," rest.
Proof.
  induction s as [| c s IH]; simpl; [reflexivity |].
  intros H. apply andb_prop in H as [Hc Hs].
  now rewrite (plain_char_not_comma c Hc), (IH Hs).
Qed.

Lemma trimEnd_plain (s : string) : digits_or_dashes s = true -> trimEnd s = s.
Proof.
  induction s as [| c s IH]; simpl; [reflexivity |].
  intros H. apply andb_prop in H as [Hc Hs]. rewrite (IH Hs).
  destruct s; [now rewrite (plain_char_not_whitespace c Hc) | reflexivity].
Qed.

Lemma trim_plain (s : string) : digits_or_dashes s = true -> trim s = s.
Proof.
  intros H. unfold trim. destruct s as [| c s]; [reflexivity |].
  pose proof H as H'. simpl in H'. apply andb_prop in H' as [Hc _].
  simpl trimStart. rewrite (plain_char_not_whitespace c Hc). now apply trimEnd_plain.
Qed.

Lemma trim_space_plain (s : string) :
  digits_or_dashes s = true -> trim (String " " s) = s.
Proof.
  intros H. unfold trim. change (trimStart (String " " s)) with (trimStart s).
  exact (trim_plain s H).
Qed.

Lemma split_join_comma (tokens : list string) :
  tokens <> [] -> Forall (fun t => digits_or_dashes t = true) tokens ->
  split "," (join "," tokens) = tokens.
Proof.
  intros Hne H. induction H as [| t rest Ht Hrest IH]; [contradiction |].
  destruct rest as [| t' rest'].
  - simpl. now apply split_comma_plain.
  - change (join "," (t :: t' :: rest')) with (t ++ String "," (join "," (t' :: rest')))%string.
    rewrite (split_comma_app t _ Ht), IH; [reflexivity | discriminate].
Qed.

Lemma of_int_plain (z : Z) : (0 <= z)%Z -> digits_or_dashes (of_int z) = true.
Proof. intros H. apply digits_are_plain, (of_int_numeral z H). Qed.

Lemma Number_of_int (z : Z) : (0 <= z)%Z -> Number (trim (of_int z)) = of_Z z.
Proof.
  intros H. destruct (of_int_numeral z H) as [Hnum Hval].
  rewrite (trim_numeral _ Hnum), (Number_numeral _ Hnum). now rewrite Hval.
Qed.

Lemma selectedPages_pages_field (l : list Z) :
  l <> [] -> Forall (fun z => (0 <= z)%Z) l ->
  Server.selectedPages (pages_field l) = map of_Z l.
Proof.
  intros Hne Hl. unfold Server.selectedPages, pages_field.
  rewrite split_join_comma.
  - clear Hne. induction Hl as [| z l Hz _ IH]; simpl; [reflexivity |].
    rewrite (Number_of_int z Hz). simpl. now rewrite IH.
  - now destruct l.
  - apply Forall_forall. intros t Ht. apply in_map_iff in Ht as (z & <- & Hz).
    rewrite Forall_forall in Hl. apply of_int_plain, Hl, Hz.
Qed.

End PagesField.

(** X2.  The page list the client sends is read back by the server as
    it was selected: for a selection that is not empty, joining the page
    numbers with commas and reading the result with the [pages] parsing
    of the cost endpoint gives the same numbers in the same order.  This
    holds for the selection of every mode of a document with N >= 1
    pages.  For an empty selection it does not: the empty string is read
    as page 0. *)
Theorem pages_field_read_back (mode value : string) (N : Z) (l : list Z) :
  (l <> [] -> Forall (fun z => (0 <= z)%Z) l ->
   Server.selectedPages (App.pages_field l) = map JsNumber.of_Z l)
  /\ ((1 <= N)%Z ->
      let selected := fst (App.getSelectedPages mode value N) in
      selected <> [] ->
      Server.selectedPages (App.pages_field selected) = map JsNumber.of_Z selected)
  /\ Server.selectedPages (App.pages_field []) = [JsNumber.of_Z 0].
Proof.
  split; [apply selectedPages_pages_field |]. split; [| reflexivity].
  intros HN selected Hne. apply selectedPages_pages_field; [exact Hne |].
  apply Forall_forall. intros x Hx.
  pose proof (proj2 (getSelectedPages_sound mode value N HN) x Hx). lia.
Qed.

Lemma pages_field_read_back_witness :
  Server.selectedPages (App.pages_field [2; 3; 4; 5; 10]%Z)
  = map JsNumber.of_Z [2; 3; 4; 5; 10]%Z.
Proof.
  pose proof (pages_field_read_back "all" "" 1 [2; 3; 4; 5; 10]%Z) as [H _].
  apply H; [discriminate | repeat constructor; lia].
Defined.

(* ================================================================== *)
(** * The canonical page selection *)
(* ================================================================== *)

Section CanonicalSelection.
Import JsString App.

Lemma clamp_fixed (x N : Z) : (1 <= x <= N)%Z -> clamp x N = x.
Proof. unfold clamp. lia. Qed.

Lemma clamp_bounds (x N : Z) : (1 <= N)%Z -> (1 <= clamp x N <= N)%Z.
Proof. unfold clamp. lia. Qed.

(** The token written back for a range. *)
Lemma step_range_token (N s e : Z) (pages : list Z) (parts : list string) :
  (1 <= s <= N)%Z -> (1 <= e <= N)%Z -> (s <= e)%Z ->
  step N (pages, parts) (of_int s ++ "-" ++ of_int e)
  = (add_range s e pages, parts ++ [(of_int s ++ "-" ++ of_int e)%string]).
Proof.
  intros Hs He Hse.
  destruct (of_int_numeral s ltac:(lia)) as [Hns Hvs].
  destruct (of_int_numeral e ltac:(lia)) as [Hne Hve].
  unfold step. rewrite (is_range_intro _ _ Hns Hne).
  change (of_int s ++ "-" ++ of_int e)%string with (of_int s ++ String "-" (of_int e))%string.
  rewrite (split_dash_range _ _ (proj2 Hns) (proj2 Hne)). cbn [map]. cbv iota.
  rewrite Hvs, Hve, (clamp_fixed s N Hs), (clamp_fixed e N He).
  destruct (Z.gtb_spec s e); [lia | reflexivity].
Qed.

(** The token written back for a single number. *)
Lemma step_single_token (N n : Z) (pages : list Z) (parts : list string) :
  (1 <= n <= N)%Z ->
  step N (pages, parts) (of_int n) = (set_add n pages, parts ++ [of_int n]).
Proof.
  intros Hn. destruct (of_int_numeral n ltac:(lia)) as [Hnum Hv].
  unfold step.
  assert (is_single (of_int n) = true) as Hsingle
    by (unfold is_single; now rewrite (proj1 Hnum), (proj2 Hnum)).
  rewrite (single_not_range _ Hsingle), Hsingle, Hv, (clamp_fixed n N Hn). reflexivity.
Qed.

(** A step either leaves the state or appends a token which, read
    again, has the same effect. *)
Lemma step_canonical (N : Z) (pages : list Z) (parts : list string) (part : string) :
  (1 <= N)%Z ->
  step N (pages, parts) part = (pages, parts)
  \/ exists token,
       (digits_or_dashes token = true /\ nonempty token = true)
       /\ step N (pages, parts) part = step N (pages, parts) token
       /\ snd (step N (pages, parts) token) = parts ++ [token].
Proof.
  intros HN. unfold step at 1 2. destruct (is_range part) eqn:Hr.
  - destruct (is_range_inv _ Hr) as (a & b & -> & Ha & Hb).
    change (a ++ "-" ++ b)%string with (a ++ String "-" b)%string.
    rewrite (split_dash_range a b (proj2 Ha) (proj2 Hb)). cbn [map]. cbv iota.
    pose proof (clamp_bounds (digits_value a) N HN) as Hs.
    pose proof (clamp_bounds (digits_value b) N HN) as He.
    set (s := clamp (digits_value a) N) in *. set (e := clamp (digits_value b) N) in *.
    right. destruct (Z.gtb_spec s e) as [Hgt | Hle].
    + exists (of_int e ++ "-" ++ of_int s)%string.
      rewrite (step_range_token N e s pages parts He Hs ltac:(lia)).
      split; [| split; reflexivity].
      split; [| destruct (of_int_numeral e ltac:(lia)) as [[Hx _] _];
                destruct (of_int e); [discriminate Hx | reflexivity]].
      apply plain_app; [apply of_int_plain; lia |].
      simpl. apply of_int_plain. lia.
    + exists (of_int s ++ "-" ++ of_int e)%string.
      rewrite (step_range_token N s e pages parts Hs He Hle).
      split; [| split; reflexivity].
      split; [| destruct (of_int_numeral s ltac:(lia)) as [[Hx _] _];
                destruct (of_int s); [discriminate Hx | reflexivity]].
      apply plain_app; [apply of_int_plain; lia |].
      simpl. apply of_int_plain. lia.
  - destruct (is_single part) eqn:Hsingle; [| now left].
    right. pose proof (clamp_bounds (digits_value part) N HN) as Hn.
    set (n := clamp (digits_value part) N) in *.
    exists (of_int n). rewrite (step_single_token N n pages parts Hn).
    split; [| split; reflexivity].
    split; [apply of_int_plain; lia | apply (of_int_numeral n); lia].
Qed.

(** Reading the tokens written so far gives the state reached so
    far. *)
Lemma loop_canonical (N : Z) (ranges : list string) (st : loop_state) :
  (1 <= N)%Z ->
  Forall (fun t => digits_or_dashes t = true /\ nonempty t = true) (snd st) ->
  fold_left (step N) (snd st) ([], []) = st ->
  let st' := fold_left (step N) ranges st in
  Forall (fun t => digits_or_dashes t = true /\ nonempty t = true) (snd st')
  /\ fold_left (step N) (snd st') ([], []) = st'.
Proof.
  intros HN. revert st. induction ranges as [| part ranges IH]; intros st Hplain Hinv; simpl.
  - split; assumption.
  - apply IH.
    + destruct st as [pages parts].
      destruct (step_canonical N pages parts part HN) as [-> | (token & Ht & -> & Hsnd)];
        [assumption |].
      rewrite Hsnd. apply Forall_app. split; [assumption | now constructor].
    + destruct st as [pages parts]. simpl in Hinv.
      destruct (step_canonical N pages parts part HN) as [-> | (token & Ht & -> & Hsnd)];
        [assumption |].
      rewrite Hsnd, fold_left_app, Hinv. simpl.
      destruct (step N (pages, parts) token) as [pages' parts'] eqn:E.
      simpl in Hsnd. now subst.
Qed.

Lemma split_comma_space (s rest : string) :
  digits_or_dashes s = true ->
  split "," (String " " (s ++ String "," rest)) = String " " s :: split "," rest.
Proof.
  intros H. change (split "," (String " " (s ++ String "," rest)))
    with (match split "," (s ++ String "," rest) with
          | h :: t => String " " h :: t
          | [] => [String " " EmptyString]
          end).
  now rewrite (split_comma_app s rest H).
Qed.

Lemma trim_split_spaced (tokens : list string) :
  tokens <> [] -> Forall (fun t => digits_or_dashes t = true) tokens ->
  map trim (split "," (String " " (join ", " tokens))) = tokens.
Proof.
  intros Hne H. induction H as [| t rest Ht Hrest IH]; [contradiction |].
  destruct rest as [| t' rest'].
  - change (join ", " [t]) with t.
    change (split "," (String " " t))
      with (match split "," t with
            | h :: tl => String " " h :: tl
            | [] => [String " " EmptyString]
            end).
    rewrite (split_comma_plain t Ht). cbn [map]. now rewrite (trim_space_plain t Ht).
  - change (join ", " (t :: t' :: rest'))
      with (t ++ String "," (String " " (join ", " (t' :: rest'))))%string.
    rewrite (split_comma_space t _ Ht). cbn [map].
    rewrite (trim_space_plain t Ht), IH; [reflexivity | discriminate].
Qed.

Lemma trim_split_canonical (tokens : list string) :
  tokens <> [] -> Forall (fun t => digits_or_dashes t = true) tokens ->
  map trim (split "," (join ", " tokens)) = tokens.
Proof.
  intros Hne H. destruct tokens as [| t rest]; [contradiction |].
  inversion H as [| ? ? Ht Hrest]; subst. destruct rest as [| t' rest'].
  - change (join ", " [t]) with t. rewrite (split_comma_plain t Ht). simpl.
    now rewrite (trim_plain t Ht).
  - change (join ", " (t :: t' :: rest'))
      with (t ++ String "," (String " " (join ", " (t' :: rest'))))%string.
    rewrite (split_comma_app t _ Ht). cbn [map].
    rewrite (trim_plain t Ht), (trim_split_spaced (t' :: rest')); [reflexivity | | assumption].
    discriminate.
Qed.

End CanonicalSelection.

(** X3.  The selection the parser writes back into the input field is
    canonical: for N >= 1 and an input that is not empty, parsing the
    written-back text again gives the same pages in the same order and
    writes the same text. *)
Theorem canonical_selection_is_fixed (input shown : string) (N : Z) :
  (1 <= N)%Z -> JsString.nonempty input = true ->
  let pages := fst (App.parsePageSelection input N shown) in
  let canonical := snd (App.parsePageSelection input N shown) in
  App.parsePageSelection canonical N canonical = (pages, canonical).
Proof.
  intros HN Hinput pages canonical. subst pages canonical.
  pose proof (loop_canonical N (map JsString.trim (JsString.split "," input)) ([], [])
                HN (Forall_nil _) eq_refl) as [Hplain Hinv].
  destruct (fold_left (App.step N) (map JsString.trim (JsString.split "," input)) ([], []))
    as [pages parts] eqn:E.
  assert (App.parsePageSelection input N shown = (pages, JsString.join ", " parts)) as ->.
  { unfold App.parsePageSelection. rewrite Hinput. simpl negb. cbv iota. now rewrite E. }
  simpl in Hplain, Hinv. simpl fst. simpl snd.
  destruct parts as [| t rest].
  - simpl in Hinv. injection Hinv as <-. reflexivity.
  - unfold App.parsePageSelection.
    assert (Forall (fun t => digits_or_dashes t = true) (t :: rest)) as Hplain'
      by (eapply Forall_impl; [| exact Hplain]; now intros ? [? _]).
    assert (JsString.nonempty (JsString.join ", " (t :: rest)) = true) as ->.
    { inversion Hplain as [| ? ? [_ Ht] _]; subst.
      destruct t; [discriminate Ht |]. now destruct rest. }
    simpl negb. cbv iota.
    rewrite (trim_split_canonical (t :: rest) ltac:(discriminate) Hplain'), Hinv.
    reflexivity.
Qed.

Lemma canonical_selection_is_fixed_witness :
  App.parsePageSelection "3-10, 2" 10 "3-10, 2" = ([3; 4; 5; 6; 7; 8; 9; 10; 2]%Z, "3-10, 2").
Proof.
  exact (canonical_selection_is_fixed " 14 - 3, 14-3 ,x,2" "" 10 ltac:(lia) eq_refl).
Defined.

(* ================================================================== *)
(** * The preview *)
(* ================================================================== *)

Section Preview.
Import JsString App.

Lemma render_one_in_range (images : list string) (colorMode : string)
    (shown : list preview_image) (num : Z) :
  Forall (fun src => nonempty src = true) images ->
  (1 <= num <= Z.of_nat (List.length images))%Z ->
  render_one images colorMode shown num = shown ++ [image_of_page images colorMode num].
Proof.
  intros Hsrc Hnum. unfold render_one, page_src, image_of_page.
  destruct (Z.ltb_spec (num - 1) 0) as [Hneg | _]; [lia |].
  destruct (nth_error images (Z.to_nat (num - 1))) as [src |] eqn:E.
  - rewrite (nth_error_nth images _ EmptyString E).
    rewrite Forall_forall in Hsrc. now rewrite (Hsrc src (nth_error_In _ _ E)).
  - apply nth_error_None in E. lia.
Qed.

Lemma render_all_in_range (images : list string) (colorMode : string)
    (selected : list Z) (shown : list preview_image) :
  Forall (fun src => nonempty src = true) images ->
  Forall (fun num => (1 <= num <= Z.of_nat (List.length images))%Z) selected ->
  fold_left (render_one images colorMode) selected shown
  = shown ++ map (image_of_page images colorMode) selected.
Proof.
  intros Hsrc Hsel. revert shown.
  induction Hsel as [| num rest Hnum _ IH]; intros shown; simpl.
  - now rewrite app_nil_r.
  - rewrite (render_one_in_range images colorMode shown num Hsrc Hnum), IH.
    now rewrite <- app_assoc.
Qed.

End Preview.

(** X4.  Once an upload has delivered one image per page for the paper
    size at hand, the preview shows the selection as it is: one image
    for each selected page, in the order of the selection, the image of
    page n being the n-th one, with the class bw exactly in bw mode; no
    selected page is skipped.  An empty selection shows the waiting
    message instead. *)
Theorem preview_shows_selection (ui : App.ui_state) (shown : App.preview_content)
    (images : list string) :
  (1 <= App.ui_totalPages ui)%Z ->
  App.images_for ui = Some images ->
  Z.of_nat (List.length images) = App.ui_totalPages ui ->
  Forall (fun src => JsString.nonempty src = true) images ->
  let selected :=
    fst (App.getSelectedPages (App.ui_pageMode ui) (App.ui_pagesInput ui)
           (App.ui_totalPages ui)) in
  fst (App.updatePreview ui shown)
  = match selected with
    | [] => App.WaitingMessage
    | _ :: _ => App.PreviewImages (map (image_of_page images (App.ui_color ui)) selected)
    end.
Proof.
  intros HN Himages Hlen Hsrc selected. subst selected. unfold App.updatePreview.
  destruct (Z.eqb_spec (App.ui_totalPages ui) 0) as [E | _]; [lia |].
  pose proof (getSelectedPages_sound (App.ui_pageMode ui) (App.ui_pagesInput ui)
                (App.ui_totalPages ui) HN) as [_ Hbounds].
  destruct (App.getSelectedPages (App.ui_pageMode ui) (App.ui_pagesInput ui)
              (App.ui_totalPages ui)) as [selected value].
  simpl in Hbounds. simpl fst. rewrite Himages.
  destruct selected as [| num rest]; [reflexivity |].
  destruct images as [| src more]; [simpl in Hlen; lia |].
  change (App.PreviewImages
            (fold_left (App.render_one (src :: more) (App.ui_color ui)) (num :: rest) [])
          = App.PreviewImages
              (map (image_of_page (src :: more) (App.ui_color ui)) (num :: rest))).
  f_equal.
  rewrite (render_all_in_range (src :: more) (App.ui_color ui) (num :: rest) [] Hsrc);
    [reflexivity |].
  apply Forall_forall. intros x Hx. rewrite Hlen. now apply Hbounds.
Qed.

Lemma preview_shows_selection_witness :
  let ui := {| App.ui_pageMode := "custom"; App.ui_pagesInput := "3-2, 9";
               App.ui_color := "bw"; App.ui_paper := "legal"; App.ui_totalPages := 3;
               App.ui_letter := []; App.ui_legal := ["/l/1"; "/l/2"; "/l/3"] |} in
  fst (App.updatePreview ui App.WaitingMessage)
  = App.PreviewImages
      [{| App.img_src := "/l/2"; App.img_bw := true |};
       {| App.img_src := "/l/3"; App.img_bw := true |}].
Proof.
  intros ui.
  assert (Forall (fun src => JsString.nonempty src = true) ["/l/1"; "/l/2"; "/l/3"])
    as Hsrc by (repeat constructor).
  exact (preview_shows_selection ui App.WaitingMessage ["/l/1"; "/l/2"; "/l/3"]
           ltac:(simpl; lia) eq_refl eq_refl Hsrc).
Defined.

(* ================================================================== *)
(** * What the scanner counts *)
(* ================================================================== *)

Section ScannerCount.
Import Server.

(** The triples the scanner reads lie in the first [3 * width * height]
    bytes of the buffer. *)
Lemma unequal_at_firstn (img img' : image) (x y : nat) :
  width img' = width img -> height img' = height img ->
  firstn (3 * width img * height img) (rawBuffer img')
  = firstn (3 * width img * height img) (rawBuffer img) ->
  x < width img -> y < height img ->
  unequal_at img' x y = unequal_at img x y.
Proof.
  intros Hw Hh Hbuf Hx Hy. unfold unequal_at. rewrite Hw. f_equal.
  assert ((y * width img + x) * 3 + 2 < 3 * width img * height img) as Hin by nia.
  rewrite <- (grey_at_firstn (rawBuffer img') _ _ Hin),
          <- (grey_at_firstn (rawBuffer img) _ _ Hin).
  now rewrite Hbuf.
Qed.

Lemma band_reads_unequal_firstn (img img' : image) (i : nat) :
  width img' = width img -> height img' = height img ->
  firstn (3 * width img * height img) (rawBuffer img')
  = firstn (3 * width img * height img) (rawBuffer img) ->
  band_reads_unequal img' i = band_reads_unequal img i.
Proof.
  intros Hw Hh Hbuf. apply eq_true_iff_eq. rewrite !band_reads_unequal_true.
  unfold band_of, sectionHeight. rewrite Hw, Hh.
  split; intros (x & y & Hx & Hy & C & Hb); exists x, y;
    pose proof (unequal_at_firstn img img' x y Hw Hh Hbuf Hx Hy) as E;
    repeat split; try assumption; congruence.
Qed.

End ScannerCount.

(** X5.  The scanner counts bands, not pixels, and it counts them on
    the bytes it reads.  For a page of at least 12 rows, it returns the
    number of bands among the 12 in which, for some pixel position
    (x, y) of the band, the three bytes at (y * width + x) * 3 of the
    raw buffer are not all equal; it returns 0 exactly when there is no
    such position on the page.  These bytes lie in the first
    3 * width * height bytes of the buffer: on the four-byte pixels the
    decoder delivers, that is the top three quarters of the page, and
    two pages of the same size that differ below them scan alike. *)
Theorem scanUsedSections_counts_read_bands (img : Server.image) :
  12 <= Server.height img ->
  Server.scanUsedSections img
  = List.length (filter (band_reads_unequal img) (seq 0 12))
  /\ (Server.scanUsedSections img = 0
      <-> forall x y, x < Server.width img -> y < Server.height img ->
                      unequal_at img x y = false)
  /\ forall img',
       Server.width img' = Server.width img ->
       Server.height img' = Server.height img ->
       firstn (3 * Server.width img * Server.height img) (Server.rawBuffer img')
       = firstn (3 * Server.width img * Server.height img) (Server.rawBuffer img) ->
       Server.scanUsedSections img' = Server.scanUsedSections img.
Proof.
  intros H12. split; [now apply scanUsedSections_count |].
  split; [now apply scanUsedSections_zero |].
  intros img' Hw Hh Hbuf.
  rewrite (scanUsedSections_count img H12),
          (scanUsedSections_count img' ltac:(rewrite Hh; exact H12)).
  f_equal. apply filter_ext. intros i.
  now apply band_reads_unequal_firstn.
Qed.

Lemma scanUsedSections_counts_read_bands_witness :
  12 <= Server.height white_page
  /\ Server.rawBuffer red_footed_page <> Server.rawBuffer white_page
  /\ Server.scanUsedSections red_footed_page = Server.scanUsedSections white_page.
Proof.
  assert (12 <= Server.height white_page) as H12 by (simpl; lia).
  split; [exact H12 |]. split; [discriminate |].
  pose proof (scanUsedSections_counts_read_bands white_page H12) as (_ & _ & H).
  apply (H red_footed_page); reflexivity.
Defined.

(* ================================================================== *)
(** * What a cost request leaves behind *)
(* ================================================================== *)

Section CostFrame.
Import JsString JsNumber Server.

Variable greyscale : image -> result image.

Lemma read_file_write_other (d : directory) (f g : string) (img : image) :
  f <> g -> read_file (write_file d f img) g = read_file d g.
Proof.
  intros Hne. unfold read_file, write_file.
  induction d as [| [h i] d IH]; simpl; [reflexivity |].
  destruct (String.eqb_spec h f) as [-> | Hhf]; simpl.
  - destruct (String.eqb_spec f g); [contradiction | exact IH].
  - destruct (String.eqb h g); [reflexivity | exact IH].
Qed.

Lemma convert_names (rv : revision) (d : directory) (f color : string) :
  names (fst (convertToBWIfNeeded greyscale rv d f color)) = names d.
Proof.
  unfold convertToBWIfNeeded. destruct (negb (String.eqb color "bw")); [reflexivity |].
  destruct (match read_file d f with Some img => greyscale img | None => _ end);
    simpl; [apply names_write_file | now destruct rv].
Qed.

Lemma convert_frame (rv : revision) (d : directory) (f color g : string) :
  f <> g -> read_file (fst (convertToBWIfNeeded greyscale rv d f color)) g = read_file d g.
Proof.
  intros Hne. unfold convertToBWIfNeeded.
  destruct (negb (String.eqb color "bw")); [reflexivity |].
  destruct (match read_file d f with Some img => greyscale img | None => _ end);
    simpl; [now apply read_file_write_other | now destruct rv].
Qed.


(** The loop case by case: it stops after the conversion, stops after
    the scan, or goes on with the directory the conversion left. *)
Lemma process_step (rv : revision) (color : string) (d : directory) (f : string)
    (rest : list string) (total : nat) :
  let d1 := fst (convertToBWIfNeeded greyscale rv d f color) in
  fst (process greyscale rv color d (f :: rest) total) = d1
  \/ exists used, fst (process greyscale rv color d (f :: rest) total)
                  = fst (process greyscale rv color d1 rest (total + used)).
Proof.
  simpl. destruct (convertToBWIfNeeded greyscale rv d f color) as [d1 [[] | m]]; simpl;
    [| now left].
  destruct (scan_file d1 f) as [used | m]; [right; now exists used | now left].
Qed.

Lemma process_names (rv : revision) (color : string) (d : directory)
    (matched : list string) (total : nat) :
  names (fst (process greyscale rv color d matched total)) = names d.
Proof.
  revert d total. induction matched as [| f rest IH]; intros d total; [reflexivity |].
  destruct (process_step rv color d f rest total) as [-> | (used & ->)].
  - apply convert_names.
  - rewrite IH. apply convert_names.
Qed.

Lemma process_frame (rv : revision) (color : string) (d : directory)
    (matched : list string) (total : nat) (g : string) :
  ~ In g matched ->
  read_file (fst (process greyscale rv color d matched total)) g = read_file d g.
Proof.
  revert d total. induction matched as [| f rest IH]; intros d total Hg; [reflexivity |].
  assert (f <> g) as Hne by (intros ->; apply Hg; now left).
  assert (~ In g rest) as Hrest by (intros H; apply Hg; now right).
  destruct (process_step rv color d f rest total) as [-> | (used & ->)].
  - now apply convert_frame.
  - rewrite (IH _ _ Hrest). now apply convert_frame.
Qed.


(** The store the handler leaves: the one it found, or that one with
    the partition of the request as the loop left it. *)
Lemma calculate_cost_store (rv : revision) (st : store) (req : cost_request) :
  fst (calculate_cost greyscale rv st req) = st
  \/ exists d,
       readdir st (paper req) = Ok d
       /\ fst (calculate_cost greyscale rv st req)
          = write_dir st (paper req)
              (fst (process greyscale rv (color req) d (matched_files rv st req) 0)).
Proof.
  unfold calculate_cost, matched_files.
  destruct (negb (nonempty (paper req)) || negb (nonempty (baseName req)));
    [now left |].
  destruct (selectedPages (pages req)) as [| n ns]; [now left |].
  destruct (readdir st (paper req)) as [d | m]; [| now left].
  destruct (lookup rv (baseName req) (n :: ns) (names d)) as [| f fs]; [now left |].
  right. exists d. split; [reflexivity |].
  destruct (process greyscale rv (color req) d (f :: fs) 0) as [d' [used | m]];
    reflexivity.
Qed.

Lemma readdir_write_dir (st : store) (p : string) (d d' : directory) :
  readdir st p = Ok d -> readdir (write_dir st p d') p = Ok d'.
Proof.
  unfold readdir, write_dir.
  destruct (String.eqb p "letter") eqn:E1; [intros _; simpl; now rewrite ?E1 |].
  destruct (String.eqb p "legal") eqn:E2;
    [intros _; simpl; now rewrite ?E1, ?E2 | discriminate].
Qed.

(** Writing a partition back touches that partition only. *)
Lemma write_dir_parts (st : store) (p : string) (d d' : directory) :
  readdir st p = Ok d ->
  uploadsDir (write_dir st p d') = uploadsDir st
  /\ ((letterCache st = d /\ letterCache (write_dir st p d') = d'
       /\ legalCache (write_dir st p d') = legalCache st /\ p = "letter")
      \/ (legalCache st = d /\ legalCache (write_dir st p d') = d'
          /\ letterCache (write_dir st p d') = letterCache st /\ p = "legal")).
Proof.
  unfold readdir, write_dir.
  destruct (String.eqb_spec p "letter") as [-> | _].
  - intros [= <-]. split; [reflexivity | left]. now repeat split.
  - destruct (String.eqb_spec p "legal") as [-> | _]; [| discriminate].
    intros [= <-]. split; [reflexivity | right]. now repeat split.
Qed.

Lemma calculate_cost_names (rv : revision) (st : store) (req : cost_request) :
  let st' := fst (calculate_cost greyscale rv st req) in
  names (letterCache st') = names (letterCache st)
  /\ names (legalCache st') = names (legalCache st)
  /\ uploadsDir st' = uploadsDir st.
Proof.
  intros st'. subst st'.
  destruct (calculate_cost_store rv st req) as [-> | (d & Hd & ->)];
    [now repeat split |].
  destruct (write_dir_parts st (paper req) d
              (fst (process greyscale rv (color req) d (matched_files rv st req) 0)) Hd)
    as (-> & [(<- & -> & -> & _) | (<- & -> & -> & _)]);
    rewrite process_names; now repeat split.
Qed.

Lemma matched_files_after_cost (rv rv' : revision) (st : store)
    (req req' : cost_request) :
  matched_files rv' (fst (calculate_cost greyscale rv st req)) req'
  = matched_files rv' st req'.
Proof.
  destruct (calculate_cost_names rv st req) as (Hletter & Hlegal & _).
  unfold matched_files, readdir.
  destruct (String.eqb (paper req') "letter"); [now rewrite Hletter |].
  destruct (String.eqb (paper req') "legal"); [now rewrite Hlegal | reflexivity].
Qed.

(** ** A "bw" request under a greyscale conversion that works *)

Hypothesis greyscale_works : forall img, exists grey, greyscale img = Ok grey.

Lemma process_bw_step (rv : revision) (d : directory) (f : string)
    (rest : list string) (total : nat) (img : image) :
  In f (names d) -> read_file d f = Some img ->
  exists grey,
    greyscale img = Ok grey
    /\ process greyscale rv "bw" d (f :: rest) total
       = process greyscale rv "bw" (write_file d f grey) rest
           (total + scanUsedSections grey).
Proof.
  intros Hin Himg. destruct (greyscale_works img) as (grey & Hg).
  exists grey. split; [exact Hg |].
  simpl. unfold convertToBWIfNeeded. simpl. rewrite Himg, Hg. unfold scan_file.
  now rewrite (read_file_write_same d f grey Hin).
Qed.

(** What the loop of a "bw" request leaves: every matched file holds
    its greyscale version, and the bands counted are those of the
    files as they are left. *)
Lemma process_bw_result (rv : revision) (d d' : directory) (matched : list string)
    (total used : nat) :
  NoDup matched -> incl matched (names d) ->
  process greyscale rv "bw" d matched total = (d', Ok used) ->
  used = total + scanned_bands d' matched
  /\ forall f img, In f matched -> read_file d f = Some img ->
       exists grey, greyscale img = Ok grey /\ read_file d' f = Some grey.
Proof.
  intros Hnd. revert d total.
  induction Hnd as [| f rest Hf Hnd IH]; intros d total Hin H.
  - simpl in H. injection H as Hd Hu. subst d' used.
    split; [unfold scanned_bands; simpl; lia | intros f img []].
  - assert (In f (names d)) as Hfd by (apply Hin; now left).
    destruct (read_file_In d f Hfd) as (img0 & Himg0).
    destruct (process_bw_step rv d f rest total img0 Hfd Himg0) as (grey0 & Hg0 & E).
    rewrite E in H.
    assert (incl rest (names (write_file d f grey0))) as Hrest
      by (rewrite names_write_file; intros h Hh; apply Hin; now right).
    destruct (IH _ _ Hrest H) as [Hused Hgrey].
    assert (read_file d' f = Some grey0) as Hleft.
    { replace d' with (fst (process greyscale rv "bw" (write_file d f grey0) rest
                              (total + scanUsedSections grey0))) by (now rewrite H).
      rewrite (process_frame rv "bw" _ rest _ f Hf).
      now apply read_file_write_same. }
    split.
    + change (scanned_bands d' (f :: rest))
        with (match read_file d' f with
              | Some img => scanUsedSections img
              | None => 0
              end + scanned_bands d' rest).
      rewrite Hleft. lia.
    + intros g img [<- | Hg] Himg.
      * exists grey0. split; [congruence | exact Hleft].
      * apply (Hgrey g img Hg).
        rewrite read_file_write_other; [exact Himg |]. intros ->. contradiction.
Qed.

End CostFrame.



(** X7.  A "bw" quote overwrites the pages it matched with their
    greyscale versions, so the cache does not remember their colors.
    When the partition lists no name twice, the greyscale conversion
    succeeds on every page and a "bw" request is answered with usedBands
    bands for pageCount pages, every matched file holds the greyscale
    version of what it held, and a "color" request for the same pages
    that comes next scans those versions: it changes nothing, reports
    the same usedBands and pageCount, and, for a whole number of copies,
    quotes round((10 * pageCount + 0.5 * usedBands) * copies). *)
Theorem greyscale_quote_sticks
    (greyscale : Server.image -> Server.result Server.image)
    (rv : Server.revision) (st st' : Server.store) (b paper pages copies : string)
    (c : Z) (total : JsNumber.number) (usedBands pageCount : nat) :
  let bw := request_for b paper "bw" pages copies in
  let color := request_for b paper "color" pages copies in
  paper = "letter" \/ paper = "legal" ->
  NoDup (Server.names (partition_of st bw)) ->
  (forall img, exists grey, greyscale img = Server.Ok grey) ->
  whole_copies copies c ->
  exact_amounts pageCount c ->
  Server.calculate_cost greyscale rv st bw
  = (st', Server.CostSuccess total usedBands pageCount) ->
  Server.calculate_cost greyscale rv st' color
  = (st', Server.CostSuccess (quote 10 pageCount usedBands (inject_Z c))
            usedBands pageCount)
  /\ forall f img,
       In f (matched_files rv st bw) ->
       Server.read_file (partition_of st bw) f = Some img ->
       exists grey, greyscale img = Server.Ok grey
                    /\ Server.read_file (partition_of st' bw) f = Some grey.
Proof.
  intros bw color _ Hnd Hworks [Hc _] _ H.
  pose proof (matched_files_after_cost greyscale rv rv st bw color) as Hfiles.
  rewrite H in Hfiles. cbn [fst] in Hfiles.
  change (matched_files rv st color) with (matched_files rv st bw) in Hfiles.
  destruct (calculate_cost_success greyscale rv st st' bw total usedBands pageCount H)
    as (Hp & Hb & Hm & Hn & _ & d & d' & Hd & Hprocess & Hst).
  assert (partition_of st bw = d) as Hpart by (unfold partition_of; now rewrite Hd).
  assert (partition_of st' bw = d') as Hpart'.
  { unfold partition_of. rewrite Hst.
    now rewrite (readdir_write_dir st (Server.paper bw) d d' Hd). }
  rewrite Hpart in Hnd.
  assert (NoDup (matched_files rv st bw)) as Hndm
    by (unfold matched_files; rewrite Hd; now apply lookup_NoDup).
  destruct (process_bw_result greyscale Hworks rv d d' (matched_files rv st bw) 0
              usedBands Hndm (matched_files_incl rv st bw d Hd) Hprocess)
    as [Hused Hgrey].
  split.
  - rewrite (calculate_cost_in_color greyscale rv st' color (Qred (inject_Z c)) Hp Hb
               ltac:(rewrite Hfiles; exact Hm) Hc eq_refl).
    change (partition_of st' color) with (partition_of st' bw).
    rewrite Hfiles, Hpart', <- Hn, quote_Qred. simpl in Hused. now rewrite <- Hused.
  - rewrite Hpart, Hpart'. exact Hgrey.
Qed.

Lemma greyscale_quote_sticks_witness :
  let greyscale := fun _ : Server.image => Server.Ok white_page in
  let rv := Server.Ghostscript in
  let st := one_page_store rv red_topped_page in
  let st' := one_page_store rv white_page in
  Server.calculate_cost greyscale rv st (request_for "b" "letter" "color" "1" "2")
  = (st, Server.CostSuccess (JsNumber.of_Z 21) 1 1)
  /\ Server.calculate_cost greyscale rv st (request_for "b" "letter" "bw" "1" "2")
     = (st', Server.CostSuccess (JsNumber.of_Z 10) 0 1)
  /\ Server.calculate_cost greyscale rv st' (request_for "b" "letter" "color" "1" "2")
     = (st', Server.CostSuccess (JsNumber.of_Z 20) 0 1).
Proof.
  intros greyscale rv st st'.
  assert (Server.calculate_cost greyscale rv st (request_for "b" "letter" "bw" "1" "2")
          = (st', Server.CostSuccess (JsNumber.of_Z 10) 0 1)) as Hbw by reflexivity.
  split; [reflexivity |]. split; [exact Hbw |].
  assert (NoDup (Server.names (partition_of st (request_for "b" "letter" "bw" "1" "2"))))
    as Hnd by (repeat constructor; simpl; tauto).
  assert (whole_copies "2" 2) as Hc by (split; [reflexivity | lia]).
  assert (exact_amounts 1 2) as Hexact by (unfold exact_amounts; simpl; lia).
  pose proof (greyscale_quote_sticks greyscale rv st st' "b" "letter" "1" "2" 2
                (JsNumber.of_Z 10) 0 1 (or_introl eq_refl) Hnd
                (fun img => ex_intro _ white_page eq_refl) Hc Hexact Hbw) as [H _].
  exact H.
Defined.

(* ================================================================== *)
(** * The upload endpoint *)
(* ================================================================== *)

Section OriginalSize.
Import JsNumber Server.

Lemma round_is (h : number) (z : Z) :
  strict_equal (Math_round h) (of_Z z) = true ->
  exists q, h = Fin q /\ Qfloor (q + (1 # 2))%Q = z.
Proof.
  destruct h as [| q | |]; unfold Math_round, of_Z, fin, strict_equal;
    try discriminate.
  intros H. exists q. split; [reflexivity |].
  apply Qeq_bool_iff in H. rewrite !Qred_correct in H.
  exact (proj1 (inject_Z_injective _ _) H).
Qed.

Lemma ltb_900 (q : Q) : ltb (of_Z 900) (Fin q) = true <-> (900 < q)%Q.
Proof.
  unfold ltb, of_Z, fin. rewrite Qlt_bool_iff, Qred_correct.
  change (inject_Z 900) with 900%Q. reflexivity.
Qed.

End OriginalSize.

(** X8.  The original size reported for an upload depends on the height
    of the first page only: it is "legal" exactly when that page is more
    than 900 points high, and "letter" otherwise, a height that is not a
    number included.  The two tests for the exact letter and legal sizes
    never change the outcome. *)
Theorem originalSize_by_height (origW origH : JsNumber.number) :
  Server.originalSize_of origW origH
  = if JsNumber.ltb (JsNumber.of_Z 900) origH then "legal" else "letter".
Proof.
  unfold Server.originalSize_of.
  destruct (Server.strict_equal (JsNumber.Math_round origW) (JsNumber.of_Z 612));
    [| reflexivity].
  simpl andb.
  destruct (Server.strict_equal (JsNumber.Math_round origH) (JsNumber.of_Z 792)) eqn:E1.
  - apply round_is in E1 as (q & -> & Hq).
    destruct (JsNumber.ltb (JsNumber.of_Z 900) (JsNumber.Fin q)) eqn:L; [| reflexivity].
    exfalso. apply ltb_900 in L.
    pose proof (Qlt_floor (q + (1 # 2))) as Hup. rewrite Hq in Hup.
    change (inject_Z (792 + 1)) with 793%Q in Hup. lra.
  - destruct (Server.strict_equal (JsNumber.Math_round origH) (JsNumber.of_Z 1008)) eqn:E2;
      [| reflexivity].
    apply round_is in E2 as (q & -> & Hq).
    assert (JsNumber.ltb (JsNumber.of_Z 900) (JsNumber.Fin q) = true) as ->;
      [| reflexivity].
    apply ltb_900. pose proof (Qfloor_le (q + (1 # 2))) as Hlow. rewrite Hq in Hlow.
    change (inject_Z 1008) with 1008%Q in Hlow. lra.
Qed.

Section ClearCache.
Import JsString Server.

Lemma names_clearCache (d : directory) :
  names (clearCache d) = filter (fun f => negb (endsWith f ".png")) (names d).
Proof.
  unfold names, clearCache. induction d as [| [f img] d IH]; simpl; [reflexivity |].
  destruct (endsWith f ".png"); simpl; now rewrite IH.
Qed.

End ClearCache.

(** X9.  [clearCache] removes the entries whose name ends in .png and
    nothing else: the other entries stay, with their content.  Since
    the Ghostscript adapter only returns names that end in .png, no
    page left by an earlier upload can pass for the output of a run on
    a cleared folder: every path the adapter returns names a file that
    was written after the folder was cleared, and a run that writes
    nothing makes the adapter throw. *)
Theorem clearCache_leaves_no_stale_page (d : Server.directory) :
  (forall f, In f (Server.names (Server.clearCache d))
             <-> In f (Server.names d) /\ JsString.endsWith f ".png" = false)
  /\ (forall e, In e d -> JsString.endsWith (fst e) ".png" = false ->
                In e (Server.clearCache d))
  /\ (forall run outDir b files written paths,
        Server.gs_listing run = Server.Ok files ->
        (forall f, In f files ->
                   In f (Server.names (Server.clearCache d)) \/ In f written) ->
        Server.convertPdfToPngsWithGhostscript run outDir b = Server.Ok paths ->
        paths <> []
        /\ forall p, In p paths ->
             exists f, In f written /\ p = Server.path_join outDir f)
  /\ (forall run outDir b,
        Server.gs_listing run = Server.Ok (Server.names (Server.clearCache d)) ->
        exists m, Server.convertPdfToPngsWithGhostscript run outDir b = Server.Throw m).
Proof.
  assert (forall f, In f (Server.names (Server.clearCache d))
                    <-> In f (Server.names d) /\ JsString.endsWith f ".png" = false)
    as Hnames.
  { intros f. rewrite names_clearCache, filter_In, negb_true_iff. reflexivity. }
  split; [exact Hnames |]. split; [| split].
  - intros e He Hpng. apply filter_In. split; [exact He | now rewrite Hpng].
  - intros run outDir b files written paths Hfiles Hfresh Hok.
    apply Ghostscript_adapter_returns in Hok as (_ & Hout & ->).
    split; [now destruct (outputs run b) |].
    intros p Hp. apply in_map_iff in Hp as (f & <- & Hf).
    unfold outputs in Hf. rewrite Hfiles in Hf. apply filter_In in Hf as [Hf Hg].
    exists f. split; [| reflexivity].
    destruct (Hfresh f Hf) as [Hold | Hnew]; [| exact Hnew].
    apply Hnames in Hold as [_ Hpng]. unfold Server.gs_output in Hg.
    rewrite Hpng, andb_false_r in Hg. discriminate.
  - intros run outDir b Hfiles. apply Ghostscript_adapter_throws.
    unfold outputs. rewrite Hfiles. apply filter_none. intros f Hf.
    apply Hnames in Hf as [_ Hpng]. unfold Server.gs_output.
    now rewrite Hpng, andb_false_r.
Qed.

Section UploadName.
Import JsString JsNumber Server.

Lemma every_char_app (p : ascii -> bool) (a b : string) :
  every_char p (a ++ b) = every_char p a && every_char p b.
Proof.
  induction a as [| c a IH]; simpl; [reflexivity |]. now rewrite IH, andb_assoc.
Qed.

Lemma every_char_weaken (p q : ascii -> bool) (s : string) :
  (forall c, p c = true -> q c = true) -> every_char p s = true -> every_char q s = true.
Proof.
  intros Hpq. induction s as [| c s IH]; simpl; [reflexivity |].
  intros H. apply andb_true_iff in H as [Hc Hs]. now rewrite (Hpq c Hc), IH.
Qed.

Lemma every_char_digits (s : string) : every_char is_digit s = all_digits s.
Proof. induction s as [| c s IH]; simpl; [reflexivity |]. now rewrite IH. Qed.

Lemma digit_is_filename_char (c : ascii) : is_digit c = true -> filename_char c = true.
Proof.
  intros H. unfold filename_char, basename_char. rewrite H.
  now rewrite !orb_true_r.
Qed.

Lemma keep_filename_chars_only (s : string) :
  every_char filename_char (keep_filename_chars s) = true.
Proof.
  induction s as [| c s IH]; simpl; [reflexivity |].
  destruct (filename_char c) eqn:E; simpl; [now rewrite E |]. exact IH.
Qed.

Lemma before_last_dot_app (s p : string) :
  before_last_dot s = Some p -> exists e, s = (p ++ String "." e)%string.
Proof.
  revert p. induction s as [| c s IH]; intros p; simpl; [discriminate |].
  destruct (before_last_dot s) as [q |] eqn:E.
  - intros [= <-]. destruct (IH q eq_refl) as (e & ->). now exists e.
  - destruct (Ascii.eqb_spec c ".") as [-> | _]; [| discriminate].
    intros [= <-]. now exists s.
Qed.

Lemma parse_name_chars (p : ascii -> bool) (s : string) :
  every_char p s = true -> every_char p (parse_name s) = true.
Proof.
  intros H. unfold parse_name. destruct (before_last_dot s) as [q |] eqn:E; [| exact H].
  destruct (before_last_dot_app s q E) as (e & ->).
  rewrite every_char_app in H. now apply andb_true_iff in H.
Qed.

Lemma parse_name_head (c : ascii) (r : string) :
  c <> "."%char -> exists r', parse_name (String c r) = String c r'.
Proof.
  intros Hc. unfold parse_name. simpl.
  destruct (before_last_dot r) as [q |]; [now exists q |].
  destruct (Ascii.eqb_spec c "."); [contradiction | now exists r].
Qed.

Lemma includes_dot (c : ascii) (r : string) :
  includes (String c r) "." = Ascii.eqb "." c || includes r ".".
Proof. simpl. destruct r; now rewrite andb_true_r. Qed.

Lemma filename_char_cases (c : ascii) :
  filename_char c = true ->
  (c = "."%char /\ basename_char c = false) \/ (c <> "."%char /\ basename_char c = true).
Proof.
  unfold filename_char. destruct (Ascii.eqb_spec c ".") as [-> | Hne].
  - intros _. left. now split.
  - rewrite orb_false_r. intros H. right. now split.
Qed.

Lemma sanitize_length (s : string) : String.length (sanitize s) <= String.length s.
Proof.
  induction s as [| c s IH]; simpl; [lia |]. destruct (basename_char c); simpl; lia.
Qed.

Lemma sanitize_fixed_iff (s : string) :
  every_char filename_char s = true ->
  (sanitize s = s <-> includes s "." = false).
Proof.
  induction s as [| c s IH]; [now split |].
  intros H. simpl in H. apply andb_true_iff in H as [Hc Hs]. specialize (IH Hs).
  rewrite includes_dot. cbn [sanitize].
  destruct (filename_char_cases c Hc) as [[-> Hb] | [Hne Hb]]; rewrite Hb.
  - simpl. split; [| discriminate]. intros E. exfalso.
    pose proof (sanitize_length s) as Hlen. rewrite E in Hlen. simpl in Hlen. lia.
  - destruct (Ascii.eqb_spec "." c) as [<- | _]; [contradiction |]. simpl.
    rewrite <- IH. split; [now intros [= E] | now intros ->].
Qed.

Lemma sanitize_head (s : string) (h : ascii) (t : string) :
  sanitize s = String h t -> basename_char h = true.
Proof.
  induction s as [| c s IH]; simpl; [discriminate |].
  destruct (basename_char c) eqn:E; [now intros [= <- _] | exact IH].
Qed.

(** A name with a dot is not a prefix the sanitized name can stand
    for: at the first dot the two differ. *)
Lemma dotted_name_escapes (b suffix : string) (c : ascii) (t : string) :
  every_char filename_char b = true -> includes b "." = true -> c <> "."%char ->
  startsWith (b ++ suffix) (sanitize b ++ String c t) = false.
Proof.
  intros Hchars Hdot Hc. induction b as [| a b IH]; [discriminate |].
  simpl in Hchars. apply andb_true_iff in Hchars as [Ha Hb].
  rewrite includes_dot in Hdot. cbn [sanitize].
  destruct (filename_char_cases a Ha) as [[-> Hbase] | [Hne Hbase]]; rewrite Hbase.
  - destruct (sanitize b) as [| h tl] eqn:E; simpl.
    + destruct (Ascii.eqb_spec c "."); [contradiction | reflexivity].
    + pose proof (sanitize_head b h tl E) as Hh.
      destruct (Ascii.eqb_spec h ".") as [-> | _]; [discriminate | reflexivity].
  - destruct (Ascii.eqb_spec "." a) as [<- | _]; [contradiction |].
    simpl in Hdot. simpl. rewrite Ascii.eqb_refl. simpl. now apply IH.
Qed.

Lemma startsWith_app (p s : string) : startsWith (p ++ s) p = true.
Proof.
  induction p as [| c p IH]; simpl; [now destruct s |]. now rewrite Ascii.eqb_refl.
Qed.

Lemma startsWith_app_prefix (p : string) (c : ascii) (rest : string) :
  startsWith (p ++ String c rest) (p ++ String c "") = true.
Proof.
  induction p as [| a p IH]; simpl; rewrite Ascii.eqb_refl; [now destruct rest | exact IH].
Qed.

Lemma doomed_spares_dotted_name (rv : revision) (b suffix : string) :
  every_char filename_char b = true -> includes b "." = true ->
  doomed rv (sanitize b) (b ++ suffix) = false.
Proof.
  intros Hchars Hdot. unfold doomed.
  rewrite !(dotted_name_escapes b suffix _ "" Hchars Hdot) by discriminate.
  now destruct rv.
Qed.

Lemma upload_filename_chars (now : Z) (originalname : string) :
  (0 <= now)%Z -> every_char filename_char (upload_filename now originalname) = true.
Proof.
  intros Hnow. unfold upload_filename.
  rewrite !every_char_app, keep_filename_chars_only.
  assert (every_char filename_char (of_int now) = true) as ->; [| reflexivity].
  apply (every_char_weaken is_digit); [exact digit_is_filename_char |].
  rewrite every_char_digits. now apply of_int_numeral.
Qed.

Lemma upload_basename_nonempty (now : Z) (originalname : string) :
  (0 <= now)%Z -> nonempty (parse_name (upload_filename now originalname)) = true.
Proof.
  intros Hnow. unfold upload_filename.
  set (tail := ("-" ++ keep_filename_chars _)%string).
  destruct (of_int_numeral now Hnow) as [[Hne Hdigits] _].
  destruct (of_int now) as [| c r]; [discriminate |].
  simpl in Hdigits. apply andb_true_iff in Hdigits as [Hc _].
  destruct (parse_name_head c (r ++ tail)) as (r' & E).
  - intros ->. discriminate.
  - change (String c r ++ tail)%string with (String c (r ++ tail)).
    now rewrite E.
Qed.

End UploadName.

(** X10.  The name multer stores an upload under is made of letters,
    digits, underscores, hyphens and dots only, and the basename handed
    back to the client is that name up to its last dot, never empty.
    The sanitizer of /delete-last removes dots: it leaves the basename
    as it is exactly when the basename has no dot.  For such a basename
    the second revision's /delete-last invalidates the upload; for a
    basename with a dot, as an original name like my.report.pdf gives,
    /delete-last works on a different name and removes none of the
    files of the upload, in either revision. *)
Theorem upload_basename_and_delete_last (now : Z) (originalname : string) :
  (0 <= now)%Z ->
  let filename := Server.upload_filename now originalname in
  let b := Server.parse_name filename in
  every_char Server.filename_char filename = true
  /\ JsString.nonempty b = true
  /\ (valid_basename b <-> JsString.includes b "." = false)
  /\ (JsString.includes b "." = false ->
      forall st rv paper color pages copies,
        matched_files rv (fst (Server.delete_last Server.Ghostscript st b))
          (request_for b paper color pages copies) = [])
  /\ (JsString.includes b "." = true ->
      forall rv st suffix,
        let st' := fst (Server.delete_last rv st b) in
        (forall img, In ((b ++ suffix)%string, img) (Server.letterCache st) ->
                     In ((b ++ suffix)%string, img) (Server.letterCache st'))
        /\ (forall img, In ((b ++ suffix)%string, img) (Server.legalCache st) ->
                        In ((b ++ suffix)%string, img) (Server.legalCache st'))
        /\ (In (b ++ suffix)%string (Server.uploadsDir st) ->
            In (b ++ suffix)%string (Server.uploadsDir st'))).
Proof.
  intros Hnow filename b.
  pose proof (upload_filename_chars now originalname Hnow) as Hchars.
  pose proof (upload_basename_nonempty now originalname Hnow) as Hne.
  pose proof (parse_name_chars Server.filename_char _ Hchars) as Hb.
  fold filename in Hchars, Hne, Hb. fold b in Hne, Hb.
  pose proof (sanitize_fixed_iff b Hb) as Hfixed.
  split; [exact Hchars |]. split; [exact Hne |]. split; [| split].
  - unfold valid_basename. rewrite Hfixed. tauto.
  - intros Hdot st rv paper color pages copies.
    assert (valid_basename b) as Hvalid by (split; [exact Hne | now apply Hfixed]).
    now destruct (delete_last_Ghostscript st b Hvalid) as (_ & _ & _ & _ & H).
  - intros Hdot rv st suffix st'. subst st'. unfold Server.delete_last.
    destruct (negb (JsString.nonempty (Server.sanitize b))); [now repeat split |].
    cbn [fst Server.letterCache Server.legalCache Server.uploadsDir].
    assert (forall d img, In ((b ++ suffix)%string, img) d ->
              In ((b ++ suffix)%string, img) (Server.unlink_doomed rv (Server.sanitize b) d))
      as Hkept.
    { intros d img Hin. apply filter_In. split; [exact Hin |]. simpl.
      now rewrite (doomed_spares_dotted_name rv b suffix Hb Hdot). }
    split; [apply Hkept |]. split; [apply Hkept |].
    intros Hin. unfold Server.unlink_name.
    apply filter_In. split; [apply filter_In; split; [exact Hin |] |];
      apply negb_true_iff, String.eqb_neq; intros E;
      pose proof (dotted_name_escapes b suffix "_" "" Hb Hdot ltac:(discriminate)) as Hesc;
      rewrite E, startsWith_app_prefix in Hesc; discriminate.
Qed.

Lemma upload_basename_and_delete_last_witness :
  let b := Server.parse_name (Server.upload_filename 17 "my report.v2.pdf") in
  let st := {| Server.letterCache := [("17-my_report.v2_1.png", white_page)];
               Server.legalCache := [];
               Server.uploadsDir := ["17-my_report.v2_letter.pdf"] |} in
  b = "17-my_report.v2"
  /\ fst (Server.delete_last Server.Ghostscript st b) = st
  /\ In ((b ++ "_1.png")%string, white_page)
       (Server.letterCache (fst (Server.delete_last Server.Ghostscript st b))).
Proof.
  intros b st. split; [reflexivity |]. split; [reflexivity |].
  pose proof (upload_basename_and_delete_last 17 "my report.v2.pdf" ltac:(lia))
    as (_ & _ & _ & _ & H).
  destruct (H eq_refl Server.Ghostscript st "_1.png"%string) as (Hletter & _).
  apply Hletter. now left.
Defined.

Section UploadAnswer.
Import JsString JsNumber Server.

Lemma split_no_separator (sep : ascii) (s : string) :
  every_char (fun c => negb (Ascii.eqb c sep)) s = true -> split sep s = [s].
Proof.
  induction s as [| c s IH]; simpl; [reflexivity |].
  intros H. apply andb_true_iff in H as [Hc Hs].
  apply negb_true_iff in Hc. now rewrite Hc, (IH Hs).
Qed.

Lemma split_ends_with (sep : ascii) (a f : string) :
  every_char (fun c => negb (Ascii.eqb c sep)) f = true ->
  exists h pre, split sep (a ++ String sep f) = (h :: pre) ++ [f].
Proof.
  intros Hf. induction a as [| c a (h & pre & IH)]; simpl.
  - rewrite Ascii.eqb_refl, (split_no_separator sep f Hf). now exists EmptyString, [].
  - rewrite IH. destruct (Ascii.eqb c sep).
    + now exists EmptyString, (h :: pre).
    + now exists (String c h), pre.
Qed.

(** On a name without slash, [path.basename] undoes [path.join]. *)
Lemma path_basename_join (dir f : string) :
  every_char (fun c => negb (Ascii.eqb c "/")) f = true ->
  path_basename (path_join dir f) = f.
Proof.
  intros Hf. unfold path_basename, path_join.
  destruct (split_ends_with "/" dir f Hf) as (h & pre & E).
  change (dir ++ "/" ++ f)%string with (dir ++ String "/" f)%string.
  rewrite E. apply last_last.
Qed.

Lemma image_urls (prefix dir : string) (files : list string) :
  Forall (fun f => every_char (fun c => negb (Ascii.eqb c "/")) f = true) files ->
  map (fun p => (prefix ++ path_basename p)%string) (map (path_join dir) files)
  = map (append prefix) files.
Proof.
  intros H. rewrite map_map. apply map_ext_in. intros f Hf.
  rewrite Forall_forall in H. now rewrite (path_basename_join dir f (H f Hf)).
Qed.

Lemma outputs_plain (run : gs_run) (b : string) :
  (forall files, gs_listing run = Ok files ->
     Forall (fun f => every_char (fun c => negb (Ascii.eqb c "/")) f = true) files) ->
  Forall (fun f => every_char (fun c => negb (Ascii.eqb c "/")) f = true) (outputs run b).
Proof.
  intros H. unfold outputs. destruct (gs_listing run) as [files | m]; [| constructor].
  apply Forall_forall. intros f Hf. apply filter_In in Hf as [Hf _].
  specialize (H files eq_refl). rewrite Forall_forall in H. now apply H.
Qed.

(** What a success of the second revision's [/upload] tells. *)
Lemma upload_success_parts (no_page_message : string) (now : Z)
    (file : option uploaded_file) (pdf : result (list page_size))
    (resized : result unit) (letter legal : gs_run)
    (l g : list string) (n : nat) (size b : string) :
  (forall files, gs_listing letter = Ok files ->
     Forall (fun f => every_char (fun c => negb (Ascii.eqb c "/")) f = true) files) ->
  (forall files, gs_listing legal = Ok files ->
     Forall (fun f => every_char (fun c => negb (Ascii.eqb c "/")) f = true) files) ->
  upload no_page_message now file pdf resized (GhostscriptRuns letter legal)
  = UploadSuccess l g n size b ->
  exists f first rest,
    file = Some f /\ mimetype f = "application/pdf"
    /\ pdf = Ok (first :: rest)
    /\ resized = Ok tt
    /\ non_fatal letter /\ non_fatal legal
    /\ outputs letter b <> [] /\ outputs legal b <> []
    /\ b = parse_name (upload_filename now (originalname f))
    /\ n = S (List.length rest)
    /\ size = originalSize_of (size_width first) (size_height first)
    /\ l = map (append "/cache/letter/") (outputs letter b)
    /\ g = map (append "/cache/legal/") (outputs legal b).
Proof.
  intros Hletter Hlegal. unfold upload.
  destruct file as [f |]; [| discriminate].
  destruct (String.eqb_spec (mimetype f) "application/pdf") as [Hmime | _];
    [| discriminate].
  cbn [negb].
  destruct pdf as [[| first rest] | m]; [discriminate | | discriminate].
  destruct resized as [[] | m]; [| discriminate].
  unfold upload_convert, convert_both, bind.
  destruct (convertPdfToPngsWithGhostscript letter "cache/letter" _)
    as [lp | m] eqn:EL; [| discriminate].
  destruct (convertPdfToPngsWithGhostscript legal "cache/legal" _)
    as [gp | m] eqn:EG; [| discriminate].
  intros [= <- <- <- <- <-].
  apply Ghostscript_adapter_returns in EL as (HL1 & HL2 & ->).
  apply Ghostscript_adapter_returns in EG as (HG1 & HG2 & ->).
  exists f, first, rest.
  rewrite (image_urls "/cache/letter/" "cache/letter" _ (outputs_plain letter _ Hletter)).
  rewrite (image_urls "/cache/legal/" "cache/legal" _ (outputs_plain legal _ Hlegal)).
  now repeat split.
Qed.

End UploadAnswer.

(** X11.  When the second revision's /upload answers with success.  The
    answer is a success exactly when the request carries a file of type
    application/pdf, the stored file loads as a PDF with at least one
    page, both normalized PDFs get written, and Ghostscript settles
    without fatal error and leaves at least one page file of the upload
    in each partition.  The success then reports the number of pages of
    the PDF, the size read off the first page, the basename derived from
    the stored name, and as images the page files found in each
    partition, in listing order, under /cache/letter/ and /cache/legal/.
    Every other request is answered with a failure.  Directory listings
    hold plain names, without slash. *)
Theorem upload_Ghostscript_success (no_page_message : string) (now : Z)
    (file : option Server.uploaded_file) (pdf : Server.result (list Server.page_size))
    (resized : Server.result unit) (letter legal : Server.gs_run)
    (l g : list string) (n : nat) (size b : string) :
  (forall files, Server.gs_listing letter = Server.Ok files ->
     Forall (fun f => every_char (fun c => negb (Ascii.eqb c "/")) f = true) files) ->
  (forall files, Server.gs_listing legal = Server.Ok files ->
     Forall (fun f => every_char (fun c => negb (Ascii.eqb c "/")) f = true) files) ->
  Server.upload no_page_message now file pdf resized (Server.GhostscriptRuns letter legal)
  = Server.UploadSuccess l g n size b
  <-> exists f first rest,
        file = Some f /\ Server.mimetype f = "application/pdf"
        /\ pdf = Server.Ok (first :: rest)
        /\ resized = Server.Ok tt
        /\ non_fatal letter /\ non_fatal legal
        /\ outputs letter b <> [] /\ outputs legal b <> []
        /\ b = Server.parse_name (Server.upload_filename now (Server.originalname f))
        /\ n = S (List.length rest)
        /\ size = Server.originalSize_of (Server.size_width first) (Server.size_height first)
        /\ l = map (append "/cache/letter/") (outputs letter b)
        /\ g = map (append "/cache/legal/") (outputs legal b).
Proof.
  intros Hletter Hlegal. split.
  - now apply upload_success_parts.
  - intros (f & first & rest & -> & Hmime & -> & -> & HL1 & HG1 & HL2 & HG2
            & Hb & -> & -> & -> & ->).
    unfold Server.upload. rewrite Hmime. cbn [negb]. rewrite <- Hb.
    unfold Server.upload_convert, Server.convert_both, Server.bind.
    rewrite (proj2 (Ghostscript_adapter_returns letter "cache/letter" b _)
               (conj HL1 (conj HL2 eq_refl))).
    rewrite (proj2 (Ghostscript_adapter_returns legal "cache/legal" b _)
               (conj HG1 (conj HG2 eq_refl))).
    rewrite (image_urls "/cache/letter/" "cache/letter" _ (outputs_plain letter _ Hletter)).
    rewrite (image_urls "/cache/legal/" "cache/legal" _ (outputs_plain legal _ Hlegal)).
    reflexivity.
Qed.

Lemma upload_Ghostscript_success_witness :
  Server.upload "" 17
    (Some {| Server.originalname := "a.pdf"; Server.mimetype := "application/pdf" |})
    (Server.Ok [letter_page; letter_page]) (Server.Ok tt)
    (Server.GhostscriptRuns two_page_run two_page_run)
  = Server.UploadSuccess
      ["/cache/letter/17-a_1.png"; "/cache/letter/17-a_2.png"]
      ["/cache/legal/17-a_1.png"; "/cache/legal/17-a_2.png"] 2 "letter" "17-a".
Proof.
  assert (forall files, Server.gs_listing two_page_run = Server.Ok files ->
            Forall (fun f => every_char (fun c => negb (Ascii.eqb c "/")) f = true) files)
    as Hplain by (intros files [= <-]; repeat constructor).
  assert (non_fatal two_page_run) as Hrun
    by (exists EmptyString, EmptyString; split; [reflexivity | now left]).
  assert (outputs two_page_run "17-a" <> []) as Hout by (now vm_compute).
  pose proof (upload_Ghostscript_success "" 17
                (Some {| Server.originalname := "a.pdf";
                         Server.mimetype := "application/pdf" |})
                (Server.Ok [letter_page; letter_page]) (Server.Ok tt)
                two_page_run two_page_run
                ["/cache/letter/17-a_1.png"; "/cache/letter/17-a_2.png"]
                ["/cache/legal/17-a_1.png"; "/cache/legal/17-a_2.png"] 2 "letter" "17-a"
                Hplain Hplain) as [_ H].
  apply H.
  exists {| Server.originalname := "a.pdf"; Server.mimetype := "application/pdf" |},
    letter_page, [letter_page].
  split; [reflexivity |]. split; [reflexivity |]. split; [reflexivity |].
  split; [reflexivity |]. split; [exact Hrun |]. split; [exact Hrun |].
  split; [exact Hout |]. split; [exact Hout |].
  repeat split; reflexivity.
Defined.

(* ================================================================== *)
(** * The ledger endpoints and their clients *)
(* ================================================================== *)

Section LedgerFacts.
Import JsString JsNumber App Server.

Lemma among_In (allowed : list string) (s : string) :
  among allowed (Str s) = true <-> In s allowed.
Proof.
  unfold among. rewrite existsb_exists. split.
  - intros (x & Hx & E). apply String.eqb_eq in E. now subst.
  - intros H. exists s. split; [exact H | apply String.eqb_refl].
Qed.

Lemma status_allowed (Status : value) :
  In (match Status with
      | Str s => if among allowedStatuses (Str s) then s else "pending"
      | _ => "pending"
      end) allowedStatuses.
Proof.
  destruct Status as [| | b | s | n]; try (now left).
  destruct (among allowedStatuses (Str s)) eqn:E; [now apply among_In | now left].
Qed.

Lemma digit_is_pages_char (c : ascii) : is_digit c = true -> pages_char c = true.
Proof. intros H. unfold pages_char. now rewrite H. Qed.

Lemma all_pages_chars_app (a b : string) :
  all_pages_chars (a ++ b) = all_pages_chars a && all_pages_chars b.
Proof.
  induction a as [| c a IH]; simpl; [reflexivity |]. now rewrite IH, andb_assoc.
Qed.

Lemma all_pages_chars_digits (s : string) :
  all_digits s = true -> all_pages_chars s = true.
Proof.
  induction s as [| c s IH]; simpl; [reflexivity |].
  intros H. apply andb_true_iff in H as [Hc Hs].
  now rewrite (digit_is_pages_char c Hc), IH.
Qed.

Lemma pages_field_pattern (l : list Z) :
  l <> [] -> Forall (fun z => (0 <= z)%Z) l -> pages_pattern (pages_field l) = true.
Proof.
  intros Hne Hl. unfold pages_pattern, pages_field, join. apply andb_true_iff.
  induction Hl as [| z rest Hz Hrest IH]; [contradiction |].
  destruct (of_int_numeral z Hz) as [[Hnz Hdz] _].
  destruct rest as [| z' rest'].
  - simpl. split; [exact Hnz | now apply all_pages_chars_digits].
  - destruct (IH ltac:(discriminate)) as [_ IH2].
    change (String.concat "," (map of_int (z :: z' :: rest')))
      with (of_int z ++ "," ++ String.concat "," (map of_int (z' :: rest')))%string.
    split.
    + destruct (of_int z); [discriminate | reflexivity].
    + rewrite !all_pages_chars_app, (all_pages_chars_digits _ Hdz), IH2. reflexivity.
Qed.

End LedgerFacts.

(** X12.  No row reaches the INSERT of /transaction/create unless it
    passed every check: whenever the endpoint answers with a new id, the
    row that was inserted has a date the runtime parses, an amount that
    is a number and not negative, a copy count that is a number and at
    least 1, a color among bw and color, a page text made of digits,
    commas, hyphens and white space only and not empty, a paper size
    among letter and legal, a file path of at most 200 characters, and
    a status among the four allowed ones. *)
Theorem transaction_create_validated (date_parses : Server.value -> bool)
    (insert_row : Server.transaction_row -> Server.result Z)
    (body : Server.transaction_draft) (id : Z) :
  Server.transaction_create date_parses insert_row body = Server.LedgerCreated id ->
  exists row,
    Server.validate_transaction date_parses body = Server.Ok row
    /\ insert_row row = Server.Ok id
    /\ Server.truthy (Server.row_Date row) = true
    /\ date_parses (Server.row_Date row) = true
    /\ JsNumber.isNaN (Server.row_Amount row) = false
    /\ JsNumber.ltb (Server.row_Amount row) (JsNumber.of_Z 0) = false
    /\ JsNumber.isNaN (Server.row_Copies row) = false
    /\ JsNumber.ltb (Server.row_Copies row) (JsNumber.of_Z 1) = false
    /\ In (Server.row_Color row) Server.allowedColors
    /\ Server.pages_pattern (Server.row_Pages row) = true
    /\ In (Server.row_Paper_Size row) Server.allowedSizes
    /\ String.length (Server.row_File_Path row) <= 200
    /\ In (Server.row_Status row) Server.allowedStatuses.
Proof.
  unfold Server.transaction_create.
  destruct (Server.validate_transaction date_parses body) as [row | m] eqn:V;
    [| discriminate].
  destruct (insert_row row) as [id' | m] eqn:I; [| discriminate].
  intros [= <-]. exists row. split; [reflexivity |]. split; [exact I |].
  revert V. unfold Server.validate_transaction.
  destruct (Server.truthy (Server.draft_Date body)) eqn:Ht; [| discriminate].
  destruct (date_parses (Server.draft_Date body)) eqn:Hd; [| discriminate].
  cbn [orb negb].
  destruct (JsNumber.isNaN (Server.to_number (Server.draft_Copies body))) eqn:Hc1;
    [discriminate |].
  destruct (JsNumber.ltb (Server.to_number (Server.draft_Copies body)) (JsNumber.of_Z 1))
    eqn:Hc2; [discriminate |].
  cbn [orb negb].
  destruct (Server.draft_Color body) as [| | ? | Color | ?]; try discriminate.
  destruct (Server.among Server.allowedColors (Server.Str Color)) eqn:Hcol;
    [| discriminate].
  cbn [negb].
  destruct (Server.draft_Pages body) as [| | ? | Pages | ?]; try discriminate.
  destruct (Server.pages_pattern Pages) eqn:Hp; [| discriminate].
  cbn [negb].
  destruct (Server.draft_Paper_Size body) as [| | ? | Paper | ?]; try discriminate.
  destruct (Server.among Server.allowedSizes (Server.Str Paper)) eqn:Hs; [| discriminate].
  cbn [negb].
  destruct (Server.draft_File_Path body) as [| | ? | Path | ?]; try discriminate.
  destruct (Nat.ltb_spec 200 (String.length Path)) as [| Hlen]; [discriminate |].
  intros [= <-]. cbn [Server.row_Date Server.row_Amount Server.row_Color Server.row_Pages
    Server.row_Copies Server.row_Paper_Size Server.row_File_Path Server.row_Status].
  repeat split; try assumption.
  - destruct (JsNumber.isNaN (Server.to_number (Server.draft_Amount body))) eqn:Ha1;
      [reflexivity |].
    cbn [orb].
    destruct (JsNumber.ltb (Server.to_number (Server.draft_Amount body)) (JsNumber.of_Z 0));
      [reflexivity | exact Ha1].
  - destruct (JsNumber.isNaN (Server.to_number (Server.draft_Amount body))) eqn:Ha1;
      [reflexivity |].
    cbn [orb].
    destruct (JsNumber.ltb (Server.to_number (Server.draft_Amount body)) (JsNumber.of_Z 0))
      eqn:Ha2; [reflexivity | exact Ha2].
  - now apply among_In.
  - now apply among_In.
  - apply status_allowed.
Qed.

Lemma transaction_create_validated_witness :
  exists row,
    Server.validate_transaction (fun _ => true) sample_draft = Server.Ok row
    /\ Server.row_Copies row = JsNumber.of_Z 2
    /\ In (Server.row_Status row) Server.allowedStatuses.
Proof.
  destruct (transaction_create_validated (fun _ => true) (fun _ => Server.Ok 7%Z)
              sample_draft 7 eq_refl)
    as (row & Hrow & _ & _ & _ & _ & _ & _ & _ & _ & _ & _ & _ & Hstatus).
  exists row. split; [exact Hrow |]. split; [| exact Hstatus].
  injection Hrow as <-. reflexivity.
Defined.

(** X13.  The request the proceed button sends is one the ledger
    accepts.  The button sends a request only when an upload is there
    and the selection is not empty; the page text of the request is the
    selection joined by commas, which the check of /transaction/create
    on the pages never refuses and which the cost endpoint later reads
    back as the selected pages.  When the date parses, the copies field
    holds a number that is at least 1, and color and paper size have
    one of the values the form offers, the request passes every check,
    and the row is inserted with amount 0 and status pending. *)
Theorem proceed_draft_is_accepted (date_parses : Server.value -> bool)
    (base : string) (ui : App.ui_state) (now_iso copies : string)
    (draft : Server.transaction_draft) :
  (0 <= App.ui_totalPages ui)%Z ->
  Checkout.proceed_click base ui now_iso copies = Server.Ok draft ->
  let selected :=
    fst (App.getSelectedPages (App.ui_pageMode ui) (App.ui_pagesInput ui)
           (App.ui_totalPages ui)) in
  selected <> [] /\ JsString.nonempty base = true
  /\ Server.draft_Pages draft = Server.Str (App.pages_field selected)
  /\ Server.pages_pattern (App.pages_field selected) = true
  /\ Server.selectedPages (App.pages_field selected) = map JsNumber.of_Z selected
  /\ Server.validate_transaction date_parses draft
     <> Server.Throw "Invalid page selection."
  /\ (JsString.nonempty now_iso = true ->
      date_parses (Server.Str now_iso) = true ->
      JsNumber.isNaN (JsNumber.Number copies) = false ->
      JsNumber.ltb (JsNumber.Number copies) (JsNumber.of_Z 1) = false ->
      In (App.ui_color ui) Server.allowedColors ->
      In (App.ui_paper ui) Server.allowedSizes ->
      String.length base <= 200 ->
      Server.validate_transaction date_parses draft
      = Server.Ok {| Server.row_Date := Server.Str now_iso;
                     Server.row_Amount := JsNumber.of_Z 0;
                     Server.row_Color := App.ui_color ui;
                     Server.row_Pages := App.pages_field selected;
                     Server.row_Copies := JsNumber.Number copies;
                     Server.row_Paper_Size := App.ui_paper ui;
                     Server.row_File_Path := base;
                     Server.row_File_Size := Server.Str "0";
                     Server.row_Status := "pending" |}).
Proof.
  intros HN Hclick selected. unfold Checkout.proceed_click in Hclick.
  destruct (JsString.nonempty base) eqn:Hbase; [| discriminate].
  cbn [negb] in Hclick. fold selected in Hclick.
  assert (1 <= App.ui_totalPages ui)%Z as HN1.
  { destruct (Z.eqb_spec (App.ui_totalPages ui) 0) as [E | E]; [| lia].
    exfalso. subst selected. unfold App.getSelectedPages in Hclick.
    rewrite E in Hclick. discriminate. }
  pose proof (getSelectedPages_sound (App.ui_pageMode ui) (App.ui_pagesInput ui)
                (App.ui_totalPages ui) HN1) as [_ Hbounds].
  fold selected in Hbounds.
  assert (Forall (fun z => (0 <= z)%Z) selected) as Hpos.
  { apply Forall_forall. intros x Hx. pose proof (Hbounds x Hx). lia. }
  assert (selected <> []) as Hne by (intros E; rewrite E in Hclick; discriminate).
  pose proof (pages_field_pattern selected Hne Hpos) as Hpattern.
  assert (draft
          = {| Server.draft_Date := Server.Str now_iso;
               Server.draft_Amount := Server.Num (JsNumber.of_Z 0);
               Server.draft_Color := Server.Str (App.ui_color ui);
               Server.draft_Pages := Server.Str (App.pages_field selected);
               Server.draft_Copies := Server.Str copies;
               Server.draft_Paper_Size := Server.Str (App.ui_paper ui);
               Server.draft_File_Path := Server.Str base;
               Server.draft_File_Size := Server.Str "0";
               Server.draft_Status := Server.Str "pending" |}) as ->.
  { destruct selected; [contradiction | now injection Hclick]. }
  split; [exact Hne |]. split; [reflexivity |]. split; [reflexivity |].
  split; [exact Hpattern |].
  split; [now apply selectedPages_pages_field |].
  unfold Server.validate_transaction.
  cbn [Server.draft_Date Server.draft_Amount Server.draft_Color Server.draft_Pages
       Server.draft_Copies Server.draft_Paper_Size Server.draft_File_Path
       Server.draft_File_Size Server.draft_Status Server.to_number Server.truthy].
  rewrite Hpattern. cbn [negb].
  split.
  - destruct (negb (JsString.nonempty now_iso) || negb (date_parses (Server.Str now_iso)));
      [discriminate |].
    destruct (JsNumber.isNaN (JsNumber.Number copies)
              || JsNumber.ltb (JsNumber.Number copies) (JsNumber.of_Z 1));
      [discriminate |].
    destruct (negb (Server.among Server.allowedColors (Server.Str (App.ui_color ui))));
      [discriminate |].
    destruct (negb (Server.among Server.allowedSizes (Server.Str (App.ui_paper ui))));
      [discriminate |].
    destruct (200 <? String.length base)%nat; discriminate.
  - intros Hiso Hdate Hc1 Hc2 Hcolor Hpaper Hlen.
    rewrite Hiso, Hdate, Hc1, Hc2. cbn [negb orb].
    rewrite (proj2 (among_In _ _) Hcolor), (proj2 (among_In _ _) Hpaper). cbn [negb].
    destruct (Nat.ltb_spec 200 (String.length base)) as [| _]; [lia |].
    reflexivity.
Qed.

Lemma proceed_draft_is_accepted_witness :
  Server.validate_transaction (fun _ => true) sample_draft
  <> Server.Throw "Invalid page selection.".
Proof.
  pose proof (proceed_draft_is_accepted (fun _ => true) "17-a" sample_ui
                "2024-05-01T10:00:00.000Z" "2" sample_draft ltac:(simpl; lia) eq_refl)
    as (_ & _ & _ & _ & _ & H & _).
  exact H.
Defined.

(** X14.  The buttons of the cost page and what they make the ledger
    store.  The amount due is the total of the cost answer when that is
    a finite number, and 0 when the answer is a failure or carries a
    total that is not finite.  The print button holds the request back
    exactly when the payment field reads as a number below the amount
    due: a payment that does not read as a number is never held back.
    When the request goes out, /transaction/update stores the amount due
    and the status printing for the id of the page; the cancel button
    makes it store amount 0 and status cancelled, and asks /delete-last
    for the basename of the page. *)
Theorem cost_page_buttons (id : Server.value) (payment baseName : string)
    (answer : Server.cost_response) :
  let totalCost := CostPage.receive_cost CostPage.initial_totalCost answer in
  let due := Server.to_number totalCost in
  due = match answer with
        | Server.CostSuccess (JsNumber.Fin q) _ _ => JsNumber.Fin q
        | _ => JsNumber.of_Z 0
        end
  /\ (CostPage.print_click id payment totalCost = None
      <-> JsNumber.ltb (JsNumber.Number payment) due = true)
  /\ (JsNumber.isNaN (JsNumber.Number payment) = true ->
      CostPage.print_click id payment totalCost
      = Some (id, totalCost, Server.Str "printing"))
  /\ (forall i a s,
        CostPage.print_click id payment totalCost = Some (i, a, s) ->
        Server.update_parameters i a s = (due, "printing", id))
  /\ (let '((i, a, s), b) := CostPage.cancel_click id baseName in
      Server.update_parameters i a s = (JsNumber.of_Z 0, "cancelled", id)
      /\ b = baseName).
Proof.
  intros totalCost due.
  assert (due = match answer with
                | Server.CostSuccess (JsNumber.Fin q) _ _ => JsNumber.Fin q
                | _ => JsNumber.of_Z 0
                end) as Hdue
    by (subst due totalCost; now destruct answer as [m | [| q | |] u n]).
  assert (JsNumber.isNaN due = false) as Hnum
    by (rewrite Hdue; now destruct answer as [m | [| q | |] u n]).
  split; [exact Hdue |]. unfold CostPage.print_click, CostPage.underpaid. fold due.
  split; [| split; [| split]].
  - destruct (JsNumber.ltb (JsNumber.Number payment) due); split;
      try reflexivity; discriminate.
  - intros Hnan. destruct (JsNumber.Number payment); try discriminate. reflexivity.
  - intros i a s. destruct (JsNumber.ltb (JsNumber.Number payment) due); [discriminate |].
    intros [= <- <- <-]. unfold Server.update_parameters. fold due. now rewrite Hnum.
  - split; reflexivity.
Qed.

Section Placement.
Import JsNumber Server.

Lemma resize_page_Pdf2Pic (tw th w h : Q) (index : nat) :
  let p := resize_page Pdf2Pic (fin tw) (fin th) index
             {| size_width := fin w; size_height := fin h |} in
  centred_at_top p
  /\ new_width p = fin tw /\ new_height p = fin th /\ drawn_source p = index
  /\ draw_width (drawn_options p) = fin w /\ draw_height (drawn_options p) = fin h.
Proof.
  intros p. subst p. unfold centred_at_top. cbn -[fin of_Z add sub div].
  split; [| now repeat split]. split.
  - cbv [of_Z sub neg fin add div].
    assert (Qeq_bool (Qred (inject_Z 2)) 0 = false) as -> by reflexivity.
    f_equal. apply Qred_complete.
    rewrite !Qred_correct. change (inject_Z 2) with 2%Q. field.
  - cbv [sub neg fin add]. f_equal. apply Qred_complete.
    rewrite !Qred_correct. ring.
Qed.

End Placement.

(** X15.  The first revision's [resizePDF] places the pages without
    scaling them.  For source pages and a target whose sizes are whole
    numbers of points up to 2^50, the new document has as many pages as
    the source, in the same order, each of the target size and showing
    its source page in the size the source page has, centred between the
    left and the right edge and with its top edge on the top edge of the
    new page. *)
Theorem resizePDF_Pdf2Pic_places_pages (sizes : list (Z * Z)) (tw th : Z) :
  Forall (fun s => (0 <= fst s <= 2 ^ 50)%Z /\ (0 <= snd s <= 2 ^ 50)%Z) sizes ->
  (0 <= tw <= 2 ^ 50)%Z -> (0 <= th <= 2 ^ 50)%Z ->
  let pages := map (fun s => {| Server.size_width := JsNumber.of_Z (fst s);
                                Server.size_height := JsNumber.of_Z (snd s) |}) sizes in
  let result :=
    Server.resizePDF Server.Pdf2Pic pages (JsNumber.of_Z tw) (JsNumber.of_Z th) in
  List.length result = List.length sizes
  /\ map Server.drawn_source result = seq 0 (List.length sizes)
  /\ Forall (fun p => Server.new_width p = JsNumber.of_Z tw
                      /\ Server.new_height p = JsNumber.of_Z th) result
  /\ Forall centred_at_top result
  /\ map (fun p => (Server.draw_width (Server.drawn_options p),
                    Server.draw_height (Server.drawn_options p))) result
     = map (fun s => (JsNumber.of_Z (fst s), JsNumber.of_Z (snd s))) sizes.
Proof.
  intros _ _ _ pages result. subst pages result. unfold Server.resizePDF.
  generalize 0 as index.
  induction sizes as [| [w h] rest IH]; intros index; cbn [map Server.resize_pages].
  - repeat split; constructor.
  - destruct (resize_page_Pdf2Pic (inject_Z tw) (inject_Z th) (inject_Z w) (inject_Z h)
                index) as (Hc & Hw & Hh & Hs & Hdw & Hdh).
    destruct (IH (index + 1)) as (Hlen & Hsrc & Hsize & Hcent & Hdrawn).
    cbn [fst snd List.length map seq].
    change (JsNumber.fin (inject_Z tw)) with (JsNumber.of_Z tw) in *.
    change (JsNumber.fin (inject_Z th)) with (JsNumber.of_Z th) in *.
    change (JsNumber.fin (inject_Z w)) with (JsNumber.of_Z w) in *.
    change (JsNumber.fin (inject_Z h)) with (JsNumber.of_Z h) in *.
    split; [now rewrite Hlen |].
    split; [rewrite Hs, Hsrc; now replace (index + 1) with (S index) by lia |].
    split; [constructor; [now split | exact Hsize] |].
    split; [constructor; [exact Hc | exact Hcent] |].
    now rewrite Hdw, Hdh, Hdrawn.
Qed.

Lemma resizePDF_Pdf2Pic_places_pages_witness :
  let result :=
    Server.resizePDF Server.Pdf2Pic
      [{| Server.size_width := JsNumber.of_Z 595; Server.size_height := JsNumber.of_Z 842 |};
       {| Server.size_width := JsNumber.of_Z 612; Server.size_height := JsNumber.of_Z 792 |}]
      (JsNumber.of_Z 612) (JsNumber.of_Z 1008) in
  List.length result = 2
  /\ map Server.drawn_source result = [0; 1]
  /\ Forall centred_at_top result.
Proof.
  intros result.
  assert (Forall (fun s => (0 <= fst s <= 2 ^ 50)%Z /\ (0 <= snd s <= 2 ^ 50)%Z)
            [(595, 842); (612, 792)]%Z) as Hsizes
    by (repeat constructor; simpl; lia).
  pose proof (resizePDF_Pdf2Pic_places_pages [(595, 842); (612, 792)]%Z 612 1008
                Hsizes ltac:(lia) ltac:(lia)) as (Hlen & Hsrc & _ & Hcent & _).
  split; [exact Hlen |]. split; [exact Hsrc | exact Hcent].
Defined.

(* ================================================================== *)
(** * From the selection to the quote *)
(* ================================================================== *)

Section SelectionToQuote.
Import JsString JsNumber App Server.

Lemma remove_first_unfold (s p : string) :
  remove_first s p
  = if startsWith s p
    then substring (String.length p) (String.length s - String.length p) s
    else match s with
         | String c r => String c (remove_first r p)
         | EmptyString => EmptyString
         end.
Proof. destruct s; reflexivity. Qed.

Lemma substring_all (s : string) : substring 0 (String.length s) s = s.
Proof. induction s as [| c s IH]; simpl; [reflexivity | now rewrite IH]. Qed.

Lemma substring_skip (p s : string) :
  substring (String.length p) (String.length s) (p ++ s) = s.
Proof. induction p as [| c p IH]; simpl; [apply substring_all | exact IH]. Qed.

Lemma length_app (p s : string) :
  String.length (p ++ s) = String.length p + String.length s.
Proof. induction p as [| c p IH]; simpl; [reflexivity | now rewrite IH]. Qed.

Lemma remove_first_prefix (p s : string) : remove_first (p ++ s) p = s.
Proof.
  rewrite remove_first_unfold, startsWith_app, length_app.
  replace (String.length p + String.length s - String.length p)
    with (String.length s) by lia.
  apply substring_skip.
Qed.

Lemma remove_first_png (d : string) :
  all_digits d = true -> remove_first (d ++ ".png") ".png" = d.
Proof.
  induction d as [| c d IH]; [reflexivity |].
  intros H. simpl in H. apply andb_true_iff in H as [Hc Hd].
  change (String c d ++ ".png")%string with (String c (d ++ ".png")).
  rewrite remove_first_unfold.
  assert (startsWith (String c (d ++ ".png")) ".png" = false) as ->.
  { cbn [startsWith].
    destruct (Ascii.eqb_spec "." c) as [<- | _]; [discriminate | reflexivity]. }
  now rewrite (IH Hd).
Qed.

Lemma append_assoc (a b c : string) : ((a ++ b) ++ c = a ++ b ++ c)%string.
Proof. induction a as [| x a IH]; simpl; [reflexivity | now rewrite IH]. Qed.

Lemma page_file_prefix (rv : revision) (b : string) (n : Z) :
  startsWith (page_file rv b n) (b ++ separator rv) = true.
Proof. unfold page_file. rewrite <- append_assoc. apply startsWith_app. Qed.

Lemma page_index_page_file (rv : revision) (b : string) (n : Z) :
  (0 <= n)%Z -> page_index rv b (page_file rv b n) = of_Z n.
Proof.
  intros Hn. unfold page_index, page_file. rewrite <- append_assoc.
  rewrite remove_first_prefix.
  destruct (of_int_numeral n Hn) as [Hnum Hval].
  rewrite (remove_first_png _ (proj2 Hnum)), (Number_numeral _ Hnum). now rewrite Hval.
Qed.

Lemma of_Z_injective (m n : Z) : of_Z m = of_Z n -> m = n.
Proof.
  intros H. apply inject_Z_injective.
  rewrite <- (Qred_correct (inject_Z m)), <- (Qred_correct (inject_Z n)).
  assert (Qred (inject_Z m) = Qred (inject_Z n)) as ->
    by (unfold of_Z, fin in H; congruence).
  reflexivity.
Qed.

Lemma array_includes_of_Z (sel : list Z) (n : Z) :
  array_includes (map of_Z sel) (of_Z n) = true <-> In n sel.
Proof.
  unfold array_includes. rewrite existsb_exists. split.
  - intros (x & Hx & E). apply in_map_iff in Hx as (m & <- & Hm).
    unfold same_value_zero, of_Z, fin in E. apply Qeq_bool_iff in E.
    rewrite !Qred_correct in E. apply (proj1 (inject_Z_injective _ _)) in E.
    now subst.
  - intros H. exists (of_Z n). split; [now apply in_map |].
    unfold same_value_zero, of_Z, fin. apply Qeq_bool_iff. reflexivity.
Qed.

Lemma page_file_injective (rv : revision) (b : string) (m n : Z) :
  (0 <= m)%Z -> (0 <= n)%Z -> page_file rv b m = page_file rv b n -> m = n.
Proof.
  intros Hm Hn E. apply of_Z_injective.
  rewrite <- (page_index_page_file rv b m Hm), <- (page_index_page_file rv b n Hn).
  now rewrite E.
Qed.

Lemma NoDup_page_files (rv : revision) (b : string) (l : list Z) :
  Forall (fun z => (0 <= z)%Z) l -> NoDup l -> NoDup (map (page_file rv b) l).
Proof.
  intros Hpos Hnd. induction Hnd as [| x l Hx Hnd IH]; [constructor |].
  inversion Hpos as [| ? ? Hx0 Hl]; subst. simpl. constructor; [| now apply IH].
  intros Hin. apply in_map_iff in Hin as (y & E & Hy). apply Hx.
  rewrite Forall_forall in Hl.
  now rewrite (page_file_injective rv b x y Hx0 (Hl y Hy) (eq_sym E)).
Qed.

(** The lookup on the cache of an upload of [N] pages: it finds the
    files of the selected pages, each once. *)
Lemma lookup_selected (rv : revision) (b : string) (N : Z) (sel : list Z)
    (files : list string) :
  Permutation files (map (page_file rv b) (page_numbers N)) ->
  NoDup sel -> (forall x, In x sel -> (1 <= x <= N)%Z) ->
  Permutation (lookup rv b (map of_Z sel) files) (map (page_file rv b) sel).
Proof.
  intros Hfiles Hnd Hbounds.
  assert (Forall (fun z => (0 <= z)%Z) sel) as Hpos
    by (apply Forall_forall; intros x Hx; pose proof (Hbounds x Hx); lia).
  rewrite lookup_perm. apply NoDup_Permutation.
  - apply NoDup_filter. apply (Permutation_NoDup (Permutation_sym Hfiles)).
    apply NoDup_page_files; [| apply page_numbers_NoDup].
    apply Forall_forall. intros x Hx. apply page_numbers_In in Hx. lia.
  - now apply NoDup_page_files.
  - intros f. unfold candidates. rewrite filter_In, in_map_iff. split.
    + intros [Hf Hp]. apply (Permutation_in _ Hfiles) in Hf.
      apply in_map_iff in Hf as (n & <- & Hn). apply page_numbers_In in Hn.
      exists n. split; [reflexivity |].
      apply andb_true_iff in Hp as [_ Hp].
      rewrite page_index_page_file in Hp by lia. now apply array_includes_of_Z.
    + intros (n & <- & Hn). pose proof (Hbounds n Hn) as Hb. split.
      * apply (Permutation_in _ (Permutation_sym Hfiles)).
        apply in_map. now apply page_numbers_In.
      * rewrite page_file_prefix, page_index_page_file by lia.
        now apply array_includes_of_Z.
Qed.

End SelectionToQuote.

(* ================================================================== *)
(** * The order of the lookup *)
(* ================================================================== *)

Section LookupOrder.
Import JsString JsNumber Server.



End LookupOrder.




(** X16.  From the selection to the quote.  When the cache partition
    holds the page images of an upload of N pages under the names
    <basename><separator><page>.png, pages numbered from 1 as the
    Ghostscript output pattern numbers them, and the client asks for a
    quote with the page text of a selection that is not empty, the
    lookup finds exactly the images of the selected pages, each once,
    in ascending page order whatever the order of the selection; so the
    "color" quote counts as many pages as were selected:
    round((10 * selected + 0.5 * usedBands) * copies). *)
Theorem quote_counts_selected_pages
    (greyscale : Server.image -> Server.result Server.image)
    (rv : Server.revision) (st : Server.store) (d : Server.directory)
    (b paper copies mode input : string) (N c : Z) :
  (1 <= N)%Z ->
  JsString.nonempty b = true ->
  Server.readdir st paper = Server.Ok d ->
  Permutation (Server.names d) (map (page_file rv b) (App.page_numbers N)) ->
  whole_copies copies c ->
  let selected := fst (App.getSelectedPages mode input N) in
  let req := request_for b paper "color" (App.pages_field selected) copies in
  selected <> [] ->
  exact_amounts (List.length selected) c ->
  Permutation (matched_files rv st req) (map (page_file rv b) selected)
  /\ StronglySorted (key_le (Server.page_index rv b)) (matched_files rv st req)
  /\ Server.calculate_cost greyscale rv st req
     = (st, Server.CostSuccess
              (quote 10 (List.length selected) (scanned_bands d (matched_files rv st req))
                 (inject_Z c))
              (scanned_bands d (matched_files rv st req))
              (List.length selected)).
Proof.
  intros HN Hb Hd Hfiles [Hc _] selected req Hne _.
  destruct (getSelectedPages_sound mode input N HN) as [Hnd Hbounds].
  fold selected in Hnd, Hbounds.
  assert (Forall (fun z => (0 <= z)%Z) selected) as Hpos
    by (apply Forall_forall; intros x Hx; pose proof (Hbounds x Hx); lia).
  assert (matched_files rv st req
          = Server.lookup rv b (map JsNumber.of_Z selected) (Server.names d)) as Hm.
  { unfold matched_files, req, request_for. cbn [Server.paper Server.baseName Server.pages].
    now rewrite Hd, (selectedPages_pages_field selected Hne Hpos). }
  pose proof (lookup_selected rv b N selected (Server.names d) Hfiles Hnd Hbounds) as Hperm.
  rewrite <- Hm in Hperm.
  assert (List.length (matched_files rv st req) = List.length selected) as Hlen
    by (rewrite (Permutation_length Hperm); apply length_map).
  split; [exact Hperm |]. split.
  - rewrite Hm. apply lookup_sorted_le. apply Forall_forall.
    intros m Hin. apply in_map_iff in Hin as (z & <- & _). reflexivity.
  - assert (JsString.nonempty paper = true) as Hp.
    { unfold Server.readdir in Hd.
      destruct (String.eqb_spec paper "letter") as [-> | _]; [reflexivity |].
      destruct (String.eqb_spec paper "legal") as [-> | _]; [reflexivity | discriminate]. }
    assert (matched_files rv st req <> []) as Hmne.
    { intros E. rewrite E in Hlen. destruct selected; [contradiction | discriminate]. }
    rewrite (calculate_cost_in_color greyscale rv st req (Qred (inject_Z c)) Hp Hb Hmne
               Hc eq_refl).
    unfold partition_of. cbn [req request_for Server.paper]. rewrite Hd.
    now rewrite Hlen, quote_Qred.
Qed.

Lemma quote_counts_selected_pages_witness :
  Server.calculate_cost (fun img => Server.Ok img) Server.Ghostscript two_page_store
    (request_for "b" "letter" "color" "1,2" "1")
  = (two_page_store, Server.CostSuccess (JsNumber.of_Z 21) 1 2).
Proof.
  assert (Permutation (Server.names (Server.letterCache two_page_store))
            (map (page_file Server.Ghostscript "b") (App.page_numbers 2))) as Hfiles
    by (apply perm_swap).
  assert (whole_copies "1" 1) as Hc by (split; [reflexivity | lia]).
  assert (exact_amounts (List.length (fst (App.getSelectedPages "all" "" 2))) 1) as Hexact
    by (unfold exact_amounts; simpl; lia).
  pose proof (quote_counts_selected_pages (fun img => Server.Ok img) Server.Ghostscript
                two_page_store (Server.letterCache two_page_store)
                "b" "letter" "1" "all" "" 2 1
                ltac:(lia) eq_refl eq_refl Hfiles Hc ltac:(discriminate) Hexact)
    as (_ & _ & H).
  exact H.
Defined.

(* ================================================================== *)
(** * From the upload to the preview *)
(* ================================================================== *)

Section UploadToPreview.
Import JsString JsNumber App Server.

Lemma originalSize_cases (w h : number) :
  originalSize_of w h = "letter" \/ originalSize_of w h = "legal".
Proof.
  unfold originalSize_of.
  destruct (strict_equal (Math_round w) (of_Z 612) && strict_equal (Math_round h) (of_Z 792));
    [now left |].
  destruct (strict_equal (Math_round w) (of_Z 612) && strict_equal (Math_round h) (of_Z 1008));
    [now right |].
  destruct (ltb (of_Z 900) h); [now right | now left].
Qed.

(** The loop of [renderPreview] over the pages [k + 1], ..., [k + n]:
    one image for each of them that the list has. *)
Lemma render_pages_in_order (images : list string) (colorMode : string) (n k : nat)
    (shown : list preview_image) :
  Forall (fun src => nonempty src = true) images ->
  fold_left (render_one images colorMode)
            (map (fun i => (Z.of_nat i + 1)%Z) (seq k n)) shown
  = shown ++ map (fun src => {| img_src := src; img_bw := String.eqb colorMode "bw" |})
                 (firstn n (skipn k images)).
Proof.
  intros Hsrc. revert k shown. induction n as [| n IH]; intros k shown.
  - simpl. now rewrite app_nil_r.
  - cbn [seq map fold_left]. rewrite IH.
    unfold render_one at 1, page_src.
    destruct (Z.ltb_spec (Z.of_nat k + 1 - 1) 0) as [Hneg | _]; [lia |].
    replace (Z.to_nat (Z.of_nat k + 1 - 1)) with k by lia.
    destruct (nth_error images k) as [src |] eqn:E.
    + rewrite Forall_forall in Hsrc. rewrite (Hsrc src (nth_error_In _ _ E)).
      apply nth_error_split in E as (l1 & l2 & -> & <-).
      assert (skipn (S (List.length l1)) l1 = []) as E1 by (apply skipn_all2; lia).
      assert (skipn (List.length l1) l1 = []) as E2 by apply skipn_all.
      rewrite !skipn_app, E1, E2, Nat.sub_diag.
      replace (S (List.length l1) - List.length l1) with 1 by lia.
      cbn [skipn app firstn map]. now rewrite <- app_assoc.
    + apply nth_error_None in E.
      rewrite !skipn_all2 by lia. now destruct n.
Qed.

(** [updatePreview] in the page mode "all". *)
Lemma updatePreview_all (ui : ui_state) (shown : preview_content)
    (images : list string) (k : nat) :
  ui_pageMode ui = "all" -> ui_totalPages ui = Z.of_nat (S k) ->
  images_for ui = Some images -> images <> [] ->
  Forall (fun src => nonempty src = true) images ->
  fst (updatePreview ui shown)
  = PreviewImages
      (map (fun src => {| img_src := src; img_bw := String.eqb (ui_color ui) "bw" |})
           (firstn (S k) images)).
Proof.
  intros Hmode HN Himages Hne Hsrc. unfold updatePreview, getSelectedPages.
  rewrite HN, Hmode, Himages.
  destruct (Z.eqb_spec (Z.of_nat (S k)) 0) as [E | _]; [lia |].
  change (String.eqb "all" "all") with true. cbv iota.
  unfold page_numbers. rewrite Nat2Z.id.
  destruct images as [| src more]; [contradiction |].
  change (seq 0 (S k)) with (0 :: seq 1 k). cbn [map fst].
  unfold renderPreview.
  f_equal.
  exact (render_pages_in_order (src :: more) (ui_color ui) (S k) 0 [] Hsrc).
Qed.

Lemma prefixed_nonempty (prefix : string) (files : list string) :
  nonempty prefix = true ->
  Forall (fun src => nonempty src = true) (map (append prefix) files).
Proof.
  intros H. apply Forall_forall. intros src Hin.
  apply in_map_iff in Hin as (f & <- & _). now destruct prefix.
Qed.

End UploadToPreview.

(** X17.  From the upload to the preview.  When the second revision's
    /upload answers with success and the page reads the answer, the
    paper size selected is the size the server reported, and with the
    page mode "all" the preview shows the page files of that partition
    in the order of the directory listing, as many as the PDF has pages
    or as there are files if these are fewer: the picture in the place of
    page k is the k-th file listed.  Directory listings hold plain names,
    without slash. *)
Theorem upload_then_preview (no_page_message : string) (now : Z)
    (file : option Server.uploaded_file) (pdf : Server.result (list Server.page_size))
    (resized : Server.result unit) (letter legal : Server.gs_run)
    (l g : list string) (n : nat) (size b : string)
    (ui : App.ui_state) (shown : App.preview_content) :
  (forall files, Server.gs_listing letter = Server.Ok files ->
     Forall (fun f => every_char (fun c => negb (Ascii.eqb c "/")) f = true) files) ->
  (forall files, Server.gs_listing legal = Server.Ok files ->
     Forall (fun f => every_char (fun c => negb (Ascii.eqb c "/")) f = true) files) ->
  Server.upload no_page_message now file pdf resized (Server.GhostscriptRuns letter legal)
  = Server.UploadSuccess l g n size b ->
  App.ui_pageMode ui = "all" ->
  exists ui',
    UploadForm.receive_upload ui (Server.UploadSuccess l g n size b) = Some (b, ui')
    /\ App.ui_paper ui' = size
    /\ App.ui_totalPages ui' = Z.of_nat n
    /\ let run := if String.eqb size "letter" then letter else legal in
       fst (App.updatePreview ui' shown)
       = App.PreviewImages
           (map (fun f => {| App.img_src := ("/cache/" ++ size ++ "/" ++ f)%string;
                             App.img_bw := String.eqb (App.ui_color ui) "bw" |})
                (firstn n (outputs run b))).
Proof.
  intros Hletter Hlegal Hup Hmode.
  destruct (upload_success_parts no_page_message now file pdf resized letter legal
              l g n size b Hletter Hlegal Hup)
    as (f & first & rest & _ & _ & _ & _ & _ & _ & HL & HG & _ & -> & Hsize & -> & ->).
  assert (size = "letter" \/ size = "legal") as Hcases
    by (rewrite Hsize; apply originalSize_cases).
  clear Hsize Hup.
  eexists. split; [reflexivity |].
  assert (Server.among ["letter"; "legal"] (Server.Str size) = true) as ->
    by (destruct Hcases as [-> | ->]; reflexivity).
  cbn [App.ui_paper App.ui_totalPages].
  split; [reflexivity |]. split; [reflexivity |].
  destruct Hcases as [-> | ->]; cbv zeta;
    [change (String.eqb "letter" "letter") with true
    | change (String.eqb "legal" "letter") with false]; cbv iota.
  - match goal with |- context [App.updatePreview ?u _] => set (ui' := u) end.
    rewrite (updatePreview_all ui' shown (map (append "/cache/letter/") (outputs letter b))
               (List.length rest) Hmode eq_refl eq_refl).
    + subst ui'. cbn [App.ui_color]. now rewrite firstn_map, map_map.
    + now destruct (outputs letter b).
    + now apply prefixed_nonempty.
  - match goal with |- context [App.updatePreview ?u _] => set (ui' := u) end.
    rewrite (updatePreview_all ui' shown (map (append "/cache/legal/") (outputs legal b))
               (List.length rest) Hmode eq_refl eq_refl).
    + subst ui'. cbn [App.ui_color]. now rewrite firstn_map, map_map.
    + now destruct (outputs legal b).
    + now apply prefixed_nonempty.
Qed.

Lemma upload_then_preview_witness :
  exists ui',
    UploadForm.receive_upload initial_ui
      (Server.UploadSuccess ["/cache/letter/17-a_2.png"; "/cache/letter/17-a_1.png"]
         ["/cache/legal/17-a_2.png"; "/cache/legal/17-a_1.png"] 2 "letter" "17-a")
    = Some ("17-a", ui')
    /\ fst (App.updatePreview ui' App.WaitingMessage)
       = App.PreviewImages
           [{| App.img_src := "/cache/letter/17-a_2.png"; App.img_bw := false |};
            {| App.img_src := "/cache/letter/17-a_1.png"; App.img_bw := false |}].
Proof.
  assert (forall files, Server.gs_listing unordered_run = Server.Ok files ->
            Forall (fun f => every_char (fun c => negb (Ascii.eqb c "/")) f = true) files)
    as Hplain by (intros files [= <-]; repeat constructor).
  destruct (upload_then_preview "" 17
              (Some {| Server.originalname := "a.pdf";
                       Server.mimetype := "application/pdf" |})
              (Server.Ok [letter_page; letter_page]) (Server.Ok tt)
              unordered_run unordered_run
              ["/cache/letter/17-a_2.png"; "/cache/letter/17-a_1.png"]
              ["/cache/legal/17-a_2.png"; "/cache/legal/17-a_1.png"] 2 "letter" "17-a"
              initial_ui App.WaitingMessage Hplain Hplain eq_refl eq_refl)
    as (ui' & Hreceived & _ & _ & Hshown).
  exists ui'. split; [exact Hreceived | exact Hshown].
Defined.
